(** * FIDS-TUI: the split-flap animation engine and the departure board

    A shallow embedding of the Go packages [ui] (animation.go, flight_row.go,
    board.go), [models] (flight.go), [api] (timezone.go and the part of
    flightaware.go that follows the decoding of the response), [config]
    (config.go) and of main.go, followed by the properties of the board
    that the design document states and by further properties of the
    code.

    Conventions of the embedding.
    - A Go [string] is a sequence of bytes: [list ascii].  A [rune] and an
      [int] are integers in [Z]; where the program adds or multiplies
      [int]s the 64-bit wrap-around is written out ([wrap64]), and Go's
      truncating [/] and [%] are [Z.quot] and [Z.rem].
    - A run-time panic (index or slice bound out of range, [make] with a
      negative length, nil dereference, division by zero) is the result
      [None].
    - Pointers that the program shares are addresses into explicit stores:
      [*FlightRow] is an index into [rowHeap], [*models.Flight] is a pair
      (slice address, index) into [sliceHeap].
    - [time.Now()] is read once per changed character; a call receives the
      readings it will observe as a function from the character index to
      a monotonic-clock reading in nanoseconds ([Clock]). *)

From Stdlib Require Import ZArith Ascii String DecimalString Lia.
From stdpp Require Import base option list sorting gmap strings.

Local Open Scope Z_scope.

(** ** Go strings, runes and [int] *)

Abbreviation gostring := (list ascii) (only parsing).
Abbreviation rune := Z (only parsing).

Definition str (s : string) : gostring := list_ascii_of_string s.

Definition len {A : Type} (l : list A) : Z := Z.of_nat (length l).

Definition space : ascii := " "%char.

(** [rune(s[i])] for a byte of a string. *)
Definition runeOfByte (b : ascii) : rune := Z.of_N (N_of_ascii b).

(** [s[:n]]; out of range panics. *)
Definition sliceTo (s : gostring) (n : Z) : option gostring :=
  if (n <? 0) || (len s <? n) then None else Some (take (Z.to_nat n) s).

Definition minInt64 : Z := - 2 ^ 63.
Definition maxInt64 : Z := 2 ^ 63 - 1.

(** Two's complement wrap-around of a 64-bit [int]. *)
Definition wrap64 (z : Z) : Z := (z + 2 ^ 63) mod 2 ^ 64 - 2 ^ 63.

(** [time.Duration] arithmetic saturates instead of wrapping. *)
Definition sat64 (z : Z) : Z := Z.max minInt64 (Z.min maxInt64 z).

(** *** [string([]rune)]: UTF-8 encoding *)

Definition byteOfZ (z : Z) : ascii := ascii_of_N (Z.to_N z).

Definition encodeRune (r : rune) : gostring :=
  if (r <? 0) || (1114111 <? r) || ((55296 <=? r) && (r <=? 57343)) then
    [byteOfZ 239; byteOfZ 191; byteOfZ 189]
  else if r <? 128 then [byteOfZ r]
  else if r <? 2048 then
    [byteOfZ (Z.lor 192 (Z.shiftr r 6)); byteOfZ (Z.lor 128 (Z.land r 63))]
  else if r <? 65536 then
    [byteOfZ (Z.lor 224 (Z.shiftr r 12));
     byteOfZ (Z.lor 128 (Z.land (Z.shiftr r 6) 63));
     byteOfZ (Z.lor 128 (Z.land r 63))]
  else
    [byteOfZ (Z.lor 240 (Z.shiftr r 18));
     byteOfZ (Z.lor 128 (Z.land (Z.shiftr r 12) 63));
     byteOfZ (Z.lor 128 (Z.land (Z.shiftr r 6) 63));
     byteOfZ (Z.lor 128 (Z.land r 63))].

Definition stringOfRunes (rs : list rune) : gostring := flat_map encodeRune rs.

(** A byte of the form 10xxxxxx continues a character. *)
Definition isContinuation (b : ascii) : bool :=
  Z.land (runeOfByte b) 192 =? 128.

(** Number of characters of a well-formed UTF-8 string: every character
    has exactly one byte that is not a continuation byte. *)
Definition RuneCountInString (s : gostring) : Z :=
  len (filter (fun b => isContinuation b = false) s).

(** ** animation.go *)

Inductive CharAnimationState : Type :=
  | CharStateStable
  | CharStateBlinking
  | CharStateComplete.

#[global] Instance CharAnimationState_eq_dec : EqDecision CharAnimationState.
Proof. solve_decision. Defined.

Record CharAnimation : Type := mkCharAnimation {
  OldChar : rune;
  NewChar : rune;
  State : CharAnimationState;
  BlinkPhase : Z;
  StartTime : Z
}.

#[global] Instance CharAnimation_eq_dec : EqDecision CharAnimation.
Proof. solve_decision. Defined.

Record AnimatedText : Type := mkAnimatedText {
  OldText : gostring;
  NewText : gostring;
  Chars : list (option CharAnimation);
  MaxLength : Z
}.

(** The readings of [time.Now()] / [time.Since] taken while one call walks
    over the characters: index of the character to nanoseconds. *)
Definition Clock : Type := nat -> Z.

Definition solidBlock : rune := 9608.
Definition lightBlock : rune := 9617.

Definition millisecond : Z := 1000000.

Definition NewAnimatedText (maxLength : Z) : option AnimatedText :=
  if maxLength <? 0 then None
  else Some {| OldText := []; NewText := [];
               Chars := replicate (Z.to_nat maxLength) None;
               MaxLength := maxLength |}.

(** [for len(text) < MaxLength { text += " " }], [n] characters short. *)
Fixpoint padSpaces (n : nat) (text : gostring) : gostring :=
  match n with
  | O => text
  | S n' => padSpaces n' (text ++ [space])
  end.

(** "Pad or truncate to max length" (the block is written twice in
    [Update], for the new and for the old text). *)
Definition padOrTruncate (maxLength : Z) (text : gostring) : option gostring :=
  if maxLength <? len text then sliceTo text maxLength
  else Some (padSpaces (Z.to_nat (maxLength - len text)) text).

(** [if i < len(text) { rune(text[i]) } else { ' ' }] *)
Definition charAt (text : gostring) (i : nat) : rune :=
  match text !! i with
  | Some b => runeOfByte b
  | None => 32
  end.

(** One iteration of the loop of [Update] on the cell found at [Chars[i]]. *)
Definition updateCell (oldChar newChar : rune) (now : Z)
    (cell : option CharAnimation) : CharAnimation :=
  let c := match cell with
           | None => {| OldChar := oldChar; NewChar := newChar;
                        State := CharStateStable; BlinkPhase := 0;
                        StartTime := 0 |}
           | Some c => c
           end in
  if decide (oldChar = newChar) then c
  else {| OldChar := oldChar; NewChar := newChar;
          State := CharStateBlinking; BlinkPhase := 0; StartTime := now |}.

(** [for i := ...; i < at.MaxLength; i++], with [n] iterations left. *)
Fixpoint updateLoop (oldText newText : gostring) (clock : Clock)
    (i n : nat) (chars : list (option CharAnimation))
    : option (list (option CharAnimation)) :=
  match n with
  | O => Some chars
  | S n' =>
      cell ← chars !! i;
      updateLoop oldText newText clock (S i) n'
        (<[i := Some (updateCell (charAt oldText i) (charAt newText i)
                        (clock i) cell)]> chars)
  end.

Definition Update (at_ : AnimatedText) (newText : gostring) (clock : Clock)
    : option AnimatedText :=
  newText' ← padOrTruncate (MaxLength at_) newText;
  oldText ← padOrTruncate (MaxLength at_) (OldText at_);
  chars ← updateLoop oldText newText' clock 0 (Z.to_nat (MaxLength at_))
             (Chars at_);
  Some {| OldText := newText'; NewText := newText'; Chars := chars;
          MaxLength := MaxLength at_ |}.

(** The body of the loop of [Tick] for a non-nil cell; [now - StartTime]
    is [time.Since(char.StartTime)]. *)
Definition tickCell (now : Z) (c : CharAnimation) : CharAnimation :=
  match State c with
  | CharStateBlinking =>
      let elapsed := sat64 (now - StartTime c) in
      let phase := Z.rem (Z.quot (Z.quot elapsed millisecond) 100) 2 in
      {| OldChar := OldChar c; NewChar := NewChar c;
         State := if 300 * millisecond <? elapsed then CharStateComplete
                  else CharStateBlinking;
         BlinkPhase := phase; StartTime := StartTime c |}
  | CharStateComplete =>
      {| OldChar := OldChar c; NewChar := NewChar c; State := CharStateStable;
         BlinkPhase := BlinkPhase c; StartTime := StartTime c |}
  | CharStateStable => c
  end.

Definition Tick (at_ : AnimatedText) (clock : Clock) : AnimatedText :=
  {| OldText := OldText at_; NewText := NewText at_;
     Chars := imap (fun i cell => tickCell (clock i) <$> cell) (Chars at_);
     MaxLength := MaxLength at_ |}.

(** What [Render] stores into [result[i]]. *)
Definition renderCell (cell : option CharAnimation) : rune :=
  match cell with
  | None => 32
  | Some c =>
      match State c with
      | CharStateBlinking =>
          if BlinkPhase c =? 0 then solidBlock else lightBlock
      | CharStateComplete | CharStateStable => NewChar c
      end
  end.

(** [for i, char := range at.Chars { result[i] = ... }] *)
Fixpoint renderLoop (i : nat) (chars : list (option CharAnimation))
    (result : list rune) : option (list rune) :=
  match chars with
  | [] => Some result
  | cell :: rest =>
      if decide (i < length result)%nat
      then renderLoop (S i) rest (<[i := renderCell cell]> result)
      else None
  end.

(** The [[]rune] that [Render] converts to a string. *)
Definition RenderRunes (at_ : AnimatedText) : option (list rune) :=
  if MaxLength at_ <? 0 then None
  else renderLoop 0 (Chars at_) (replicate (Z.to_nat (MaxLength at_)) 0).

Definition Render (at_ : AnimatedText) : option gostring :=
  stringOfRunes <$> RenderRunes at_.

Definition isBlinking (cell : option CharAnimation) : bool :=
  match cell with
  | Some c => bool_decide (State c = CharStateBlinking)
  | None => false
  end.

Definition IsAnimating (at_ : AnimatedText) : bool :=
  existsb isBlinking (Chars at_).

(** ** The [time] package, as far as the board uses it

    A [time.Time] of a flight is an instant (nanoseconds since the Unix
    epoch; the times decoded from the data source carry no monotonic
    reading) together with the location it is displayed in.  A
    [*time.Location] maps a Unix second to the zone's offset east of UTC,
    in seconds. *)

Record Location : Type := mkLocation { zoneOffset : Z -> Z }.

Record Time : Type := mkTime { unixNano : Z; location : Location }.

Definition UTC : Location := {| zoneOffset := fun _ => 0 |}.

(** [t.In(loc)]: the same instant, displayed in [loc]. *)
Definition In_ (t : Time) (loc : Location) : Time :=
  {| unixNano := unixNano t; location := loc |}.

(** [t.Before(u)] *)
Definition Before (t u : Time) : bool := unixNano t <? unixNano u.

Definition digit (d : Z) : ascii := byteOfZ (48 + d).

Definition twoDigits (n : Z) : gostring := [digit (n / 10); digit (n mod 10)].

(** Seconds since local midnight of the instant in its location. *)
Definition secondOfDay (t : Time) : Z :=
  let sec := unixNano t / 1000000000 in
  (sec + zoneOffset (location t) sec) mod 86400.

(** [t.Format("15:04")] *)
Definition Format1504 (t : Time) : gostring :=
  twoDigits (secondOfDay t / 3600) ++ str ":" ++
  twoDigits (secondOfDay t mod 3600 / 60).

(** ** models/flight.go *)

Abbreviation FlightStatus := Z (only parsing).
Definition StatusOnTime : FlightStatus := 0.
Definition StatusDelayed : FlightStatus := 1.
Definition StatusTaxiingLeftGate : FlightStatus := 2.
Definition StatusTaxiingDelayed : FlightStatus := 3.
Definition StatusCancelled : FlightStatus := 4.

Record Flight : Type := mkFlight {
  Status : FlightStatus;
  AirlineCode : gostring;
  AirlineName : gostring;
  FlightNumber : gostring;
  DestinationCode : gostring;
  DestinationCity : gostring;
  Gate : gostring;
  Remarks : gostring;
  ScheduledDeparture : Time;
  EstimatedDeparture : option Time
}.

Definition GetStatusColor (f : Flight) : gostring :=
  match Status f with
  | 0 => str "green"
  | 1 => str "orange"
  | 2 => str "yellow"
  | 3 => str "orange"
  | 4 => str "red"
  | _ => str "white"
  end.

Definition GetDestination (f : Flight) : gostring :=
  if decide (DestinationCity f = []) then DestinationCode f
  else DestinationCode f ++ str " " ++ DestinationCity f.

(** ** flight_row.go *)

(** A [*models.Flight] of a row: the address of a [[]models.Flight] and an
    index into it ([&flights[i]]). *)
Definition FlightPtr : Type := (nat * nat)%type.

Record FlightRow : Type := mkFlightRow {
  Flight_ : option FlightPtr;
  StatusAnim : AnimatedText;
  FlightNumAnim : AnimatedText;
  TimeAnim : AnimatedText;
  DestinationAnim : AnimatedText;
  GateAnim : AnimatedText;
  RemarksAnim : AnimatedText
}.

(** The clocks of the six field updates (or ticks) of one row. *)
Record RowClock : Type := mkRowClock {
  ckStatus : Clock;
  ckFlightNum : Clock;
  ckTime : Clock;
  ckDestination : Clock;
  ckGate : Clock;
  ckRemarks : Clock
}.

Definition getStatusChar (status : FlightStatus) : gostring :=
  match status with
  | 0 => str "*"
  | 1 => str "!"
  | 2 => str ">"
  | 3 => str ">"
  | 4 => str "X"
  | _ => str " "
  end.

Definition truncate (s : gostring) (maxLen : Z) : option gostring :=
  if len s <=? maxLen then Some s else sliceTo s maxLen.

(** The gate text a row shows: truncated to 6, five blanks when empty. *)
Definition gateText (f : Flight) : option gostring :=
  gate ← truncate (Gate f) 6;
  Some (if decide (gate = []) then str "     " else gate).

(** [(fr *FlightRow) Update(flight)]; [flight] is the value found behind
    the pointer [ptr] when the call is made. *)
Definition FlightRow_Update (fr : FlightRow) (ptr : FlightPtr) (flight : Flight)
    (clk : RowClock) : option FlightRow :=
  statusAnim ← Update (StatusAnim fr) (getStatusChar (Status flight)) (ckStatus clk);
  flightNum ← truncate (FlightNumber flight) 8;
  flightNumAnim ← Update (FlightNumAnim fr) flightNum (ckFlightNum clk);
  timeAnim ← Update (TimeAnim fr) (Format1504 (ScheduledDeparture flight)) (ckTime clk);
  dest ← truncate (GetDestination flight) 20;
  destinationAnim ← Update (DestinationAnim fr) dest (ckDestination clk);
  gate ← gateText flight;
  gateAnim ← Update (GateAnim fr) gate (ckGate clk);
  remarks ← truncate (Remarks flight) 20;
  remarksAnim ← Update (RemarksAnim fr) remarks (ckRemarks clk);
  Some {| Flight_ := Some ptr; StatusAnim := statusAnim;
          FlightNumAnim := flightNumAnim; TimeAnim := timeAnim;
          DestinationAnim := destinationAnim; GateAnim := gateAnim;
          RemarksAnim := remarksAnim |}.

(** [NewFlightRow(flight)]; [None] is the nil flight of a filler row.  The
    initialisation of a non-nil flight is the code of [Update] again. *)
Definition NewFlightRow (flight : option (FlightPtr * Flight)) (clk : RowClock)
    : option FlightRow :=
  statusAnim ← NewAnimatedText 1;
  flightNumAnim ← NewAnimatedText 8;
  timeAnim ← NewAnimatedText 8;
  destinationAnim ← NewAnimatedText 20;
  gateAnim ← NewAnimatedText 6;
  remarksAnim ← NewAnimatedText 20;
  let row := {| Flight_ := None; StatusAnim := statusAnim;
                FlightNumAnim := flightNumAnim; TimeAnim := timeAnim;
                DestinationAnim := destinationAnim; GateAnim := gateAnim;
                RemarksAnim := remarksAnim |} in
  match flight with
  | None => Some row
  | Some (ptr, f) => FlightRow_Update row ptr f clk
  end.

Definition FlightRow_Tick (fr : FlightRow) (clk : RowClock) : FlightRow :=
  {| Flight_ := Flight_ fr;
     StatusAnim := Tick (StatusAnim fr) (ckStatus clk);
     FlightNumAnim := Tick (FlightNumAnim fr) (ckFlightNum clk);
     TimeAnim := Tick (TimeAnim fr) (ckTime clk);
     DestinationAnim := Tick (DestinationAnim fr) (ckDestination clk);
     GateAnim := Tick (GateAnim fr) (ckGate clk);
     RemarksAnim := Tick (RemarksAnim fr) (ckRemarks clk) |}.

(** The styles of lipgloss are functions from a text to the styled text. *)
Record SplitFlapStyles : Type := mkSplitFlapStyles {
  Background : gostring -> gostring;
  Text : gostring -> gostring;
  Header : gostring -> gostring;
  StatusLight : gostring -> gostring -> gostring;
  AirportLabel : gostring -> gostring;
  PageInfo : gostring -> gostring;
  Error_ : gostring -> gostring
}.

(** [fmt.Sprintf("%s %s %s %s %s %s", ...)] *)
Definition joinSpaces (parts : list gostring) : gostring :=
  match parts with
  | [] => []
  | p :: rest => p ++ flat_map (fun q => space :: q) rest
  end.

Definition emptyRow : gostring := replicate 68 space.

(** [(fr *FlightRow) Render(styles)]; [deref] reads a flight pointer. *)
Definition FlightRow_Render (deref : FlightPtr -> option Flight)
    (fr : FlightRow) (styles : SplitFlapStyles) : option gostring :=
  match Flight_ fr with
  | None => Some (Text styles emptyRow)
  | Some ptr =>
      flight ← deref ptr;
      let statusColor := GetStatusColor flight in
      statusText ← Render (StatusAnim fr);
      let statusRendered := StatusLight styles statusColor statusText in
      flightNum ← Text styles <$> Render (FlightNumAnim fr);
      timeStr ← Text styles <$> Render (TimeAnim fr);
      destination ← Text styles <$> Render (DestinationAnim fr);
      gate ← Text styles <$> Render (GateAnim fr);
      remarks ← Text styles <$> Render (RemarksAnim fr);
      Some (joinSpaces [statusRendered; flightNum; timeStr; destination;
                        gate; remarks])
  end.

(** ** [sort.Slice]

    The standard library's [sort.Slice(x, less)] rearranges [x] in place.
    Its documentation promises an ordering with respect to [less] and
    nothing about elements that compare equal ("the sort is not guaranteed
    to be stable"), so the board is verified against every function with
    that contract. *)

Record StrictWeakOrder {A : Type} (less : A -> A -> bool) : Prop := {
  swo_irrefl : forall x, less x x = false;
  swo_trans : forall x y z, less x y = true -> less y z = true -> less x z = true;
  swo_negtrans : forall x y z,
    less x y = false -> less y z = false -> less x z = false
}.

(** No element is [less] than one that precedes it. *)
Definition sortedBy {A : Type} (less : A -> A -> bool) (l : list A) : Prop :=
  forall i j x y, (i < j)%nat -> l !! i = Some x -> l !! j = Some y ->
    less y x = false.

Class SliceSorter : Type := {
  sortSlice : forall {A : Type}, (A -> A -> bool) -> list A -> list A
}.

(** What the documentation of [sort.Slice] promises of the result: the
    same elements, none [less] than one that precedes it. *)
Record SortContract (sorter : SliceSorter) : Prop := {
  sortSlice_perm : forall (A : Type) (less : A -> A -> bool) (l : list A),
    sortSlice less l ≡ₚ l;
  sortSlice_sorted : forall (A : Type) (less : A -> A -> bool) (l : list A),
    StrictWeakOrder less -> sortedBy less (sortSlice less l)
}.

(** For slices of at most twelve elements [sort.Slice] is an insertion
    sort: element [i] is swapped towards the front while it is [less] than
    its left neighbour.  [insertBack] works on the reversed prefix. *)
Fixpoint insertBack {A : Type} (less : A -> A -> bool) (x : A)
    (revPrefix : list A) : list A :=
  match revPrefix with
  | [] => [x]
  | y :: rest =>
      if less x y then y :: insertBack less x rest else x :: revPrefix
  end.

Definition insertionSort {A : Type} (less : A -> A -> bool) (l : list A)
    : list A :=
  reverse (fold_left (fun revPrefix x => insertBack less x revPrefix) l []).

Definition insertionSorter : SliceSorter := {| sortSlice := @insertionSort |}.

(** What [sort.Slice] does with a slice of at most twelve elements
    ([maxInsertion] in [pdqsort_func]): the insertion sort. *)
Definition insertionOnShort (sorter : SliceSorter) : Prop :=
  forall (A : Type) (less : A -> A -> bool) (l : list A),
    (length l <= 12)%nat -> sortSlice less l = insertionSort less l.

(** ** [sort.Slice]: the algorithm

    What [sort.Slice] does, beyond what it promises: package sort of the
    standard library (zsortfunc.go, Go 1.19 and later) sorts with
    [pdqsort_func], a pattern-defeating quicksort that hands slices of at
    most twelve elements to the insertion sort and falls back on a heap
    sort after too many unbalanced partitions.  The slice is a list that
    [data.Swap] updates; a loop takes the number of iterations it may make
    (each is bounded by the length of the slice), an index is an integer.
    The indices that the package computes stay inside the slice and far
    below the range of an [int]. *)
Module sort.
Section Variants.
Context {A : Type} (less : A -> A -> bool).

Definition index (data : list A) (i : Z) : option A :=
  if i <? 0 then None else data !! Z.to_nat i.

(** [data.Less(i, j)]: [less] on the elements at [i] and [j]. *)
Definition Less (data : list A) (i j : Z) : bool :=
  match index data i, index data j with
  | Some x, Some y => less x y
  | _, _ => false
  end.

(** [data.Swap(i, j)] *)
Definition Swap (data : list A) (i j : Z) : list A :=
  match index data i, index data j with
  | Some x, Some y => <[Z.to_nat i := y]> (<[Z.to_nat j := x]> data)
  | _, _ => data
  end.

(** [insertionSort_func(data, a, b)] sorts [data[a:b]] by insertion. *)
Definition insertionSort_func (data : list A) (a b : Z) : list A :=
  take (Z.to_nat a) data ++
  insertionSort less (take (Z.to_nat (b - a)) (drop (Z.to_nat a) data)) ++
  drop (Z.to_nat b) data.

(** [siftDown_func(data, lo, hi, first)], [root] being the loop variable. *)
Fixpoint siftDown_loop (fuel : nat) (data : list A) (root hi first : Z)
    : list A :=
  match fuel with
  | O => data
  | S fuel =>
      let child := 2 * root + 1 in
      if hi <=? child then data
      else
        let child :=
          if (child + 1 <? hi) &&
             Less data (first + child) (first + child + 1)
          then child + 1 else child in
        if negb (Less data (first + root) (first + child)) then data
        else siftDown_loop fuel (Swap data (first + root) (first + child))
               child hi first
  end.

Definition siftDown_func (data : list A) (lo hi first : Z) : list A :=
  siftDown_loop (S (length data)) data lo hi first.

(** [heapSort_func(data, a, b)]: both loops count [i] down to 0. *)
Definition heapSort_func (data : list A) (a b : Z) : list A :=
  let first := a in
  let lo := 0 in
  let hi := b - a in
  let data :=
    foldl (fun data i => siftDown_func data i hi first) data
      (reverse (seqZ 0 ((hi - 1) `quot` 2 + 1))) in
  foldl (fun data i => siftDown_func (Swap data first (first + i)) lo i first)
    data (reverse (seqZ 0 hi)).

(** The loop [for i <= j && data.Less(i, a) { i++ }] of [partition_func]. *)
Fixpoint skipLess (fuel : nat) (data : list A) (a i j : Z) : Z :=
  match fuel with
  | O => i
  | S fuel =>
      if (i <=? j) && Less data i a then skipLess fuel data a (i + 1) j
      else i
  end.

(** [for i <= j && !data.Less(j, a) { j-- }] *)
Fixpoint skipNotLess (fuel : nat) (data : list A) (a i j : Z) : Z :=
  match fuel with
  | O => j
  | S fuel =>
      if (i <=? j) && negb (Less data j a)
      then skipNotLess fuel data a i (j - 1)
      else j
  end.

(** The [for] loop at the end of [partition_func]; it leaves with [j]. *)
Fixpoint partition_loop (fuel : nat) (data : list A) (a i j : Z)
    : list A * Z :=
  match fuel with
  | O => (data, j)
  | S fuel =>
      let i := skipLess (S (length data)) data a i j in
      let j := skipNotLess (S (length data)) data a i j in
      if j <? i then (data, j)
      else partition_loop fuel (Swap data i j) a (i + 1) (j - 1)
  end.

(** [partition_func(data, a, b, pivot)]: the slice, [newpivot] and
    [alreadyPartitioned]. *)
Definition partition_func (data : list A) (a b pivot : Z)
    : list A * Z * bool :=
  let data := Swap data a pivot in
  let i := a + 1 in
  let j := b - 1 in
  let i := skipLess (S (length data)) data a i j in
  let j := skipNotLess (S (length data)) data a i j in
  if j <? i then (Swap data j a, j, true)
  else
    let data := Swap data i j in
    let '(data, j) :=
      partition_loop (S (length data)) data a (i + 1) (j - 1) in
    (Swap data j a, j, false).

(** [for i <= j && !data.Less(a, i) { i++ }] of [partitionEqual_func]. *)
Fixpoint skipEqual (fuel : nat) (data : list A) (a i j : Z) : Z :=
  match fuel with
  | O => i
  | S fuel =>
      if (i <=? j) && negb (Less data a i)
      then skipEqual fuel data a (i + 1) j
      else i
  end.

(** [for i <= j && data.Less(a, j) { j-- }] *)
Fixpoint skipGreater (fuel : nat) (data : list A) (a i j : Z) : Z :=
  match fuel with
  | O => j
  | S fuel =>
      if (i <=? j) && Less data a j then skipGreater fuel data a i (j - 1)
      else j
  end.

(** The [for] loop of [partitionEqual_func]; it leaves with [i]. *)
Fixpoint partitionEqual_loop (fuel : nat) (data : list A) (a i j : Z)
    : list A * Z :=
  match fuel with
  | O => (data, i)
  | S fuel =>
      let i := skipEqual (S (length data)) data a i j in
      let j := skipGreater (S (length data)) data a i j in
      if j <? i then (data, i)
      else partitionEqual_loop fuel (Swap data i j) a (i + 1) (j - 1)
  end.

(** [partitionEqual_func(data, a, b, pivot)] *)
Definition partitionEqual_func (data : list A) (a b pivot : Z)
    : list A * Z :=
  let data := Swap data a pivot in
  partitionEqual_loop (S (length data)) data a (a + 1) (b - 1).

(** The first loop of [partialInsertionSort_func]:
    [for i < b && !data.Less(i, i-1) { i++ }]. *)
Fixpoint skipOrdered (fuel : nat) (data : list A) (i b : Z) : Z :=
  match fuel with
  | O => i
  | S fuel =>
      if (i <? b) && negb (Less data i (i - 1))
      then skipOrdered fuel data (i + 1) b
      else i
  end.

(** "Shift the smaller one to the left": [for j := i - 1; j >= 1; j--]. *)
Fixpoint shiftLeft (fuel : nat) (data : list A) (j : Z) : list A :=
  match fuel with
  | O => data
  | S fuel =>
      if 1 <=? j then
        if negb (Less data j (j - 1)) then data
        else shiftLeft fuel (Swap data j (j - 1)) (j - 1)
      else data
  end.

(** "Shift the greater one to the right": [for j := i + 1; j < b; j++]. *)
Fixpoint shiftRight (fuel : nat) (data : list A) (j b : Z) : list A :=
  match fuel with
  | O => data
  | S fuel =>
      if j <? b then
        if negb (Less data j (j - 1)) then data
        else shiftRight fuel (Swap data j (j - 1)) (j + 1) b
      else data
  end.

Definition maxSteps : nat := 5.
Definition shortestShifting : Z := 50.

(** The outer loop of [partialInsertionSort_func], [steps] iterations
    left; the result is the slice and whether it is sorted. *)
Fixpoint partialInsertionSort_loop (steps : nat) (data : list A) (a b i : Z)
    : list A * bool :=
  match steps with
  | O => (data, false)
  | S steps =>
      let i := skipOrdered (S (length data)) data i b in
      if i =? b then (data, true)
      else if b - a <? shortestShifting then (data, false)
      else
        let data := Swap data i (i - 1) in
        let data :=
          if 2 <=? i - a then shiftLeft (S (length data)) data (i - 1)
          else data in
        let data :=
          if 2 <=? b - i then shiftRight (S (length data)) data (i + 1) b
          else data in
        partialInsertionSort_loop steps data a b i
  end.

Definition partialInsertionSort_func (data : list A) (a b : Z)
    : list A * bool :=
  partialInsertionSort_loop maxSteps data a b (a + 1).

(** [bits.Len(x)]: the number of bits of [x]. *)
Definition bits_Len (x : Z) : Z := if x =? 0 then 0 else Z.log2 x + 1.

(** [(r *xorshift) Next()] on a [uint64]. *)
Definition xorshift_Next (r : Z) : Z :=
  let r := Z.lxor r (Z.shiftl r 13 mod 2 ^ 64) in
  let r := Z.lxor r (Z.shiftr r 7) in
  Z.lxor r (Z.shiftl r 17 mod 2 ^ 64).

Definition nextPowerOfTwo (length : Z) : Z :=
  Z.shiftl 1 (bits_Len length) mod 2 ^ 64.

(** [breakPatterns_func(data, a, b)]: three swaps around the middle with
    pseudo-random partners, the generator seeded with the length. *)
Definition breakPatterns_func (data : list A) (a b : Z) : list A :=
  let length := b - a in
  if 8 <=? length then
    let modulus := nextPowerOfTwo length in
    let idx := a + (length `quot` 4) * 2 - 1 in
    (foldl
       (fun '(random, data) i =>
          let random := xorshift_Next random in
          let other := Z.land random (modulus - 1) in
          let other := if length <=? other then other - length else other in
          (random, Swap data (idx - 1 + i) (a + other)))
       (length, data) [0; 1; 2]).2
  else data.

Inductive sortedHint : Type := unknownHint | increasingHint | decreasingHint.

(** [order2_func(data, a, b, &swaps)]: the two indices and [swaps]. *)
Definition order2_func (data : list A) (a b swaps : Z) : Z * Z * Z :=
  if Less data b a then (b, a, swaps + 1) else (a, b, swaps).

(** [median_func(data, a, b, c, &swaps)] *)
Definition median_func (data : list A) (a b c swaps : Z) : Z * Z :=
  let '(a, b, swaps) := order2_func data a b swaps in
  let '(b, c, swaps) := order2_func data b c swaps in
  let '(a, b, swaps) := order2_func data a b swaps in
  (b, swaps).

(** [medianAdjacent_func(data, a, &swaps)] *)
Definition medianAdjacent_func (data : list A) (a swaps : Z) : Z * Z :=
  median_func data (a - 1) a (a + 1) swaps.

Definition shortestNinther : Z := 50.
Definition maxSwaps : Z := 4 * 3.

(** [choosePivot_func(data, a, b)] *)
Definition choosePivot_func (data : list A) (a b : Z) : Z * sortedHint :=
  let l := b - a in
  let swaps := 0 in
  let i := a + l `quot` 4 * 1 in
  let j := a + l `quot` 4 * 2 in
  let k := a + l `quot` 4 * 3 in
  let '(j, swaps) :=
    if 8 <=? l then
      let '(i, j, k, swaps) :=
        if shortestNinther <=? l then
          let '(i, swaps) := medianAdjacent_func data i swaps in
          let '(j, swaps) := medianAdjacent_func data j swaps in
          let '(k, swaps) := medianAdjacent_func data k swaps in
          (i, j, k, swaps)
        else (i, j, k, swaps) in
      median_func data i j k swaps
    else (j, swaps) in
  if swaps =? 0 then (j, increasingHint)
  else if swaps =? maxSwaps then (j, decreasingHint)
  else (j, unknownHint).

(** [reverseRange_func(data, a, b)], [i] and [j] the loop variables. *)
Fixpoint reverseRange_loop (fuel : nat) (data : list A) (i j : Z) : list A :=
  match fuel with
  | O => data
  | S fuel =>
      if i <? j then reverseRange_loop fuel (Swap data i j) (i + 1) (j - 1)
      else data
  end.

Definition reverseRange_func (data : list A) (a b : Z) : list A :=
  reverseRange_loop (S (length data)) data a (b - 1).

Definition maxInsertion : Z := 12.

(** [pdqsort_func(data, a, b, limit)].  One unit of [fuel] is one turn of
    the [for] loop; the recursive call on the shorter side starts with
    [wasBalanced] and [wasPartitioned] true, the next turn of the loop
    continues on the longer side.  Every turn shortens [data[a:b]], so the
    length of the slice is fuel enough. *)
Fixpoint pdqsort_func (fuel : nat) (data : list A) (a b limit : Z)
    (wasBalanced wasPartitioned : bool) : list A :=
  match fuel with
  | O => data
  | S fuel =>
      let length := b - a in
      if length <=? maxInsertion then insertionSort_func data a b
      else if limit =? 0 then heapSort_func data a b
      else
        let '(data, limit) :=
          if negb wasBalanced then (breakPatterns_func data a b, limit - 1)
          else (data, limit) in
        let '(pivot, hint) := choosePivot_func data a b in
        let '(data, pivot, hint) :=
          match hint with
          | decreasingHint =>
              (reverseRange_func data a b, (b - 1) - (pivot - a),
               increasingHint)
          | _ => (data, pivot, hint)
          end in
        let '(data, sorted) :=
          match hint with
          | increasingHint =>
              if wasBalanced && wasPartitioned
              then partialInsertionSort_func data a b
              else (data, false)
          | _ => (data, false)
          end in
        if sorted then data
        else if (0 <? a) && negb (Less data (a - 1) pivot) then
          let '(data, mid) := partitionEqual_func data a b pivot in
          pdqsort_func fuel data mid b limit wasBalanced wasPartitioned
        else
          let '(data, mid, alreadyPartitioned) :=
            partition_func data a b pivot in
          let leftLen := mid - a in
          let rightLen := b - mid in
          let balanceThreshold := length `quot` 8 in
          if leftLen <? rightLen then
            let data := pdqsort_func fuel data a mid limit true true in
            pdqsort_func fuel data (mid + 1) b limit
              (balanceThreshold <=? leftLen) alreadyPartitioned
          else
            let data := pdqsort_func fuel data (mid + 1) b limit true true in
            pdqsort_func fuel data a mid limit
              (balanceThreshold <=? rightLen) alreadyPartitioned
  end.

(** [sort.Slice(x, less)] *)
Definition Slice (x : list A) : list A :=
  let length := len x in
  let limit := bits_Len length in
  pdqsort_func (S (List.length x)) x 0 length limit true true.

End Variants.
End sort.

(** [sort.Slice] as the sorting function of the board. *)
Definition librarySorter : SliceSorter := {| sortSlice := @sort.Slice |}.

(** ** board.go *)

Record Board : Type := mkBoard {
  Flights : list nat;
  CurrentPage : Z;
  TotalPages : Z;
  AirportCode : gostring;
  AirportTZ : option Location;
  FlightsPerPage : Z;
  Error : gostring;
  Styles : SplitFlapStyles
}.

(** The program state the board lives in: the rows behind the
    [*FlightRow] pointers, the flight slices behind the [*models.Flight]
    pointers, and the one board. *)
Record Store : Type := mkStore {
  rowHeap : list FlightRow;
  sliceHeap : list (list Flight);
  board : Board
}.

Definition setBoard (st : Store) (b : Board) : Store :=
  {| rowHeap := rowHeap st; sliceHeap := sliceHeap st; board := b |}.

Definition derefFlight (slices : list (list Flight)) (ptr : FlightPtr)
    : option Flight :=
  l ← slices !! ptr.1; l !! ptr.2.

Definition NewBoard (styles : SplitFlapStyles) (airportCode : gostring)
    (airportTZ : option Location) (flightsPerPage : Z) : Board :=
  {| Flights := []; CurrentPage := 0; TotalPages := 1;
     AirportCode := airportCode; AirportTZ := airportTZ;
     FlightsPerPage := flightsPerPage; Error := []; Styles := styles |}.

(** The body of the first loop of [UpdateFlights] for one element. *)
Definition convertFlight (tz : option Location) (f : Flight) : Flight :=
  match tz with
  | None => f
  | Some tz =>
      let scheduled := In_ (ScheduledDeparture f) tz in
      match EstimatedDeparture f with
      | None =>
          {| Status := Status f; AirlineCode := AirlineCode f;
             AirlineName := AirlineName f; FlightNumber := FlightNumber f;
             DestinationCode := DestinationCode f;
             DestinationCity := DestinationCity f; Gate := Gate f;
             Remarks := Remarks f; ScheduledDeparture := scheduled;
             EstimatedDeparture := None |}
      | Some est =>
          let localEst := In_ est tz in
          {| Status := Status f; AirlineCode := AirlineCode f;
             AirlineName := AirlineName f; FlightNumber := FlightNumber f;
             DestinationCode := DestinationCode f;
             DestinationCity := DestinationCity f; Gate := Gate f;
             Remarks := if Status f =? StatusDelayed
                        then str "Delayed EST: " ++ Format1504 localEst
                        else Remarks f;
             ScheduledDeparture := scheduled;
             EstimatedDeparture := Some localEst |}
      end
  end.

(** The comparison handed to [sort.Slice]. *)
Definition lessDeparture (a b : Flight) : bool :=
  Before (ScheduledDeparture a) (ScheduledDeparture b).

(** "Create a map of existing flights by flight number". *)
Fixpoint existingMapLoop (rows : list FlightRow) (slices : list (list Flight))
    (ptrs : list nat) (existingMap : gmap (list ascii) nat)
    : option (gmap (list ascii) nat) :=
  match ptrs with
  | [] => Some existingMap
  | p :: rest =>
      row ← rows !! p;
      match Flight_ row with
      | None => existingMapLoop rows slices rest existingMap
      | Some ptr =>
          flight ← derefFlight slices ptr;
          existingMapLoop rows slices rest
            (<[FlightNumber flight := p]> existingMap)
      end
  end.

(** "Update or create flight rows": [flights] are the elements from index
    [i] on of the slice at address [a]. *)
Fixpoint rowsLoop (a : nat) (existingMap : gmap (list ascii) nat)
    (clk : nat -> RowClock) (i : nat) (flights : list Flight)
    (rows : list FlightRow) (newRows : list nat)
    : option (list FlightRow * list nat) :=
  match flights with
  | [] => Some (rows, newRows)
  | flight :: rest =>
      match existingMap !! FlightNumber flight with
      | Some p =>
          existingRow ← rows !! p;
          row ← FlightRow_Update existingRow (a, i) flight (clk i);
          rowsLoop a existingMap clk (S i) rest (<[p := row]> rows)
            (newRows ++ [p])
      | None =>
          row ← NewFlightRow (Some ((a, i), flight)) (clk i);
          rowsLoop a existingMap clk (S i) rest (rows ++ [row])
            (newRows ++ [length rows])
      end
  end.

Definition effectivePerPage (b : Board) : Z :=
  if FlightsPerPage b <=? 0 then 10 else FlightsPerPage b.

Definition updatePagination (b : Board) : Board :=
  let flightsPerPage := effectivePerPage b in
  let totalFlights := len (Flights b) in
  if totalFlights =? 0 then
    {| Flights := Flights b; CurrentPage := 0; TotalPages := 1;
       AirportCode := AirportCode b; AirportTZ := AirportTZ b;
       FlightsPerPage := FlightsPerPage b; Error := Error b;
       Styles := Styles b |}
  else
    let totalPages :=
      Z.quot (wrap64 (wrap64 (totalFlights + flightsPerPage) - 1))
        flightsPerPage in
    let currentPage :=
      if totalPages <=? CurrentPage b then wrap64 (totalPages - 1)
      else CurrentPage b in
    let currentPage := if currentPage <? 0 then 0 else currentPage in
    {| Flights := Flights b; CurrentPage := currentPage;
       TotalPages := totalPages;
       AirportCode := AirportCode b; AirportTZ := AirportTZ b;
       FlightsPerPage := FlightsPerPage b; Error := Error b;
       Styles := Styles b |}.

Definition setFlights (b : Board) (rows : list nat) : Board :=
  {| Flights := rows; CurrentPage := CurrentPage b;
     TotalPages := TotalPages b;
     AirportCode := AirportCode b; AirportTZ := AirportTZ b;
     FlightsPerPage := FlightsPerPage b; Error := Error b;
     Styles := Styles b |}.

Definition setCurrentPage (b : Board) (page : Z) : Board :=
  {| Flights := Flights b; CurrentPage := page;
     TotalPages := TotalPages b;
     AirportCode := AirportCode b; AirportTZ := AirportTZ b;
     FlightsPerPage := FlightsPerPage b; Error := Error b;
     Styles := Styles b |}.

Definition setError (b : Board) (e : gostring) : Board :=
  {| Flights := Flights b; CurrentPage := CurrentPage b;
     TotalPages := TotalPages b;
     AirportCode := AirportCode b; AirportTZ := AirportTZ b;
     FlightsPerPage := FlightsPerPage b; Error := e;
     Styles := Styles b |}.

(** [(b *Board) UpdateFlights(flights)], [flights] being the slice stored
    at address [a]; [clk i] are the clocks of the row of element [i]. *)
Definition UpdateFlights `{SliceSorter} (st : Store) (a : nat)
    (clk : nat -> RowClock) : option Store :=
  flights ← sliceHeap st !! a;
  let converted := convertFlight (AirportTZ (board st)) <$> flights in
  let sorted := sortSlice lessDeparture converted in
  let slices := <[a := sorted]> (sliceHeap st) in
  existingMap ← existingMapLoop (rowHeap st) slices (Flights (board st)) ∅;
  '(rows, newRows) ← rowsLoop a existingMap clk 0 sorted (rowHeap st) [];
  Some {| rowHeap := rows; sliceHeap := slices;
          board := updatePagination (setFlights (board st) newRows) |}.

(** [(b *Board) NextPage()]; the remainder panics on a zero divisor. *)
Definition NextPage (b : Board) : option Board :=
  let b1 := updatePagination b in
  if TotalPages b1 =? 0 then None
  else Some (setCurrentPage b1
               (Z.rem (wrap64 (CurrentPage b1 + 1)) (TotalPages b1))).

(** [l[lo:hi]]; out of range panics. *)
Definition sliceRange {A : Type} (l : list A) (lo hi : Z) : option (list A) :=
  if (lo <? 0) || (hi <? lo) || (len l <? hi) then None
  else Some (take (Z.to_nat (hi - lo)) (drop (Z.to_nat lo) l)).

(** [copy(dst, src)]: as many elements as both slices have. *)
Definition copyInto {A : Type} (dst src : list A) : list A :=
  take (length dst) src ++ drop (length src) dst.

(** [NewFlightRow(nil)] reads no clock. *)
Definition noClock : RowClock :=
  {| ckStatus := fun _ => 0; ckFlightNum := fun _ => 0; ckTime := fun _ => 0;
     ckDestination := fun _ => 0; ckGate := fun _ => 0;
     ckRemarks := fun _ => 0 |}.

(** "Fill remaining slots with empty rows": [n] iterations from index [i]. *)
Fixpoint fillLoop (i : Z) (n : nat) (rows : list FlightRow)
    (result : list (option nat))
    : option (list FlightRow * list (option nat)) :=
  match n with
  | O => Some (rows, result)
  | S n' =>
      row ← NewFlightRow None noClock;
      if (0 <=? i) && (i <? len result)
      then fillLoop (i + 1) n' (rows ++ [row])
             (<[Z.to_nat i := Some (length rows)]> result)
      else None
  end.

(** "Copy actual flights": the number of rows copied and the page. *)
Definition copyActual (flights : list nat) (start end_ : Z)
    (result : list (option nat)) : option (Z * list (option nat)) :=
  let total := len flights in
  let actualEnd :=
    if total <=? start then start
    else if total <? end_ then total else end_ in
  if start <? total then
    src ← sliceRange flights start actualEnd;
    Some (wrap64 (actualEnd - start), copyInto result (Some <$> src))
  else Some (0, result).

(** [(b *Board) GetCurrentPageFlights()]: the page as a slice of row
    pointers ([None] is a nil pointer), and the store with the filler rows
    that the call allocated. *)
Definition GetCurrentPageFlights (st : Store)
    : option (Store * list (option nat)) :=
  let b := board st in
  let flightsPerPage := effectivePerPage b in
  let start := wrap64 (CurrentPage b * flightsPerPage) in
  let end_ := wrap64 (start + flightsPerPage) in
  let result := replicate (Z.to_nat flightsPerPage) (@None nat) in
  '(copyCount, result) ← copyActual (Flights b) start end_ result;
  '(rows, result) ←
    fillLoop copyCount (Z.to_nat (flightsPerPage - copyCount))
      (rowHeap st) result;
  Some ({| rowHeap := rows; sliceHeap := sliceHeap st; board := b |}, result).

(** [(b *Board) Tick()]; [clk i] are the clocks of the [i]-th entry. *)
Fixpoint tickLoop (clk : nat -> RowClock) (i : nat) (ptrs : list nat)
    (rows : list FlightRow) : option (list FlightRow) :=
  match ptrs with
  | [] => Some rows
  | p :: rest =>
      row ← rows !! p;
      tickLoop clk (S i) rest (<[p := FlightRow_Tick row (clk i)]> rows)
  end.

Definition Board_Tick (st : Store) (clk : nat -> RowClock) : option Store :=
  rows ← tickLoop clk 0 (Flights (board st)) (rowHeap st);
  Some {| rowHeap := rows; sliceHeap := sliceHeap st; board := board st |}.

Definition SetAirport (b : Board) (airportCode : gostring)
    (airportTZ : option Location) : Board :=
  {| Flights := Flights b; CurrentPage := 0; TotalPages := TotalPages b;
     AirportCode := airportCode; AirportTZ := airportTZ;
     FlightsPerPage := FlightsPerPage b; Error := Error b;
     Styles := Styles b |}.

Definition SetFlightsPerPage (b : Board) (flightsPerPage : Z) : Board :=
  {| Flights := Flights b; CurrentPage := CurrentPage b;
     TotalPages := TotalPages b;
     AirportCode := AirportCode b; AirportTZ := AirportTZ b;
     FlightsPerPage := flightsPerPage; Error := Error b;
     Styles := Styles b |}.

(** [fmt.Sprintf("%-Ns", s)] *)
Definition padRight (n : nat) (s : gostring) : gostring :=
  s ++ replicate (n - length s) space.

(** [fmt.Sprintf("%d", z)] *)
Definition itoa (z : Z) : gostring :=
  str (DecimalString.NilZero.string_of_int (Z.to_int z)).

Definition renderAirportHeader (b : Board) : gostring :=
  AirportLabel (Styles b) (str "DEPARTURES - " ++ AirportCode b).

Definition renderHeader (b : Board) : gostring :=
  let h := Header (Styles b) in
  joinSpaces [h (str "S"); h (padRight 8 (str "FLIGHT"));
              h (padRight 8 (str "TIME")); h (padRight 20 (str "DESTINATION"));
              h (padRight 6 (str "GATE")); h (padRight 20 (str "REMARKS"))].

Definition renderPageInfo (b : Board) : gostring :=
  if TotalPages b <=? 1 then []
  else
    let totalFlights := len (Flights b) in
    let flightsPerPage := effectivePerPage b in
    let start := wrap64 (wrap64 (CurrentPage b * flightsPerPage) + 1) in
    let end_ := wrap64 (wrap64 (CurrentPage b + 1) * flightsPerPage) in
    let end_ := if totalFlights <? end_ then totalFlights else end_ in
    PageInfo (Styles b)
      (str "Page " ++ itoa (wrap64 (CurrentPage b + 1)) ++ str "/" ++
       itoa (TotalPages b) ++ str " (" ++ itoa start ++ str "-" ++
       itoa end_ ++ str " of " ++ itoa totalFlights ++ str ")").

(** The row lines of [Render]: a nil entry of the page is skipped. *)
Fixpoint renderRows (st : Store) (page : list (option nat))
    : option (list gostring) :=
  match page with
  | [] => Some []
  | None :: rest => renderRows st rest
  | Some p :: rest =>
      row ← rowHeap st !! p;
      rowStr ← FlightRow_Render (derefFlight (sliceHeap st)) row
                  (Styles (board st));
      (rowStr ::.) <$> renderRows st rest
  end.

(** "Error message if any": the section appended when [b.Error != ""]. *)
Definition errorBanner (b : Board) : list gostring :=
  if decide (Error b = []) then []
  else [Error_ (Styles b) (str "ERROR: " ++ Error b)].

(** The [sections] that [(b *Board) Render()] joins, top to bottom. *)
Definition Board_sections (st : Store) : option (list gostring) :=
  let b := board st in
  '(st', pageFlights) ← GetCurrentPageFlights st;
  rows ← renderRows st' pageFlights;
  Some ([renderAirportHeader b] ++ errorBanner b ++ [renderHeader b] ++
        rows ++ [renderPageInfo b]).

(** [(b *Board) Render()]; [JoinVertical] is lipgloss's
    [JoinVertical(lipgloss.Left, ...)]. *)
Definition Board_Render (JoinVertical : list gostring -> gostring)
    (st : Store) : option gostring :=
  sections ← Board_sections st;
  Some (Background (Styles (board st)) (JoinVertical sections)).

(** ** main.go: the reaction to a finished fetch *)

Record model : Type := mkModel {
  loading : bool;
  err : option gostring
}.

(** A [flightsMsg]: the address of the fetched slice and the error of the
    fetch (its message), if any. *)
Record flightsMsg : Type := mkFlightsMsg {
  msg_flights : nat;
  msg_err : option gostring
}.

(** The [case flightsMsg:] branch of [model.Update]. *)
Definition Update_flightsMsg `{SliceSorter} (m : model) (st : Store)
    (msg : flightsMsg) (clk : nat -> RowClock) : option (model * Store) :=
  match msg_err msg with
  | Some e =>
      Some ({| loading := false; err := Some e |},
            setBoard st (setError (board st) e))
  | None =>
      st' ← UpdateFlights (setBoard st (setError (board st) []))
               (msg_flights msg) clk;
      Some ({| loading := false; err := err m |}, st')
  end.

(** ** Bytes of ASCII *)

(** A byte below 0x80, a character of its own in UTF-8. *)
Definition isASCII (b : ascii) : bool := runeOfByte b <? 128.

(** ** models/flight.go: the names of the statuses *)

(** [(s FlightStatus) String()] *)
Definition FlightStatus_String (s : FlightStatus) : gostring :=
  match s with
  | 0 => str "On Time"
  | 1 => str "Delayed"
  | 2 => str "Taxiing / Left Gate"
  | 3 => str "Taxiing / Delayed"
  | 4 => str "Cancelled"
  | _ => str "Unknown"
  end.

Definition RemarksOnTime : gostring := str "On Time".
Definition RemarksDelayed : gostring := str "Delayed".
Definition RemarksTaxiingLeftGate : gostring := str "Taxiing / Left Gate".
Definition RemarksTaxiingDelayed : gostring := str "Taxiing / Delayed".
Definition RemarksCancelled : gostring := str "Cancelled".

(** ** More of the [time] package *)

(** The zero [time.Time], January 1 of the year 1, 00:00:00 UTC, lies
    62135596800 seconds before the Unix epoch. *)
Definition zeroTime : Time :=
  {| unixNano := -62135596800 * 1000000000; location := UTC |}.

(** [t.IsZero()] *)
Definition IsZero (t : Time) : bool := unixNano t =? unixNano zeroTime.

(** [t.After(u)] *)
Definition After (t u : Time) : bool := unixNano u <? unixNano t.

(** [t.Add(d)], for a duration [d] in nanoseconds. *)
Definition Add (t : Time) (d : Z) : Time :=
  {| unixNano := unixNano t + d; location := location t |}.

Definition Hour : Z := 3600 * 1000000000.

(** ** api/flightaware.go: from the decoded response to the flights *)

Record Airport : Type := mkAirport {
  Code : gostring;
  CodeIata : gostring;
  CodeIcao : gostring;
  City : gostring
}.

Record TimeInfo : Type := mkTimeInfo {
  Scheduled : Time;
  Estimated : Time;
  Actual : Time
}.

(** The fields [FlightNumber], [Status], [Gate] and [Remarks] of the Go
    struct carry the prefix [dep_] here. *)
Record AeroAPIDeparture : Type := mkAeroAPIDeparture {
  Ident : gostring;
  FaFlightID : gostring;
  Operator : gostring;
  OperatorIata : gostring;
  dep_FlightNumber : gostring;
  Origin : option Airport;
  Destination : option Airport;
  Departure : option TimeInfo;
  ScheduledOut : option Time;
  EstimatedOut : option Time;
  ActualOut : option Time;
  dep_Status : gostring;
  dep_Gate : gostring;
  BaggageClaim : gostring;
  dep_Remarks : gostring
}.

(** [p != nil && !p.IsZero()] for a [*time.Time]. *)
Definition present (t : option Time) : bool :=
  match t with
  | Some t => negb (IsZero t)
  | None => false
  end.

(** "Check if there's an estimated departure time" of the delayed case. *)
Definition estimatedOf (dep : AeroAPIDeparture) : option Time :=
  if present (EstimatedOut dep) then EstimatedOut dep
  else if present (Estimated <$> Departure dep)
  then Estimated <$> Departure dep
  else None.

(** [(c *FlightAwareClient) convertToFlight(dep, scheduled)] *)
Definition convertToFlight (dep : AeroAPIDeparture) (scheduled : Time)
    : Flight :=
  let airlineCode :=
    if decide (OperatorIata dep = []) then Operator dep
    else OperatorIata dep in
  let airlineName :=
    if decide (Operator dep = []) then OperatorIata dep else Operator dep in
  let airlineName :=
    if decide (airlineName = []) then str "UNK" else airlineName in
  let flightNumber :=
    if decide (dep_FlightNumber dep = []) then Ident dep
    else dep_FlightNumber dep in
  let fullFlightNumber := airlineCode ++ str " " ++ flightNumber in
  let destinationCode :=
    match Destination dep with
    | Some d => if decide (CodeIata d = []) then Code d else CodeIata d
    | None => []
    end in
  let destinationCity :=
    match Destination dep with
    | Some d => City d
    | None => []
    end in
  let status := dep_Status dep in
  let remarks := dep_Remarks dep in
  let flight (st : FlightStatus) (rem : gostring) (est : option Time) :=
    {| Status := st; AirlineCode := airlineCode; AirlineName := airlineName;
       FlightNumber := fullFlightNumber; DestinationCode := destinationCode;
       DestinationCity := destinationCity; Gate := dep_Gate dep;
       Remarks := rem; ScheduledDeparture := scheduled;
       EstimatedDeparture := est |} in
  if bool_decide (status = str "Cancelled") ||
     bool_decide (remarks = str "Cancelled")
  then flight StatusCancelled RemarksCancelled None
  else if bool_decide (status = str "Taxiing / Delayed") ||
          bool_decide (remarks = str "Taxiing / Delayed")
  then flight StatusTaxiingDelayed RemarksTaxiingDelayed None
  else if bool_decide (status = str "Taxiing / Left Gate") ||
          bool_decide (remarks = str "Taxiing / Left Gate")
  then flight StatusTaxiingLeftGate RemarksTaxiingLeftGate None
  else if bool_decide (status = str "Scheduled / Delayed") ||
          bool_decide (status = str "Delayed") ||
          bool_decide (remarks = str "Delayed")
  then flight StatusDelayed RemarksDelayed (estimatedOf dep)
  else flight StatusOnTime RemarksOnTime None.

(** "Try to get scheduled time from various possible fields": the time
    found, [None] when [hasScheduled] stays false. *)
Definition scheduledOf (dep : AeroAPIDeparture) : option Time :=
  if present (Scheduled <$> Departure dep) then Scheduled <$> Departure dep
  else if present (ScheduledOut dep) then ScheduledOut dep
  else if present (EstimatedOut dep) then EstimatedOut dep
  else None.

Definition maxFlights : Z := 50.

(** The loop "Filter and convert to our Flight model" of [GetDepartures]
    over the departures that are left, [flights] being the slice built so
    far. *)
Fixpoint departuresLoop (cutoffTime : option Time)
    (deps : list AeroAPIDeparture) (flights : list Flight) : list Flight :=
  match deps with
  | [] => flights
  | dep :: rest =>
      if maxFlights <=? len flights then flights
      else
        match scheduledOf dep with
        | None => departuresLoop cutoffTime rest flights
        | Some scheduled =>
            if IsZero scheduled then departuresLoop cutoffTime rest flights
            else if match cutoffTime with
                    | Some ct => After scheduled ct
                    | None => false
                    end
            then departuresLoop cutoffTime rest flights
            else departuresLoop cutoffTime rest
                   (flights ++ [convertToFlight dep scheduled])
        end
  end.

(** What [GetDepartures] returns for a response that decoded to [deps],
    the clock reading [now] when the filtering starts. *)
Definition filterDepartures (now : Time) (hours : Z)
    (deps : list AeroAPIDeparture) : list Flight :=
  let cutoffTime :=
    if 0 <? hours then Some (Add now (wrap64 (hours * Hour))) else None in
  departuresLoop cutoffTime deps [].

(** ** api/timezone.go *)

(** The literal [timezoneMap]: airport code to IANA zone name. *)
Definition timezoneEntries : list (string * string) :=
  [
   ("JFK", "America/New_York"); ("LGA", "America/New_York");
   ("EWR", "America/New_York"); ("BOS", "America/New_York");
   ("MIA", "America/New_York"); ("ATL", "America/New_York");
   ("CLT", "America/New_York"); ("DCA", "America/New_York");
   ("IAD", "America/New_York"); ("PHL", "America/New_York");
   ("BWI", "America/New_York"); ("ORD", "America/Chicago");
   ("MDW", "America/Chicago"); ("DFW", "America/Chicago");
   ("IAH", "America/Chicago"); ("MSP", "America/Chicago");
   ("STL", "America/Chicago"); ("DTW", "America/Detroit");
   ("CLE", "America/New_York"); ("DEN", "America/Denver");
   ("PHX", "America/Phoenix"); ("SLC", "America/Denver");
   ("LAX", "America/Los_Angeles"); ("SFO", "America/Los_Angeles");
   ("SAN", "America/Los_Angeles"); ("SEA", "America/Los_Angeles");
   ("PDX", "America/Los_Angeles"); ("LAS", "America/Los_Angeles");
   ("LHR", "Europe/London"); ("LGW", "Europe/London");
   ("CDG", "Europe/Paris"); ("FRA", "Europe/Berlin");
   ("AMS", "Europe/Amsterdam"); ("MAD", "Europe/Madrid");
   ("FCO", "Europe/Rome"); ("ZUR", "Europe/Zurich");
   ("VIE", "Europe/Vienna"); ("CPH", "Europe/Copenhagen");
   ("ARN", "Europe/Stockholm"); ("OSL", "Europe/Oslo");
   ("HEL", "Europe/Helsinki"); ("DUB", "Europe/Dublin");
   ("BRU", "Europe/Brussels"); ("NRT", "Asia/Tokyo"); ("HND", "Asia/Tokyo");
   ("ICN", "Asia/Seoul"); ("PEK", "Asia/Shanghai"); ("PVG", "Asia/Shanghai");
   ("HKG", "Asia/Hong_Kong"); ("SIN", "Asia/Singapore");
   ("BKK", "Asia/Bangkok"); ("DXB", "Asia/Dubai"); ("AUH", "Asia/Dubai");
   ("IST", "Europe/Istanbul"); ("TLV", "Asia/Jerusalem");
   ("CAI", "Africa/Cairo"); ("JED", "Asia/Riyadh"); ("RUH", "Asia/Riyadh");
   ("SYD", "Australia/Sydney"); ("MEL", "Australia/Melbourne");
   ("BNE", "Australia/Brisbane"); ("PER", "Australia/Perth");
   ("YYZ", "America/Toronto"); ("YVR", "America/Vancouver");
   ("YUL", "America/Toronto"); ("YYC", "America/Edmonton");
   ("GRU", "America/Sao_Paulo"); ("GIG", "America/Sao_Paulo");
   ("EZE", "America/Argentina/Buenos_Aires"); ("SCL", "America/Santiago");
   ("LIM", "America/Lima"); ("BOG", "America/Bogota");
   ("MEX", "America/Mexico_City")
  ].

Definition timezoneMap : gmap (list ascii) (list ascii) :=
  list_to_map ((fun entry => (str entry.1, str entry.2)) <$> timezoneEntries).

(** [GetAirportTimezone(airportCode)].  [LoadLocation] is
    [time.LoadLocation], which looks the zone up in the time zone database
    of the machine; [None] is its error.  The result is never nil. *)
Definition GetAirportTimezone (LoadLocation : gostring -> option Location)
    (airportCode : gostring) : Location :=
  match timezoneMap !! airportCode with
  | Some tzName =>
      match LoadLocation tzName with
      | Some loc => loc
      | None => UTC
      end
  | None => UTC
  end.

(** ** api/flightaware.go: the client *)

Definition flightAwareBaseURL : gostring :=
  str "https://aeroapi.flightaware.com/aeroapi".

Definition Second : Z := 1000 * millisecond.
Definition Minute : Z := 60 * Second.

(** The [http.Client] of the Go struct is its [Timeout]. *)
Record FlightAwareClient : Type := mkFlightAwareClient {
  client_APIKey : gostring;
  BaseURL : gostring;
  Timeout : Z
}.

Definition NewFlightAwareClient (apiKey : gostring) : FlightAwareClient :=
  {| client_APIKey := apiKey; BaseURL := flightAwareBaseURL;
     Timeout := 30 * Second |}.

(** ** [strconv.Atoi] and the ASCII part of [strings] *)

Definition isDigit (b : ascii) : bool :=
  (48 <=? runeOfByte b) && (runeOfByte b <=? 57).

(** The value of a string of decimal digits. *)
Definition digitsValue (digits : gostring) : Z :=
  fold_left (fun n b => 10 * n + (runeOfByte b - 48)) digits 0.

(** [strconv.Atoi(s)]: an optional sign and one or more decimal digits,
    the value within the range of [int]; [None] is its error. *)
Definition Atoi (s : gostring) : option Z :=
  let '(negative, digits) :=
    match s with
    | b :: rest =>
        if bool_decide (b = "-"%char) then (true, rest)
        else if bool_decide (b = "+"%char) then (false, rest)
        else (false, s)
    | [] => (false, [])
    end in
  if bool_decide (digits = []) || negb (forallb isDigit digits) then None
  else
    let n := if negative then - digitsValue digits else digitsValue digits in
    if (minInt64 <=? n) && (n <=? maxInt64) then Some n else None.

Definition isLower (b : ascii) : bool :=
  (97 <=? runeOfByte b) && (runeOfByte b <=? 122).

Definition isUpper (b : ascii) : bool :=
  (65 <=? runeOfByte b) && (runeOfByte b <=? 90).

Definition upperByte (b : ascii) : ascii :=
  if isLower b then byteOfZ (runeOfByte b - 32) else b.

(** [strings.ToUpper(s)].  A string of ASCII bytes is mapped byte by
    byte; for any other string the result is the Unicode mapping of the
    library, [ToUpperUnicode]. *)
Definition ToUpper (ToUpperUnicode : gostring -> gostring) (s : gostring)
    : gostring :=
  if forallb isASCII s then upperByte <$> s else ToUpperUnicode s.

(** The white space of ASCII: tab, line feed, vertical tab, form feed,
    carriage return and the blank. *)
Definition asciiSpace (b : ascii) : bool :=
  let r := runeOfByte b in ((9 <=? r) && (r <=? 13)) || (r =? 32).

Fixpoint trimLeft (s : gostring) : gostring :=
  match s with
  | b :: rest => if asciiSpace b then trimLeft rest else s
  | [] => []
  end.

(** [strings.TrimSpace(s)].  A string of ASCII bytes loses the ASCII white
    space at both ends; for any other string the result is that of the
    library, [TrimSpaceUnicode]. *)
Definition TrimSpace (TrimSpaceUnicode : gostring -> gostring) (s : gostring)
    : gostring :=
  if forallb isASCII s then reverse (trimLeft (reverse (trimLeft s)))
  else TrimSpaceUnicode s.

(** ** config/config.go *)

(** The fields [AirportCode] and [FlightsPerPage] of the Go struct carry
    the prefix [cfg_] here; durations are in nanoseconds. *)
Record Config : Type := mkConfig {
  APIKey : gostring;
  cfg_AirportCode : gostring;
  UpdateInterval : Z;
  LookaheadHours : Z;
  TotalFlights : Z;
  cfg_FlightsPerPage : Z;
  MaxPages : Z;
  PageRotationInterval : Z;
  CharAnimationSpeed : Z
}.

(** [getEnv(key, defaultValue)]; [Getenv] is [os.Getenv], the empty string
    for a variable that is not set. *)
Definition getEnv (Getenv : gostring -> gostring) (key defaultValue : gostring)
    : gostring :=
  if decide (Getenv key = []) then defaultValue else Getenv key.

(** [LoadConfig()]; [ParseDuration] is [time.ParseDuration], [None] its
    error. *)
Definition LoadConfig (Getenv : gostring -> gostring)
    (ParseDuration : gostring -> option Z) : Config :=
  let updateInterval :=
    if decide (Getenv (str "UPDATE_INTERVAL") = []) then 10 * Minute
    else match ParseDuration (Getenv (str "UPDATE_INTERVAL")) with
         | Some d => d
         | None => 10 * Minute
         end in
  let pageRotationInterval :=
    if decide (Getenv (str "PAGE_ROTATION_INTERVAL") = []) then 15 * Second
    else match ParseDuration (Getenv (str "PAGE_ROTATION_INTERVAL")) with
         | Some d => d
         | None => 15 * Second
         end in
  let maxPages :=
    if decide (Getenv (str "MAX_PAGES") = []) then 3
    else match Atoi (Getenv (str "MAX_PAGES")) with
         | Some pages => if 0 <? pages then pages else 3
         | None => 3
         end in
  {| APIKey := getEnv Getenv (str "FLIGHTAWARE_API_KEY") [];
     cfg_AirportCode := getEnv Getenv (str "AIRPORT_CODE") [];
     UpdateInterval := updateInterval;
     LookaheadHours := 6;
     TotalFlights := 50;
     cfg_FlightsPerPage := 15;
     MaxPages := maxPages;
     PageRotationInterval := pageRotationInterval;
     CharAnimationSpeed := 250 * millisecond |}.

(** ** main.go: the whole program

    The program state is the [model] of main.go together with the store
    that holds the board it points to.  What the embedding takes from
    outside are the time zone database ([LoadLocation]), the Unicode parts
    of [strings.ToUpper] and [strings.TrimSpace], lipgloss's styles and
    [JoinVertical], the environment and [time.ParseDuration]. *)

Definition newline : ascii := "010"%char.

Module main.

(** The struct [model] without its [board] pointer: the board is the board
    of the store. *)
Record model : Type := mkModel {
  apiClient : FlightAwareClient;
  cfg : Config;
  airportCode : gostring;
  loading : bool;
  err : option gostring;
  inputMode : bool;
  airportInput : gostring
}.

(** The messages of [Update].  A [tea.KeyMsg] is the name of its key
    ([msg.String()]); an [error] is its message, [None] the nil error; the
    flights of a [flightsMsg] are the address of the slice. *)
Inductive Msg : Type :=
  | KeyMsg (key : gostring)
  | errMsg (e : option gostring)
  | flightsMsg (flights : nat) (e : option gostring)
  | tickAPIMsg
  | tickPageRotationMsg
  | tickAnimationMsg
  | otherMsg.

(** The commands that [Init] and [Update] return. *)
#[local] Set Warnings "-register-all".
Inductive Cmd : Type :=
  | nilCmd
  | Quit
  | Batch (cmds : list Cmd)
  | fetchFlights (client : FlightAwareClient) (airportCode : gostring)
      (hours maxPages : Z)
  | tickAPI (duration : Z)
  | tickPageRotation (duration : Z)
  | tickAnimation (duration : Z).

Definition setInput (m : model) (inputMode : bool) (airportInput : gostring)
    : model :=
  {| apiClient := apiClient m; cfg := cfg m; airportCode := airportCode m;
     loading := loading m; err := err m; inputMode := inputMode;
     airportInput := airportInput |}.

Definition setLoading (m : model) (loading : bool) (err : option gostring)
    : model :=
  {| apiClient := apiClient m; cfg := cfg m; airportCode := airportCode m;
     loading := loading; err := err; inputMode := inputMode m;
     airportInput := airportInput m |}.

(** [for _, r := range code { if r < 'A' || r > 'Z' { ... } }] finds no
    character outside 'A'..'Z'.  The loop decodes characters, the check
    here reads bytes: a byte outside 'A'..'Z' is, or is part of, a
    character outside 'A'..'Z', and a byte within is a character. *)
Definition lettersOnly (code : gostring) : bool := forallb isUpper code.

Section Program.
Context (LoadLocation : gostring -> option Location).
Context (ToUpperUnicode TrimSpaceUnicode : gostring -> gostring).
Context (styles : SplitFlapStyles).
Context (JoinVertical : list gostring -> gostring).
Context {sorter : SliceSorter}.

Definition initialModel (airportCode : gostring) (cfg : Config)
    : model * Store :=
  let apiClient := NewFlightAwareClient (APIKey cfg) in
  let airportTZ := GetAirportTimezone LoadLocation airportCode in
  let board :=
    NewBoard styles airportCode (Some airportTZ) (cfg_FlightsPerPage cfg) in
  ({| apiClient := apiClient; cfg := cfg; airportCode := airportCode;
      loading := true; err := None; inputMode := false;
      airportInput := [] |},
   {| rowHeap := []; sliceHeap := []; board := board |}).

Definition Init (m : model) : Cmd :=
  Batch [fetchFlights (apiClient m) (airportCode m) (LookaheadHours (cfg m))
           (MaxPages (cfg m));
         tickAPI (UpdateInterval (cfg m));
         tickPageRotation (PageRotationInterval (cfg m));
         tickAnimation (CharAnimationSpeed (cfg m))].

(** The branch [case "enter":] of the input mode. *)
Definition enterKey (m : model) (st : Store) : model * Store * Cmd :=
  let newCode :=
    ToUpper ToUpperUnicode (TrimSpace TrimSpaceUnicode (airportInput m)) in
  if (len newCode =? 3) && lettersOnly newCode then
    let m' :=
      {| apiClient := apiClient m; cfg := cfg m; airportCode := newCode;
         loading := true; err := err m; inputMode := false;
         airportInput := [] |} in
    let airportTZ := GetAirportTimezone LoadLocation newCode in
    let b := setError (board st) [] in
    let b := SetAirport b newCode (Some airportTZ) in
    let b := SetFlightsPerPage b (cfg_FlightsPerPage (cfg m)) in
    (m', setBoard st b,
     fetchFlights (apiClient m) newCode (LookaheadHours (cfg m))
       (MaxPages (cfg m)))
  else (setInput m false [], st, nilCmd).

(** The branch [default:] of the input mode: "Add character if it's a
    letter and we have space". *)
Definition letterKey (m : model) (keyStr : gostring) : model :=
  if len (airportInput m) <? 3 then
    match keyStr with
    | [b] =>
        if isUpper b || isLower b
        then setInput m (inputMode m)
               (airportInput m ++ ToUpper ToUpperUnicode keyStr)
        else m
    | _ => m
    end
  else m.

(** [(m model) Update(msg)]; [clk] are the clock readings of the rows
    that the call updates or ticks. *)
Definition Update (m : model) (st : Store) (msg : Msg)
    (clk : nat -> RowClock) : option (model * Store * Cmd) :=
  match msg with
  | KeyMsg key =>
      if inputMode m then
        if bool_decide (key = str "enter") then Some (enterKey m st)
        else if bool_decide (key = str "esc")
        then Some (setInput m false [], st, nilCmd)
        else if bool_decide (key = str "backspace") then
          if 0 <? len (airportInput m) then
            input ← sliceTo (airportInput m)
                      (wrap64 (len (airportInput m) - 1));
            Some (setInput m (inputMode m) input, st, nilCmd)
          else Some (m, st, nilCmd)
        else Some (letterKey m key, st, nilCmd)
      else
        if bool_decide (key = str "ctrl+c") || bool_decide (key = str "q")
        then Some (m, st, Quit)
        else if bool_decide (key = str "a")
        then Some (setInput m true [], st, nilCmd)
        else Some (m, st, nilCmd)
  | errMsg e =>
      e ← e;
      Some (setLoading m false (Some e), setBoard st (setError (board st) e),
            nilCmd)
  | flightsMsg flights e =>
      match e with
      | Some e =>
          Some (setLoading m false (Some e),
                setBoard st (setError (board st) e), nilCmd)
      | None =>
          st' ← UpdateFlights (H := sorter)
                  (setBoard st (setError (board st) [])) flights clk;
          Some (setLoading m false (err m), st', nilCmd)
      end
  | tickAPIMsg =>
      Some (m, st,
            Batch [fetchFlights (apiClient m) (airportCode m)
                     (LookaheadHours (cfg m)) (MaxPages (cfg m));
                   tickAPI (UpdateInterval (cfg m))])
  | tickPageRotationMsg =>
      b ← NextPage (board st);
      Some (m, setBoard st b, tickPageRotation (PageRotationInterval (cfg m)))
  | tickAnimationMsg =>
      st' ← Board_Tick st clk;
      Some (m, st', tickAnimation (CharAnimationSpeed (cfg m)))
  | otherMsg => Some (m, st, nilCmd)
  end.

(** [(m model) View()] *)
Definition View (m : model) (st : Store) : option gostring :=
  if inputMode m then
    rendered ← Board_Render JoinVertical st;
    Some (str "Enter airport code (3 letters): " ++ airportInput m ++
          str "_" ++ [newline; newline] ++ rendered)
  else if loading m && (len (Flights (board st)) =? 0)
  then Some (str "Loading flights..." ++ [newline])
  else
    view ← Board_Render JoinVertical st;
    Some (if negb (inputMode m)
          then view ++ newline ::
               str "Press 'a' to change airport | 'q' to quit"
          else view).

(** [main()] up to the start of the program: the message written to the
    standard error stream before [os.Exit(1)], or the model that
    [tea.NewProgram] is given.  [flagAirport] is the value of the flag
    [-airport]. *)
Definition start (Getenv : gostring -> gostring)
    (ParseDuration : gostring -> option Z) (flagAirport : gostring)
    : gostring + model * Store :=
  let cfg := LoadConfig Getenv ParseDuration in
  let airportCode :=
    if decide (flagAirport = []) then cfg_AirportCode cfg else flagAirport in
  if decide (airportCode = []) then
    inl (str "Error: Airport code required. Use -airport flag or set AIRPORT_CODE environment variable." ++
         [newline])
  else
    let airportCode :=
      ToUpper ToUpperUnicode (TrimSpace TrimSpaceUnicode airportCode) in
    if negb (len airportCode =? 3) then
      inl (str "Error: Airport code must be 3 letters (e.g., JFK, LAX). Got: " ++
           airportCode ++ [newline])
    else if negb (lettersOnly airportCode) then
      inl (str "Error: Airport code must contain only letters (e.g., JFK, LAX). Got: " ++
           airportCode ++ [newline])
    else if decide (APIKey cfg = []) then
      inl (str "Error: FLIGHTAWARE_API_KEY environment variable is required." ++
           [newline])
    else inr (initialModel airportCode cfg).

End Program.

End main.

(** ** Vocabulary of the properties *)

(** A text brought to the width [w] of its field: cut after [w] bytes or
    filled up with blanks. *)
Definition normalizeText (w : nat) (text : gostring) : gostring :=
  take w (text ++ replicate w space).

(** A field is consistent when it has one cell slot per column. *)
Definition wfText (at_ : AnimatedText) : Prop :=
  0 <= MaxLength at_ /\ length (Chars at_) = Z.to_nat (MaxLength at_).

(** The calls a field receives during its life. *)
Inductive Event : Type :=
  | EvUpdate (text : gostring) (clock : Clock)
  | EvTick (clock : Clock).

Definition step (at_ : AnimatedText) (e : Event) : option AnimatedText :=
  match e with
  | EvUpdate text clock => Update at_ text clock
  | EvTick clock => Some (Tick at_ clock)
  end.

Fixpoint run (at_ : AnimatedText) (history : list Event)
    : option AnimatedText :=
  match history with
  | [] => Some at_
  | e :: rest => at' ← step at_ e; run at' rest
  end.

Definition ticks (clocks : list Clock) : list Event := EvTick <$> clocks.

(** What [Update] leaves in the cell slots: every slot is visited once. *)
Definition updatedChars (oldText newText : gostring) (clock : Clock)
    (chars : list (option CharAnimation)) : list (option CharAnimation) :=
  imap (fun i cell =>
          Some (updateCell (charAt oldText i) (charAt newText i) (clock i) cell))
       chars.

(** [Tick] after [Tick], one call per clock. *)
Definition tickAll (at_ : AnimatedText) (clocks : list Clock) : AnimatedText :=
  foldl Tick at_ clocks.

(** The successive [Tick]s as one cell at column [i] sees them. *)
Definition tickCellAll (i : nat) (c : CharAnimation) (clocks : list Clock)
    : CharAnimation :=
  foldl (fun c clock => tickCell (clock i) c) c clocks.

(** The state of the cell at column [i], if the slot is set. *)
Definition cellState (at_ : AnimatedText) (i : nat)
    : option CharAnimationState :=
  match Chars at_ !! i with
  | Some (Some c) => Some (State c)
  | _ => None
  end.

(** A tick read at [k], for an animation started at [start], finds more
    than 300 ms elapsed. *)
Definition expired (start : Z) (k : Z) : Prop := 300 * millisecond < k - start.

(** [ceil(n / p)] for a positive [p]. *)
Definition ceilDiv (n p : Z) : Z := (n + p - 1) / p.

(** The pagination invariant of a board. *)
Definition paginated (b : Board) : Prop :=
  TotalPages b = Z.max 1 (ceilDiv (len (Flights b)) (effectivePerPage b)) /\
  0 <= CurrentPage b < TotalPages b.

(** The row count and the page size are small enough for the program's
    [int] sums not to overflow. *)
Definition fitsInt (b : Board) : Prop :=
  len (Flights b) + effectivePerPage b <= maxInt64.

(** [n] calls of [NextPage] in succession. *)
Fixpoint NextPageTimes (n : nat) (b : Board) : option Board :=
  match n with
  | O => Some b
  | S n' => b' ← NextPage b; NextPageTimes n' b'
  end.

(** The row that [NewFlightRow(nil)] makes: six empty fields, no flight. *)
Definition fillerRow : FlightRow :=
  let empty w := {| OldText := []; NewText := [];
                    Chars := replicate w None; MaxLength := Z.of_nat w |} in
  {| Flight_ := None; StatusAnim := empty 1%nat; FlightNumAnim := empty 8%nat;
     TimeAnim := empty 8%nat; DestinationAnim := empty 20%nat;
     GateAnim := empty 6%nat; RemarksAnim := empty 20%nat |}.

(** The field after [Update], when the call does not panic. *)
Definition updatedText (at_ : AnimatedText) (text : gostring) (clock : Clock)
    : AnimatedText :=
  let w := Z.to_nat (MaxLength at_) in
  {| OldText := normalizeText w text;
     NewText := normalizeText w text;
     Chars := updatedChars (normalizeText w (OldText at_))
                (normalizeText w text) clock (Chars at_);
     MaxLength := MaxLength at_ |}.

(** The six texts a row derives from a flight. *)
Definition statusText (f : Flight) : gostring := getStatusChar (Status f).
Definition flightNumText (f : Flight) : gostring := take 8 (FlightNumber f).
Definition timeText (f : Flight) : gostring :=
  Format1504 (ScheduledDeparture f).
Definition destinationText (f : Flight) : gostring :=
  take 20 (GetDestination f).
Definition gateDisplay (f : Flight) : gostring :=
  if decide (take 6 (Gate f) = []) then str "     " else take 6 (Gate f).
Definition remarksText (f : Flight) : gostring := take 20 (Remarks f).

(** The row after [FlightRow.Update], when the call does not panic. *)
Definition updatedRow (fr : FlightRow) (ptr : FlightPtr) (f : Flight)
    (clk : RowClock) : FlightRow :=
  {| Flight_ := Some ptr;
     StatusAnim := updatedText (StatusAnim fr) (statusText f) (ckStatus clk);
     FlightNumAnim :=
       updatedText (FlightNumAnim fr) (flightNumText f) (ckFlightNum clk);
     TimeAnim := updatedText (TimeAnim fr) (timeText f) (ckTime clk);
     DestinationAnim :=
       updatedText (DestinationAnim fr) (destinationText f) (ckDestination clk);
     GateAnim := updatedText (GateAnim fr) (gateDisplay f) (ckGate clk);
     RemarksAnim :=
       updatedText (RemarksAnim fr) (remarksText f) (ckRemarks clk) |}.

(** A field of the column width [w] with one cell slot per column. *)
Definition wfField (w : Z) (at_ : AnimatedText) : Prop :=
  MaxLength at_ = w /\ length (Chars at_) = Z.to_nat w.

Definition wfRow (row : FlightRow) : Prop :=
  wfField 1 (StatusAnim row) /\ wfField 8 (FlightNumAnim row) /\
  wfField 8 (TimeAnim row) /\ wfField 20 (DestinationAnim row) /\
  wfField 6 (GateAnim row) /\ wfField 20 (RemarksAnim row).

(** The field currently displays [text]: that is the text of its last
    [Update], and every cell has been set and targets its character. *)
Definition shows (w : Z) (text : gostring) (at_ : AnimatedText) : Prop :=
  wfField w at_ /\
  OldText at_ = normalizeText (Z.to_nat w) text /\
  NewText at_ = OldText at_ /\
  forall i, (i < Z.to_nat w)%nat ->
    exists c, Chars at_ !! i = Some (Some c) /\
              NewChar c = charAt (OldText at_) i.

(** The row currently displays the snapshot [g]. *)
Definition rowShows (row : FlightRow) (g : Flight) : Prop :=
  shows 1 (statusText g) (StatusAnim row) /\
  shows 8 (flightNumText g) (FlightNumAnim row) /\
  shows 8 (timeText g) (TimeAnim row) /\
  shows 20 (destinationText g) (DestinationAnim row) /\
  shows 6 (gateDisplay g) (GateAnim row) /\
  shows 20 (remarksText g) (RemarksAnim row).

(** The call started (or restarted) the flip animation of column [i]: the
    cell blinks afterwards and is not the cell that was there before. *)
Definition newlyBlinking (before after : AnimatedText) (i : nat) : Prop :=
  exists c, Chars after !! i = Some (Some c) /\
            State c = CharStateBlinking /\
            Chars before !! i <> Some (Some c).

(** The flight number behind the flight pointer of the row at [p]. *)
Definition rowKey (rows : list FlightRow) (slices : list (list Flight))
    (p : nat) : option gostring :=
  row ← rows !! p;
  ptr ← Flight_ row;
  FlightNumber <$> derefFlight slices ptr.

(** The store is consistent: every row has its six fields at their
    widths, a flight pointer of a row leads to a flight, and the board
    lists allocated rows. *)
Definition wfStore (st : Store) : Prop :=
  Forall wfRow (rowHeap st) /\
  Forall (fun row => forall ptr, Flight_ row = Some ptr ->
            is_Some (derefFlight (sliceHeap st) ptr)) (rowHeap st) /\
  Forall (fun p => (p < length (rowHeap st))%nat) (Flights (board st)).

(** The row at [p] after the second loop of [UpdateFlights] has gone
    over [flights] (the elements from index [i] on): it received one
    [Update] per flight whose number the map sends to [p], in order. *)
Fixpoint rowAfter (a : nat) (existingMap : gmap (list ascii) nat)
    (clk : nat -> RowClock) (p : nat) (i : nat) (flights : list Flight)
    (row : FlightRow) : FlightRow :=
  match flights with
  | [] => row
  | f :: rest =>
      rowAfter a existingMap clk p (S i) rest
        (if decide (existingMap !! FlightNumber f = Some p)
         then updatedRow row (a, i) f (clk i) else row)
  end.

(** The rows that the loop allocates, in order. *)
Fixpoint newRowsFor (a : nat) (existingMap : gmap (list ascii) nat)
    (clk : nat -> RowClock) (i : nat) (flights : list Flight)
    : list FlightRow :=
  match flights with
  | [] => []
  | f :: rest =>
      match existingMap !! FlightNumber f with
      | Some _ => newRowsFor a existingMap clk (S i) rest
      | None => updatedRow fillerRow (a, i) f (clk i) ::
                newRowsFor a existingMap clk (S i) rest
      end
  end.

(** The row pointers that the loop collects; [next] is the address of the
    next row to be allocated. *)
Fixpoint pointersFor (existingMap : gmap (list ascii) nat) (next : nat)
    (flights : list Flight) : list nat :=
  match flights with
  | [] => []
  | f :: rest =>
      match existingMap !! FlightNumber f with
      | Some p => p :: pointersFor existingMap next rest
      | None => next :: pointersFor existingMap (S next) rest
      end
  end.

(** The reversed prefix is kept in descending order: no element is [less]
    than one that follows it. *)
Definition descending {A : Type} (less : A -> A -> bool) (l : list A) : Prop :=
  StronglySorted (fun x y => less x y = false) l.

(** The call started no flip animation in the field. *)
Definition noneNewlyBlinking (before after : AnimatedText) : Prop :=
  forall i, ~ newlyBlinking before after i.

(** The cells that have been set target the characters of the text of
    the last [Update] (a field that was never updated has no such cell). *)
Definition coherent (w : Z) (at_ : AnimatedText) : Prop :=
  wfField w at_ /\
  forall i c, Chars at_ !! i = Some (Some c) ->
    NewChar c = charAt (normalizeText (Z.to_nat w) (OldText at_)) i.

Definition rowCoherent (row : FlightRow) : Prop :=
  coherent 1 (StatusAnim row) /\ coherent 8 (FlightNumAnim row) /\
  coherent 8 (TimeAnim row) /\ coherent 20 (DestinationAnim row) /\
  coherent 6 (GateAnim row) /\ coherent 20 (RemarksAnim row).

(** The row lines of the current page, as [Render] produces them. *)
Definition Board_rows (st : Store) : option (list gostring) :=
  '(st', pageFlights) ← GetCurrentPageFlights st;
  renderRows st' pageFlights.

(** What a field shows of a character that is flipping in for the first
    time: a blank stays a blank, any other byte is a solid block. *)
Definition flipGlyph (b : ascii) : rune :=
  if decide (b = space) then 32 else solidBlock.

(** Every field of the row is flipping in the text it derives from [f]:
    solid blocks for the characters, blanks for the blanks. *)
Definition rowFlipsIn (row : FlightRow) (f : Flight) : Prop :=
  RenderRunes (StatusAnim row) =
    Some (flipGlyph <$> normalizeText 1 (statusText f)) /\
  RenderRunes (FlightNumAnim row) =
    Some (flipGlyph <$> normalizeText 8 (flightNumText f)) /\
  RenderRunes (TimeAnim row) =
    Some (flipGlyph <$> normalizeText 8 (timeText f)) /\
  RenderRunes (DestinationAnim row) =
    Some (flipGlyph <$> normalizeText 20 (destinationText f)) /\
  RenderRunes (GateAnim row) =
    Some (flipGlyph <$> normalizeText 6 (gateDisplay f)) /\
  RenderRunes (RemarksAnim row) =
    Some (flipGlyph <$> normalizeText 20 (remarksText f)).

(** The flight that a departure contributes to the result, if any. *)
Definition acceptDeparture (cutoffTime : option Time) (dep : AeroAPIDeparture)
    : option Flight :=
  scheduled ← scheduledOf dep;
  if IsZero scheduled then None
  else match cutoffTime with
       | Some ct =>
           if After scheduled ct then None
           else Some (convertToFlight dep scheduled)
       | None => Some (convertToFlight dep scheduled)
       end.

(** The store once a fetch has put the slice [flights] into memory. *)
Definition allocSlice (st : Store) (flights : list Flight) : Store :=
  {| rowHeap := rowHeap st; sliceHeap := sliceHeap st ++ [flights];
     board := board st |}.

(** The invariant of the running program. *)
Definition appInv (LoadLocation : gostring -> option Location)
    (m : main.model) (st : Store) : Prop :=
  wfStore st /\ paginated (board st) /\ fitsInt (board st) /\
  AirportCode (board st) = main.airportCode m /\
  len (main.airportCode m) = 3 /\
  forallb isUpper (main.airportCode m) = true /\
  AirportTZ (board st) =
    Some (GetAirportTimezone LoadLocation (main.airportCode m)) /\
  FlightsPerPage (board st) = cfg_FlightsPerPage (main.cfg m) /\
  len (main.airportInput m) <= 3 /\
  forallb isUpper (main.airportInput m) = true.

(** The message can occur: an [errMsg] carries an error, and the flights
    of a [flightsMsg] without error are a slice in memory, short enough
    for the page arithmetic. *)
Definition msgOK (st : Store) (msg : main.Msg) : Prop :=
  match msg with
  | main.errMsg e => e <> None
  | main.flightsMsg a None =>
      exists flights,
        sliceHeap st !! a = Some flights /\
        len flights + effectivePerPage (board st) <= maxInt64
  | _ => True
  end.

(** The flight that the [i]-th row of the board displays. *)
Definition rowFlight (st : Store) (i : nat) : option Flight :=
  p ← Flights (board st) !! i;
  row ← rowHeap st !! p;
  ptr ← Flight_ row;
  derefFlight (sliceHeap st) ptr.

(** ** Scenarios *)

(** Styles that leave the text as it is. *)
Definition plainStyles : SplitFlapStyles :=
  {| Background := fun text => text; Text := fun text => text;
     Header := fun text => text; StatusLight := fun _ text => text;
     AirportLabel := fun text => text; PageInfo := fun text => text;
     Error_ := fun text => text |}.

(** A clock that reads [t] nanoseconds all through a call. *)
Definition clockAt (t : Z) : Clock := fun _ => t.

Definition rowClockAt (t : Z) : RowClock :=
  {| ckStatus := clockAt t; ckFlightNum := clockAt t; ckTime := clockAt t;
     ckDestination := clockAt t; ckGate := clockAt t;
     ckRemarks := clockAt t |}.

Definition utcTime (hour minute : Z) : Time :=
  {| unixNano := (hour * 3600 + minute * 60) * 1000000000; location := UTC |}.

(** One hour east of UTC. *)
Definition plusOne : Location := {| zoneOffset := fun _ => 3600 |}.

Definition onTime (number : string) (hour minute : Z) (gate : string)
    : Flight :=
  {| Status := StatusOnTime; AirlineCode := str "BA"; AirlineName := str "BAW";
     FlightNumber := str number; DestinationCode := str "JFK";
     DestinationCity := str "New York"; Gate := str gate;
     Remarks := str "On Time"; ScheduledDeparture := utcTime hour minute;
     EstimatedDeparture := None |}.

Definition delayed (number : string) (hour minute : Z) (gate : string)
    (estHour estMinute : Z) : Flight :=
  {| Status := StatusDelayed; AirlineCode := str "BA"; AirlineName := str "BAW";
     FlightNumber := str number; DestinationCode := str "JFK";
     DestinationCity := str "New York"; Gate := str gate;
     Remarks := str "Delayed"; ScheduledDeparture := utcTime hour minute;
     EstimatedDeparture := Some (utcTime estHour estMinute) |}.

(** A new board with page size 2 and the given flight slices in memory. *)
Definition freshStore (tz : option Location) (slices : list (list Flight))
    : Store :=
  {| rowHeap := []; sliceHeap := slices;
     board := NewBoard plainStyles (str "LHR") tz 2 |}.

(** A board with page size 2 that shows the given rows. *)
Definition boardShowing (tz : option Location) (rows : list nat) : Board :=
  {| Flights := rows; CurrentPage := 0; TotalPages := 1;
     AirportCode := str "LHR"; AirportTZ := tz; FlightsPerPage := 2;
     Error := []; Styles := plainStyles |}.

(** BA114 moves from gate A12 to gate B7. *)
Definition gateSlices : list (list Flight) :=
  [ [onTime "BA114" 10 0 "A12"; onTime "AF22" 9 30 "C3"];
    [onTime "BA114" 10 0 "B7"; onTime "AF22" 9 30 "C3"] ].

(** The store after the first slice of [gateSlices] has been shown at
    time 0: the slice is sorted, row 0 shows AF22 and row 1 BA114. *)
Definition gateStore : Store :=
  {| rowHeap :=
       [updatedRow fillerRow (0, 0)%nat (onTime "AF22" 9 30 "C3") (rowClockAt 0);
        updatedRow fillerRow (0, 1)%nat (onTime "BA114" 10 0 "A12")
          (rowClockAt 0)];
     sliceHeap :=
       [ [onTime "AF22" 9 30 "C3"; onTime "BA114" 10 0 "A12"];
         [onTime "BA114" 10 0 "B7"; onTime "AF22" 9 30 "C3"] ];
     board := boardShowing (Some UTC) [0; 1]%nat |}.

(** BA114, on time at first, is delayed to 13:30 UTC, 14:30 local time. *)
Definition delaySlices : list (list Flight) :=
  [ [onTime "BA114" 10 0 "A12"]; [delayed "BA114" 10 0 "A12" 13 30] ].

(** The store after the first slice of [delaySlices] has been shown, on
    a board one hour east of UTC. *)
Definition delayStore : Store :=
  {| rowHeap :=
       [updatedRow fillerRow (0, 0)%nat
          (convertFlight (Some plusOne) (onTime "BA114" 10 0 "A12"))
          (rowClockAt 0)];
     sliceHeap :=
       [ [convertFlight (Some plusOne) (onTime "BA114" 10 0 "A12")];
         [delayed "BA114" 10 0 "A12" 13 30] ];
     board := boardShowing (Some plusOne) [0]%nat |}.

(** A snapshot that lists the flight number K twice, for a board that
    already shows K. *)
Definition twiceSlices : list (list Flight) :=
  [ [onTime "K" 10 0 "A1"];
    [onTime "K" 10 0 "A1"; onTime "A" 10 5 "B2"; onTime "K" 10 10 "C3"] ].

(** The store after the first slice of [twiceSlices] has been shown. *)
Definition twiceStore : Store :=
  {| rowHeap :=
       [updatedRow fillerRow (0, 0)%nat (onTime "K" 10 0 "A1") (rowClockAt 0)];
     sliceHeap := twiceSlices;
     board := boardShowing (Some UTC) [0]%nat |}.

(** Two flights with the same scheduled time. *)
Definition tieSlices : list (list Flight) :=
  [ [onTime "A" 10 0 "A1"; onTime "B" 10 0 "B2"] ].

(** Thirteen flights: A to L leave at 10:00, M, the last of the snapshot,
    at 9:00. *)
Definition thirteenSlices : list (list Flight) :=
  [ [onTime "A" 10 0 "A1"; onTime "B" 10 0 "A2"; onTime "C" 10 0 "A3";
     onTime "D" 10 0 "A4"; onTime "E" 10 0 "A5"; onTime "F" 10 0 "A6";
     onTime "G" 10 0 "A7"; onTime "H" 10 0 "A8"; onTime "I" 10 0 "A9";
     onTime "J" 10 0 "B1"; onTime "K" 10 0 "B2"; onTime "L" 10 0 "B3";
     onTime "M" 9 0 "B4"] ].

(** The scheduled departures (as instants) that the rows of the board
    display, top to bottom. *)
Definition rowDepartures (st : Store) : list (option Z) :=
  (fun p =>
     row ← rowHeap st !! p;
     ptr ← Flight_ row;
     flight ← derefFlight (sliceHeap st) ptr;
     Some (unixNano (ScheduledDeparture flight))) <$> Flights (board st).

(** The flight numbers that the rows of the board display. *)
Definition rowNumbers (st : Store) : list (option gostring) :=
  rowKey (rowHeap st) (sliceHeap st) <$> Flights (board st).

(** A field of six columns that was set to "A12" at time 0 and has
    settled under two ticks. *)
Definition gateField : AnimatedText :=
  default {| OldText := []; NewText := []; Chars := []; MaxLength := 0 |}
    (at0 ← NewAnimatedText 6;
     run at0 [EvUpdate (str "A12") (clockAt 0); EvTick (clockAt 400000000);
              EvTick (clockAt 500000000)]).

(** A board of five rows, page size 2, showing its last page. *)
Definition threePages : Board :=
  {| Flights := [0; 1; 2; 3; 4]%nat; CurrentPage := 2; TotalPages := 3;
     AirportCode := str "LHR"; AirportTZ := Some UTC; FlightsPerPage := 2;
     Error := []; Styles := plainStyles |}.

(** Five flights shown on three pages of two, the board on its last page,
    and a later snapshot with three flights in memory. *)
Definition pagesSlices : list (list Flight) :=
  [ [onTime "F1" 8 0 "A1"; onTime "F2" 8 10 "A2"; onTime "F3" 8 20 "A3";
     onTime "F4" 8 30 "A4"; onTime "F5" 8 40 "A5"];
    [onTime "F1" 8 0 "A1"; onTime "F2" 8 10 "A2"; onTime "F3" 8 20 "A3"] ].

Definition pagesStore : Store :=
  {| rowHeap :=
       [updatedRow fillerRow (0, 0)%nat (onTime "F1" 8 0 "A1") (rowClockAt 0);
        updatedRow fillerRow (0, 1)%nat (onTime "F2" 8 10 "A2") (rowClockAt 0);
        updatedRow fillerRow (0, 2)%nat (onTime "F3" 8 20 "A3") (rowClockAt 0);
        updatedRow fillerRow (0, 3)%nat (onTime "F4" 8 30 "A4") (rowClockAt 0);
        updatedRow fillerRow (0, 4)%nat (onTime "F5" 8 40 "A5") (rowClockAt 0)];
     sliceHeap := pagesSlices;
     board :=
       {| Flights := [0; 1; 2; 3; 4]%nat; CurrentPage := 2; TotalPages := 3;
          AirportCode := str "LHR"; AirportTZ := Some UTC;
          FlightsPerPage := 2; Error := []; Styles := plainStyles |} |}.

(** *** Scenarios of the further properties *)

(** An environment with an API key and the airport code "lhr". *)
Definition exampleEnv (key : gostring) : gostring :=
  if bool_decide (key = str "FLIGHTAWARE_API_KEY") then str "k3y"
  else if bool_decide (key = str "AIRPORT_CODE") then str "lhr"
  else [].

Definition exampleConfig : Config := LoadConfig exampleEnv (fun _ => None).

(** A time zone database in which every zone is one hour east of UTC. *)
Definition exampleZones (tzName : gostring) : option Location := Some plusOne.

(** The program while the user is entering an airport code over the
    board of the gate scenario: "JF" has been typed. *)
Definition typingModel : main.model :=
  {| main.apiClient := NewFlightAwareClient (str "k3y");
     main.cfg := exampleConfig; main.airportCode := str "LHR";
     main.loading := false; main.err := None; main.inputMode := true;
     main.airportInput := str "JF" |}.

(** A departure of the data source: BA 117 to New York, delayed, with an
    estimate. *)
Definition exampleDeparture : AeroAPIDeparture :=
  {| Ident := str "BAW117"; FaFlightID := str "BAW117-1"; Operator := str "BAW";
     OperatorIata := str "BA"; dep_FlightNumber := str "117";
     Origin := None;
     Destination := Some {| Code := str "KJFK"; CodeIata := str "JFK";
                            CodeIcao := str "KJFK"; City := str "New York" |};
     Departure := None;
     ScheduledOut := Some (utcTime 10 0);
     EstimatedOut := Some (utcTime 10 40);
     ActualOut := None;
     dep_Status := str "Scheduled / Delayed"; dep_Gate := str "A10";
     BaggageClaim := []; dep_Remarks := [] |}.

(** The state that [main] starts the program with for the airport LHR. *)
Definition startState : main.model * Store :=
  main.initialModel exampleZones plainStyles (str "LHR") exampleConfig.

(** * Properties *)

(** ** Strings and UTF-8 *)

Lemma len_nonneg {A : Type} (l : list A) : 0 <= len l.
Proof. unfold len. lia. Qed.

Lemma padSpaces_app (n : nat) (text : gostring) :
  padSpaces n text = text ++ replicate n space.
Proof.
  revert text. induction n as [|n IH]; intros text; simpl.
  - by rewrite app_nil_r.
  - rewrite IH, <- app_assoc. reflexivity.
Qed.

Lemma normalizeText_length (w : nat) (text : gostring) :
  length (normalizeText w text) = w.
Proof.
  unfold normalizeText.
  rewrite length_take, length_app, length_replicate. lia.
Qed.

Lemma padOrTruncate_normalize (w : Z) (text : gostring) :
  0 <= w -> padOrTruncate w text = Some (normalizeText (Z.to_nat w) text).
Proof.
  intros Hw. unfold padOrTruncate, sliceTo, normalizeText, len.
  destruct (Z.ltb_spec w (Z.of_nat (length text))) as [Hlt|Hge].
  - destruct (Z.ltb_spec w 0); [lia|].
    destruct (Z.ltb_spec (Z.of_nat (length text)) w); [lia|]. simpl.
    f_equal. rewrite take_app_le by lia. reflexivity.
  - f_equal. rewrite padSpaces_app.
    rewrite take_app_ge by lia.
    rewrite take_replicate. do 2 f_equal. lia.
Qed.

Lemma normalizeText_idemp (w : nat) (text : gostring) :
  normalizeText w (normalizeText w text) = normalizeText w text.
Proof.
  unfold normalizeText at 1.
  rewrite take_app_le by (rewrite normalizeText_length; lia).
  apply take_ge. rewrite normalizeText_length. lia.
Qed.

(** A property checked on 0 .. n-1 holds of every integer of that range. *)
Lemma forallb_below (P : Z -> bool) (n : nat) :
  forallb P (Z.of_nat <$> seq 0 n) = true ->
  forall v, 0 <= v < Z.of_nat n -> P v = true.
Proof.
  intros Hall v Hv. rewrite forallb_forall in Hall. apply Hall.
  apply list_elem_of_In, list_elem_of_fmap. exists (Z.to_nat v). split; [lia|].
  apply elem_of_seq. lia.
Qed.

Lemma land63_bound (x : Z) : 0 <= Z.land x 63 < 64.
Proof.
  change 63 with (Z.ones 6). rewrite Z.land_ones by lia.
  apply Z.mod_pos_bound. lia.
Qed.

Lemma shiftr_bound (r n lo hi : Z) :
  0 <= n -> lo * 2 ^ n <= r < hi * 2 ^ n -> lo <= Z.shiftr r n < hi.
Proof.
  intros Hn [Hlo Hhi]. rewrite Z.shiftr_div_pow2 by lia.
  assert (0 < 2 ^ n) by (apply Z.pow_pos_nonneg; lia). split.
  - apply Z.div_le_lower_bound; lia.
  - apply Z.div_lt_upper_bound; lia.
Qed.

Lemma continuation_byte (y : Z) :
  0 <= y < 64 -> isContinuation (byteOfZ (Z.lor 128 y)) = true.
Proof.
  apply (forallb_below
    (fun y => isContinuation (byteOfZ (Z.lor 128 y))) 64).
  vm_compute. reflexivity.
Qed.

Lemma lead_byte (tag y : Z) :
  (tag = 192 \/ tag = 224 \/ tag = 240) -> 0 <= y < 16 ->
  isContinuation (byteOfZ (Z.lor tag y)) = false.
Proof.
  intros Htag Hy. apply negb_true_iff. revert y Hy.
  destruct Htag as [->|[->| ->]].
  all: apply (forallb_below
    (fun y => negb (isContinuation (byteOfZ (Z.lor _ y)))) 16).
  all: vm_compute; reflexivity.
Qed.

Lemma lead_byte2 (y : Z) :
  0 <= y < 32 -> isContinuation (byteOfZ (Z.lor 192 y)) = false.
Proof.
  intros Hy. apply negb_true_iff. revert y Hy.
  apply (forallb_below
    (fun y => negb (isContinuation (byteOfZ (Z.lor 192 y)))) 32).
  vm_compute. reflexivity.
Qed.

Lemma ascii_byte (y : Z) :
  0 <= y < 128 -> isContinuation (byteOfZ y) = false.
Proof.
  intros Hy. apply negb_true_iff. revert y Hy.
  apply (forallb_below (fun y => negb (isContinuation (byteOfZ y))) 128).
  vm_compute. reflexivity.
Qed.

Lemma RuneCountInString_cons (b : ascii) (s : gostring) :
  RuneCountInString (b :: s) =
  (if isContinuation b then 0 else 1) + RuneCountInString s.
Proof.
  unfold RuneCountInString, len. rewrite filter_cons.
  destruct (isContinuation b); simpl.
  - destruct (decide (true = false)); [congruence|]. lia.
  - destruct (decide (false = false)); [|congruence]. simpl length. lia.
Qed.

Lemma RuneCountInString_app (s t : gostring) :
  RuneCountInString (s ++ t) = RuneCountInString s + RuneCountInString t.
Proof.
  unfold RuneCountInString, len. rewrite filter_app, length_app. lia.
Qed.

(** Whatever the rune, its encoding is one character. *)
Lemma RuneCountInString_encodeRune (r : rune) :
  RuneCountInString (encodeRune r) = 1.
Proof.
  unfold encodeRune.
  destruct ((r <? 0) || (1114111 <? r) || ((55296 <=? r) && (r <=? 57343)))
    eqn:Hbad.
  { vm_compute. reflexivity. }
  apply orb_false_iff in Hbad as [Hbad _].
  apply orb_false_iff in Hbad as [Hneg Hbig].
  apply Z.ltb_ge in Hneg, Hbig.
  destruct (Z.ltb_spec r 128) as [H1|H1].
  { rewrite RuneCountInString_cons, ascii_byte by lia. reflexivity. }
  destruct (Z.ltb_spec r 2048) as [H2|H2].
  { rewrite !RuneCountInString_cons, lead_byte2, continuation_byte.
    - reflexivity.
    - apply land63_bound.
    - pose proof (shiftr_bound r 6 0 32); lia. }
  destruct (Z.ltb_spec r 65536) as [H3|H3].
  { rewrite !RuneCountInString_cons, lead_byte, !continuation_byte.
    - reflexivity.
    - apply land63_bound.
    - apply land63_bound.
    - tauto.
    - pose proof (shiftr_bound r 12 0 16); lia. }
  rewrite !RuneCountInString_cons, lead_byte, !continuation_byte.
  - reflexivity.
  - apply land63_bound.
  - apply land63_bound.
  - apply land63_bound.
  - tauto.
  - pose proof (shiftr_bound r 18 0 16); lia.
Qed.

Lemma RuneCountInString_stringOfRunes (rs : list rune) :
  RuneCountInString (stringOfRunes rs) = len rs.
Proof.
  unfold stringOfRunes. induction rs as [|r rs IH]; [reflexivity|].
  simpl flat_map. rewrite RuneCountInString_app, RuneCountInString_encodeRune, IH.
  unfold len. simpl length. lia.
Qed.

(** ** The animated field *)

Lemma updateLoop_frame oldText newText clock n :
  forall i chars,
    (i + n <= length chars)%nat ->
    exists chars',
      updateLoop oldText newText clock i n chars = Some chars' /\
      length chars' = length chars /\
      forall j,
        chars' !! j =
        if decide (i <= j < i + n)%nat
        then (fun cell => Some (updateCell (charAt oldText j) (charAt newText j)
                                  (clock j) cell)) <$> chars !! j
        else chars !! j.
Proof.
  induction n as [|n IH]; intros i chars Hlen; simpl.
  - exists chars. repeat split. intros j. destruct (decide _); [lia|done].
  - destruct (lookup_lt_is_Some_2 chars i ltac:(lia)) as [cell Hcell].
    rewrite Hcell. simpl.
    edestruct (IH (S i)) as (chars' & Hrun & Hlen' & Hget);
      [|rewrite Hrun; exists chars'; split; [reflexivity|]; split].
    + rewrite length_insert. lia.
    + by rewrite Hlen', length_insert.
    + intros j. rewrite Hget.
      destruct (decide (S i <= j < S i + n)%nat) as [Hin|Hout].
      * rewrite list_lookup_insert_ne by lia.
        destruct (decide _); [done|lia].
      * destruct (decide (i = j)) as [<-|Hne].
        -- rewrite list_lookup_insert_eq by lia. rewrite Hcell.
           destruct (decide _); [done|lia].
        -- rewrite list_lookup_insert_ne by done.
           destruct (decide _); [lia|done].
Qed.

Lemma updateLoop_all oldText newText clock chars :
  updateLoop oldText newText clock 0 (length chars) chars =
  Some (updatedChars oldText newText clock chars).
Proof.
  destruct (updateLoop_frame oldText newText clock (length chars) 0 chars)
    as (chars' & -> & Hlen & Hget); [lia|].
  f_equal. apply list_eq. intros j. rewrite Hget.
  unfold updatedChars. rewrite list_lookup_imap.
  destruct (decide _) as [|Hout]; [done|].
  rewrite lookup_ge_None_2 by lia. done.
Qed.

(** [Update] on a consistent field never panics. *)
Lemma Update_wf (at_ : AnimatedText) (text : gostring) (clock : Clock) :
  wfText at_ ->
  Update at_ text clock =
  Some {| OldText := normalizeText (Z.to_nat (MaxLength at_)) text;
          NewText := normalizeText (Z.to_nat (MaxLength at_)) text;
          Chars := updatedChars
                     (normalizeText (Z.to_nat (MaxLength at_)) (OldText at_))
                     (normalizeText (Z.to_nat (MaxLength at_)) text)
                     clock (Chars at_);
          MaxLength := MaxLength at_ |}.
Proof.
  intros [Hw Hlen]. unfold Update.
  rewrite !padOrTruncate_normalize by done. simpl.
  rewrite <- Hlen, updateLoop_all. reflexivity.
Qed.

Lemma updatedChars_length oldText newText clock chars :
  length (updatedChars oldText newText clock chars) = length chars.
Proof. apply length_imap. Qed.

Lemma Update_preserves_wf (at_ at' : AnimatedText) text clock :
  wfText at_ -> Update at_ text clock = Some at' ->
  wfText at' /\ MaxLength at' = MaxLength at_.
Proof.
  intros Hwf. rewrite Update_wf by done. intros [= <-].
  destruct Hwf as [Hw Hlen]. unfold wfText. simpl.
  rewrite updatedChars_length. auto.
Qed.

Lemma Tick_preserves_wf (at_ : AnimatedText) clock :
  wfText at_ -> wfText (Tick at_ clock) /\ MaxLength (Tick at_ clock) = MaxLength at_.
Proof.
  intros [Hw Hlen]. unfold wfText, Tick. simpl. rewrite length_imap. auto.
Qed.

Lemma NewAnimatedText_wf (w : Z) (at_ : AnimatedText) :
  NewAnimatedText w = Some at_ -> wfText at_ /\ MaxLength at_ = w.
Proof.
  unfold NewAnimatedText. destruct (Z.ltb_spec w 0); [done|].
  intros [= <-]. unfold wfText. simpl. rewrite length_replicate. auto.
Qed.

Lemma run_wf (history : list Event) :
  forall at_, wfText at_ ->
    exists at', run at_ history = Some at' /\ wfText at' /\
                MaxLength at' = MaxLength at_.
Proof.
  induction history as [|e history IH]; intros at_ Hwf; simpl.
  - eauto.
  - destruct e as [text clock|clock]; simpl.
    + rewrite Update_wf by done. simpl.
      edestruct (Update_preserves_wf at_) as [Hwf' Hmax];
        [done|by apply Update_wf|].
      destruct (IH _ Hwf') as (at' & Hrun & Hwf'' & Hmax').
      exists at'. rewrite Hrun. repeat split; [apply Hwf''..|].
      by rewrite Hmax'.
    + destruct (Tick_preserves_wf at_ clock Hwf) as [Hwf' Hmax].
      destruct (IH _ Hwf') as (at' & Hrun & Hwf'' & Hmax').
      exists at'. rewrite Hrun. repeat split; [apply Hwf''..|].
      by rewrite Hmax'.
Qed.

Lemma renderLoop_frame (chars : list (option CharAnimation)) :
  forall i result,
    (i + length chars <= length result)%nat ->
    renderLoop i chars result =
    Some (take i result ++ (renderCell <$> chars) ++
          drop (i + length chars) result).
Proof.
  induction chars as [|cell chars IH]; intros i result Hlen; simpl in *.
  - rewrite Nat.add_0_r. by rewrite take_drop.
  - destruct (decide (i < length result)%nat); [|lia].
    rewrite IH by (rewrite length_insert; lia). f_equal.
    rewrite drop_insert_lt by lia.
    replace (S i + length chars)%nat with (i + S (length chars))%nat by lia.
    rewrite (take_S_r _ i (renderCell cell))
      by (apply list_lookup_insert_eq; lia).
    rewrite take_insert_ge by lia. by rewrite <- app_assoc.
Qed.

Lemma RenderRunes_wf (at_ : AnimatedText) :
  wfText at_ -> RenderRunes at_ = Some (renderCell <$> Chars at_).
Proof.
  intros [Hw Hlen]. unfold RenderRunes.
  destruct (Z.ltb_spec (MaxLength at_) 0); [lia|].
  rewrite renderLoop_frame by (rewrite length_replicate; lia).
  rewrite drop_ge by (rewrite length_replicate; lia).
  by rewrite app_nil_r.
Qed.

(** C2. Width invariant: a field made by [NewAnimatedText w] renders,
    after any history of [Update] and [Tick] calls with whatever texts,
    to a string of exactly [w] characters; the string is the UTF-8
    encoding of [w] runes, and a slot that was never set shows a blank. *)
Theorem Render_width (w : Z) (at0 : AnimatedText) (history : list Event) :
  NewAnimatedText w = Some at0 ->
  exists at_ runes,
    run at0 history = Some at_ /\
    RenderRunes at_ = Some runes /\
    Render at_ = Some (stringOfRunes runes) /\
    len runes = w /\
    RuneCountInString (stringOfRunes runes) = w /\
    (forall i, Chars at_ !! i = Some None -> runes !! i = Some 32).
Proof.
  intros Hnew. apply NewAnimatedText_wf in Hnew as [Hwf Hmax].
  destruct (run_wf history at0 Hwf) as (at_ & Hrun & Hwf' & Hmax').
  exists at_, (renderCell <$> Chars at_).
  pose proof (RenderRunes_wf at_ Hwf') as Hrender.
  assert (len (renderCell <$> Chars at_) = w) as Hlen.
  { destruct Hwf' as [Hw Hl]. unfold len. rewrite length_fmap, Hl. lia. }
  repeat split; try done.
  - unfold Render. by rewrite Hrender.
  - by rewrite RuneCountInString_stringOfRunes.
  - intros i Hi. rewrite list_lookup_fmap, Hi. reflexivity.
Qed.

(** ** Convergence of the flip animation *)

Lemma runeOfByte_range (b : ascii) : 0 <= runeOfByte b < 256.
Proof.
  unfold runeOfByte. pose proof (N_ascii_bounded b). lia.
Qed.

Lemma charAt_range (text : gostring) (i : nat) : 0 <= charAt text i < 256.
Proof.
  unfold charAt. destruct (text !! i); [apply runeOfByte_range|lia].
Qed.

Lemma sat64_expired (x : Z) :
  (300 * millisecond <? sat64 x) = (300 * millisecond <? x).
Proof.
  unfold sat64, minInt64, maxInt64, millisecond.
  destruct (Z.ltb_spec (300 * 1000000) x);
    destruct (Z.ltb_spec (300 * 1000000) (Z.max (- 2 ^ 63) (Z.min (2 ^ 63 - 1) x)));
    lia.
Qed.

Lemma tickCell_NewChar now c : NewChar (tickCell now c) = NewChar c.
Proof. unfold tickCell. by destruct (State c). Qed.

Lemma tickCell_StartTime now c : StartTime (tickCell now c) = StartTime c.
Proof. unfold tickCell. by destruct (State c). Qed.

Lemma tickCell_blinking now c :
  State c = CharStateBlinking ->
  State (tickCell now c) =
  if 300 * millisecond <? now - StartTime c then CharStateComplete
  else CharStateBlinking.
Proof.
  intros Hc. unfold tickCell. rewrite Hc. simpl. by rewrite sat64_expired.
Qed.

Lemma tickCell_complete now c :
  State c = CharStateComplete -> State (tickCell now c) = CharStateStable.
Proof. intros Hc. unfold tickCell. by rewrite Hc. Qed.

Lemma tickCell_stable now c :
  State c = CharStateStable -> tickCell now c = c.
Proof. intros Hc. unfold tickCell. by rewrite Hc. Qed.

Lemma tickCellAll_NewChar i clocks :
  forall c, NewChar (tickCellAll i c clocks) = NewChar c.
Proof.
  induction clocks as [|k clocks IH]; intros c; simpl; [done|].
  unfold tickCellAll in *. simpl. by rewrite IH, tickCell_NewChar.
Qed.

Lemma tickCellAll_settled i clocks :
  forall c, State c <> CharStateBlinking ->
    State (tickCellAll i c clocks) <> CharStateBlinking.
Proof.
  induction clocks as [|k clocks IH]; intros c Hc; simpl; [done|].
  unfold tickCellAll in *. simpl. apply IH.
  destruct (State c) eqn:Hs; [|done|].
  - by rewrite tickCell_stable, Hs.
  - by rewrite tickCell_complete.
Qed.

(** A blinking cell that sees a tick past the threshold has left
    [Blinking] for good. *)
Lemma tickCellAll_expired i clocks :
  forall c, State c = CharStateBlinking ->
    Exists (fun k : Clock => expired (StartTime c) (k i)) clocks ->
    State (tickCellAll i c clocks) <> CharStateBlinking.
Proof.
  induction clocks as [|k clocks IH]; intros c Hc Hex.
  - by apply Exists_nil in Hex.
  - unfold tickCellAll in *. simpl.
    pose proof (tickCell_blinking (k i) c Hc) as Hstep.
    destruct (Z.ltb_spec (300 * millisecond) (k i - StartTime c)) as [Hlt|Hge].
    + apply tickCellAll_settled. by rewrite Hstep.
    + apply IH; [done|]. rewrite tickCell_StartTime.
      apply Exists_cons in Hex as [Hnow|Hlater]; [|done].
      unfold expired in Hnow. lia.
Qed.

(** While no tick is past the threshold the cell keeps blinking. *)
Lemma tickCellAll_pending i clocks :
  forall c, State c = CharStateBlinking ->
    Forall (fun k : Clock => ~ expired (StartTime c) (k i)) clocks ->
    State (tickCellAll i c clocks) = CharStateBlinking /\
    StartTime (tickCellAll i c clocks) = StartTime c.
Proof.
  induction clocks as [|k clocks IH]; intros c Hc Hall; [done|].
  apply Forall_cons in Hall as [Hk Hall].
  unfold tickCellAll in *. simpl.
  pose proof (tickCell_blinking (k i) c Hc) as Hstep.
  destruct (Z.ltb_spec (300 * millisecond) (k i - StartTime c)) as [Hlt|Hge];
    [by destruct Hk|].
  destruct (IH (tickCell (k i) c) Hstep) as [H1 H2].
  - by rewrite tickCell_StartTime.
  - split; [done|]. by rewrite H2, tickCell_StartTime.
Qed.

Lemma tickCellAll_app i c clocks1 clocks2 :
  tickCellAll i c (clocks1 ++ clocks2) =
  tickCellAll i (tickCellAll i c clocks1) clocks2.
Proof. unfold tickCellAll. apply foldl_app. Qed.

Lemma Chars_tickAll (clocks : list Clock) :
  forall at_ i,
    Chars (tickAll at_ clocks) !! i =
    (fun cell => (fun c => tickCellAll i c clocks) <$> cell) <$> Chars at_ !! i.
Proof.
  induction clocks as [|k clocks IH]; intros at_ i.
  - simpl. destruct (Chars at_ !! i) as [[c|]|]; reflexivity.
  - unfold tickAll in *. simpl. rewrite IH. simpl.
    rewrite list_lookup_imap.
    destruct (Chars at_ !! i) as [[c|]|]; reflexivity.
Qed.

Lemma tickAll_wf at_ clocks :
  wfText at_ -> wfText (tickAll at_ clocks).
Proof.
  revert at_. induction clocks as [|k clocks IH]; intros at_ Hwf; [done|].
  unfold tickAll in *. simpl. apply IH. by apply Tick_preserves_wf.
Qed.

Lemma IsAnimating_false (at_ : AnimatedText) :
  IsAnimating at_ = false <->
  forall i c, Chars at_ !! i = Some (Some c) -> State c <> CharStateBlinking.
Proof.
  unfold IsAnimating. rewrite <- not_true_iff_false, existsb_exists. split.
  - intros Hnone i c Hi Hc. apply Hnone. exists (Some c). split.
    + apply list_elem_of_In, list_elem_of_lookup. eauto.
    + simpl. by apply bool_decide_eq_true.
  - intros Hall (cell & Hin & Hb).
    apply list_elem_of_In, list_elem_of_lookup in Hin as [i Hi].
    destruct cell as [c|]; [|done].
    simpl in Hb. apply bool_decide_eq_true in Hb. by apply (Hall i c).
Qed.

Lemma renderCell_settled (c : CharAnimation) :
  State c <> CharStateBlinking -> renderCell (Some c) = NewChar c.
Proof. simpl. by destruct (State c). Qed.

Lemma tickCellAll_cons i c (k : Clock) clocks :
  tickCellAll i c (k :: clocks) = tickCellAll i (tickCell (k i) c) clocks.
Proof. reflexivity. Qed.

Lemma tickCellAll_stable i clocks c :
  State c = CharStateStable -> tickCellAll i c clocks = c.
Proof.
  intros Hc. induction clocks as [|k clocks IH]; [done|].
  unfold tickCellAll in *. simpl. by rewrite tickCell_stable.
Qed.

Lemma cellState_tickAll at_ clocks i c :
  Chars at_ !! i = Some (Some c) ->
  cellState (tickAll at_ clocks) i = Some (State (tickCellAll i c clocks)).
Proof. intros Hc. unfold cellState. by rewrite Chars_tickAll, Hc. Qed.

Lemma updateCell_changed oldChar newChar now cell :
  oldChar <> newChar ->
  updateCell oldChar newChar now cell =
  {| OldChar := oldChar; NewChar := newChar; State := CharStateBlinking;
     BlinkPhase := 0; StartTime := now |}.
Proof. intros Hne. unfold updateCell. by destruct (decide _). Qed.

Lemma updateCell_blinking oldChar newChar now cell :
  State (updateCell oldChar newChar now cell) = CharStateBlinking ->
  isBlinking cell = true \/ StartTime (updateCell oldChar newChar now cell) = now.
Proof.
  unfold updateCell. destruct (decide _); [|by right].
  destruct cell as [c|]; simpl; [|done].
  intros Hc. left. by apply bool_decide_eq_true.
Qed.

(** C3. Animation convergence.  An [Update] that changes the character of
    column [i] puts its cell into [Blinking], started at the clock reading
    [u i].  Under the [Tick]s that follow, the cell blinks as long as no
    tick is read more than 300 ms after the start; the first such tick
    makes it [Complete], the tick after that [Stable], where it stays; from
    the first such tick on [Render] shows the new character at column [i],
    which is no blink glyph; and [IsAnimating] is false as soon as every
    blinking cell of the field has seen such a tick, in particular when no
    animation was in progress before the update and one tick is past the
    threshold for every column. *)
Theorem animation_converges (at0 : AnimatedText) (text : gostring) (u : Clock)
    (i : nat) :
  let w := Z.to_nat (MaxLength at0) in
  let oldChar := charAt (normalizeText w (OldText at0)) i in
  let newChar := charAt (normalizeText w text) i in
  wfText at0 -> (i < w)%nat -> oldChar <> newChar ->
  exists at1,
    Update at0 text u = Some at1 /\
    Chars at1 !! i =
      Some (Some {| OldChar := oldChar; NewChar := newChar;
                    State := CharStateBlinking; BlinkPhase := 0;
                    StartTime := u i |}) /\
    (forall clocks,
        Forall (fun k : Clock => ~ expired (u i) (k i)) clocks ->
        cellState (tickAll at1 clocks) i = Some CharStateBlinking) /\
    (forall clocks (k : Clock),
        Forall (fun k : Clock => ~ expired (u i) (k i)) clocks ->
        expired (u i) (k i) ->
        cellState (tickAll at1 (clocks ++ [k])) i = Some CharStateComplete /\
        forall (k' : Clock) later,
          cellState (tickAll at1 (clocks ++ k :: k' :: later)) i =
          Some CharStateStable) /\
    (forall clocks,
        Exists (fun k : Clock => expired (u i) (k i)) clocks ->
        exists runes,
          RenderRunes (tickAll at1 clocks) = Some runes /\
          runes !! i = Some newChar /\
          newChar <> solidBlock /\ newChar <> lightBlock) /\
    (forall clocks,
        (forall j c, Chars at1 !! j = Some (Some c) ->
                     State c = CharStateBlinking ->
                     Exists (fun k : Clock => expired (StartTime c) (k j)) clocks) ->
        IsAnimating (tickAll at1 clocks) = false) /\
    (IsAnimating at0 = false ->
     forall clocks,
        Exists (fun k : Clock => forall j, expired (u j) (k j)) clocks ->
        IsAnimating (tickAll at1 clocks) = false).
Proof.
  intros w oldChar newChar Hwf Hi Hne.
  eexists. split; [by apply Update_wf|]. fold w.
  set (at1 := {| OldText := normalizeText w text |}).
  set (blinking := {| OldChar := oldChar; NewChar := newChar;
                      State := CharStateBlinking |}).
  assert (Chars at1 !! i = Some (Some blinking)) as Hcell.
  { simpl. unfold updatedChars. rewrite list_lookup_imap.
    destruct (lookup_lt_is_Some_2 (Chars at0) i) as [cell ->].
    { destruct Hwf as [_ ->]. done. }
    simpl. by rewrite updateCell_changed. }
  assert (forall clocks,
    (forall j c, Chars at1 !! j = Some (Some c) ->
                 State c = CharStateBlinking ->
                 Exists (fun k : Clock => expired (StartTime c) (k j)) clocks) ->
    IsAnimating (tickAll at1 clocks) = false) as Hquiet.
  { intros clocks Hall. apply IsAnimating_false. intros j c.
    rewrite Chars_tickAll.
    destruct (Chars at1 !! j) as [[c1|]|] eqn:Hj; simpl; [|done..].
    intros [= <-].
    destruct (decide (State c1 = CharStateBlinking)) as [Hb|Hb].
    - apply tickCellAll_expired; [done|]. by apply Hall.
    - by apply tickCellAll_settled. }
  split; [done|]. split; [|split; [|split; [|split; [done|]]]].
  - intros clocks Hpending. rewrite (cellState_tickAll _ _ _ _ Hcell).
    by destruct (tickCellAll_pending i clocks blinking) as [-> _].
  - intros clocks k Hpending Hk.
    destruct (tickCellAll_pending i clocks blinking) as [Hs Ht]; [done..|].
    assert (State (tickCell (k i) (tickCellAll i blinking clocks))
            = CharStateComplete) as Hdone.
    { rewrite tickCell_blinking, Ht by done. simpl.
      unfold expired in Hk. destruct (Z.ltb_spec (300 * millisecond) (k i - u i)); [done|lia]. }
    split.
    + rewrite (cellState_tickAll _ _ _ _ Hcell), tickCellAll_app.
      rewrite tickCellAll_cons. simpl. by rewrite Hdone.
    + intros k' later.
      rewrite (cellState_tickAll _ _ _ _ Hcell), tickCellAll_app.
      rewrite !tickCellAll_cons.
      rewrite tickCellAll_stable; by rewrite tickCell_complete.
  - intros clocks Hex. exists (renderCell <$> Chars (tickAll at1 clocks)).
    split; [apply RenderRunes_wf, tickAll_wf;
            by eapply Update_preserves_wf, Update_wf|].
    pose proof (charAt_range (normalizeText w text) i) as Hrange.
    fold newChar in Hrange. unfold solidBlock, lightBlock.
    split; [|lia].
    rewrite list_lookup_fmap, Chars_tickAll, Hcell.
    cbn [fmap option_fmap option_map]. f_equal.
    rewrite renderCell_settled by (by apply tickCellAll_expired).
    by rewrite tickCellAll_NewChar.
  - intros Hidle clocks Hex. apply Hquiet. intros j c Hj Hb.
    simpl in Hj. unfold updatedChars in Hj. rewrite list_lookup_imap in Hj.
    destruct (Chars at0 !! j) as [cell|] eqn:Hj0; [|done].
    simpl in Hj. injection Hj as <-.
    apply updateCell_blinking in Hb as Hwhy. destruct Hwhy as [Hold| ->].
    + rewrite IsAnimating_false in Hidle.
      destruct cell as [c0|]; [|done]. simpl in Hold.
      apply bool_decide_eq_true in Hold. by destruct (Hidle j c0).
    + eapply Exists_impl; [apply Hex|]. intros k Hk. apply Hk.
Qed.

(** ** Pagination *)

Lemma wrap64_id (z : Z) : minInt64 <= z <= maxInt64 -> wrap64 z = z.
Proof.
  unfold wrap64, minInt64, maxInt64. intros Hz.
  rewrite Z.mod_small; lia.
Qed.

Lemma effectivePerPage_pos (b : Board) : 0 < effectivePerPage b.
Proof.
  unfold effectivePerPage. destruct (Z.leb_spec (FlightsPerPage b) 0); lia.
Qed.

(** [ceilDiv] is the ceiling of the quotient. *)
Lemma ceilDiv_spec (n p : Z) :
  0 < p -> (ceilDiv n p - 1) * p < n <= ceilDiv n p * p.
Proof.
  intros Hp. unfold ceilDiv.
  pose proof (Z.div_mod (n + p - 1) p ltac:(lia)) as Hdm.
  pose proof (Z.mod_pos_bound (n + p - 1) p Hp) as Hmod. nia.
Qed.

Lemma ceilDiv_pos (n p : Z) : 0 < p -> 0 < n -> 1 <= ceilDiv n p.
Proof. intros Hp Hn. pose proof (ceilDiv_spec n p Hp). nia. Qed.

Lemma ceilDiv_zero (p : Z) : 0 < p -> ceilDiv 0 p = 0.
Proof. intros Hp. unfold ceilDiv. apply Z.div_small. lia. Qed.

(** What [updatePagination] computes when nothing overflows. *)
Lemma updatePagination_fits (b : Board) :
  fitsInt b ->
  let pages := Z.max 1 (ceilDiv (len (Flights b)) (effectivePerPage b)) in
  updatePagination b =
  {| Flights := Flights b;
     CurrentPage := if pages <=? CurrentPage b then pages - 1
                    else if CurrentPage b <? 0 then 0 else CurrentPage b;
     TotalPages := pages;
     AirportCode := AirportCode b; AirportTZ := AirportTZ b;
     FlightsPerPage := FlightsPerPage b; Error := Error b;
     Styles := Styles b |}.
Proof.
  intros Hfit pages. unfold fitsInt in Hfit. unfold updatePagination.
  pose proof (effectivePerPage_pos b) as Hp.
  pose proof (len_nonneg (Flights b)) as Hn.
  destruct (Z.eqb_spec (len (Flights b)) 0) as [Hz|Hnz].
  - subst pages. rewrite Hz, ceilDiv_zero by done.
    change (Z.max 1 0) with 1.
    destruct (Z.leb_spec 1 (CurrentPage b)); [done|].
    destruct (Z.ltb_spec (CurrentPage b) 0); [done|]. f_equal. lia.
  - assert (Z.quot (wrap64 (wrap64 (len (Flights b) + effectivePerPage b) - 1))
              (effectivePerPage b) = pages) as ->.
    { unfold maxInt64, minInt64 in *.
      rewrite !wrap64_id by (unfold maxInt64, minInt64; rewrite ?wrap64_id;
                             unfold maxInt64, minInt64; lia).
      rewrite Z.quot_div_nonneg by lia. subst pages.
      pose proof (ceilDiv_pos (len (Flights b)) (effectivePerPage b)).
      unfold ceilDiv in *. lia. }
    assert (1 <= pages <= maxInt64) as Hpages.
    { subst pages. pose proof (ceilDiv_spec (len (Flights b)) _ Hp).
      unfold maxInt64 in *. nia. }
    rewrite wrap64_id by (unfold maxInt64, minInt64 in *; lia).
    f_equal.
    destruct (Z.leb_spec pages (CurrentPage b)).
    + destruct (Z.ltb_spec (pages - 1) 0); lia.
    + reflexivity.
Qed.

Lemma updatePagination_paginated (b : Board) :
  fitsInt b -> paginated (updatePagination b).
Proof.
  intros Hfit. rewrite updatePagination_fits by done.
  unfold paginated. simpl. split; [reflexivity|].
  destruct (Z.leb_spec (Z.max 1 (ceilDiv (len (Flights b)) (effectivePerPage b)))
              (CurrentPage b)); [lia|].
  destruct (Z.ltb_spec (CurrentPage b) 0); lia.
Qed.

Lemma updatePagination_fixpoint (b : Board) :
  fitsInt b -> paginated b -> updatePagination b = b.
Proof.
  intros Hfit [Htotal Hcur]. rewrite updatePagination_fits by done.
  rewrite <- Htotal.
  destruct (Z.leb_spec (TotalPages b) (CurrentPage b)); [lia|].
  destruct (Z.ltb_spec (CurrentPage b) 0); [lia|]. by destruct b.
Qed.

Lemma NewBoard_paginated styles code tz perPage :
  paginated (NewBoard styles code tz perPage).
Proof.
  unfold paginated. simpl. split; [|lia].
  change (len []) with 0. rewrite ceilDiv_zero; [reflexivity|].
  apply effectivePerPage_pos.
Qed.

Lemma paginated_total_bounds (b : Board) :
  paginated b -> fitsInt b -> 1 <= TotalPages b <= maxInt64.
Proof.
  intros [Htotal _] Hfit. rewrite Htotal. unfold fitsInt in Hfit.
  pose proof (effectivePerPage_pos b) as Hp.
  pose proof (len_nonneg (Flights b)) as Hn.
  pose proof (ceilDiv_spec (len (Flights b)) _ Hp).
  unfold maxInt64 in *. nia.
Qed.

Lemma NextPage_paginated (b : Board) :
  paginated b -> fitsInt b ->
  NextPage b =
  Some (setCurrentPage b ((CurrentPage b + 1) mod TotalPages b)).
Proof.
  intros Hpag Hfit. unfold NextPage.
  rewrite updatePagination_fixpoint by done.
  pose proof (paginated_total_bounds b Hpag Hfit) as Htotal.
  destruct Hpag as [_ Hcur].
  destruct (Z.eqb_spec (TotalPages b) 0); [lia|].
  rewrite wrap64_id by (unfold minInt64, maxInt64 in *; lia).
  rewrite Z.rem_mod_nonneg by lia. reflexivity.
Qed.

Lemma setCurrentPage_paginated (b : Board) (page : Z) :
  paginated b -> 0 <= page < TotalPages b ->
  paginated (setCurrentPage b page).
Proof. intros [Htotal _] Hpage. by split. Qed.

Lemma NextPageTimes_paginated (k : nat) :
  forall b, paginated b -> fitsInt b ->
    NextPageTimes k b =
    Some (setCurrentPage b ((CurrentPage b + Z.of_nat k) mod TotalPages b)).
Proof.
  induction k as [|k IH]; intros b Hpag Hfit.
  - pose proof (proj2 Hpag) as Hcur. simpl.
    rewrite Z.add_0_r, Z.mod_small by done. by destruct b.
  - pose proof (paginated_total_bounds b Hpag Hfit) as Htotal.
    cbn [NextPageTimes]. rewrite NextPage_paginated by done. simpl.
    rewrite IH.
    + simpl. unfold setCurrentPage. simpl. do 2 f_equal.
      rewrite Zplus_mod_idemp_l. f_equal. lia.
    + apply setCurrentPage_paginated; [done|].
      apply Z.mod_pos_bound. lia.
    + done.
Qed.

(** C6. Rotation wraps.  On a board that satisfies the pagination
    invariant one [NextPage] moves the current page to the next one modulo
    the number of pages (from the last page to page 0) and changes nothing
    else, and [TotalPages] calls in succession give back the board, so the
    current page is the original one. *)
Theorem NextPage_rotation (b : Board) :
  paginated b -> fitsInt b ->
  exists b1,
    NextPage b = Some b1 /\
    b1 = setCurrentPage b (CurrentPage b1) /\
    CurrentPage b1 = (CurrentPage b + 1) mod TotalPages b /\
    CurrentPage b1 =
      (if CurrentPage b =? TotalPages b - 1 then 0 else CurrentPage b + 1) /\
    exists bn,
      NextPageTimes (Z.to_nat (TotalPages b)) b = Some bn /\
      bn = b /\ CurrentPage bn = CurrentPage b.
Proof.
  intros Hpag Hfit.
  pose proof (paginated_total_bounds b Hpag Hfit) as Htotal.
  pose proof (proj2 Hpag) as Hcur.
  eexists. split; [by apply NextPage_paginated|]. simpl.
  split; [reflexivity|]. split; [reflexivity|]. split.
  - destruct (Z.eqb_spec (CurrentPage b) (TotalPages b - 1)) as [Hlast|Hnot].
    + replace (CurrentPage b + 1) with (TotalPages b) by lia.
      apply Z_mod_same_full.
    + apply Z.mod_small. lia.
  - exists b. rewrite NextPageTimes_paginated by done.
    rewrite Z2Nat.id by lia.
    replace (CurrentPage b + TotalPages b)
      with (CurrentPage b + 1 * TotalPages b) by lia.
    rewrite Z.mod_add by lia. rewrite Z.mod_small by done.
    split; [|done]. by destruct b.
Qed.

(** ** The current page *)

Lemma NewFlightRow_nil (clk : RowClock) : NewFlightRow None clk = Some fillerRow.
Proof. reflexivity. Qed.

Lemma fillLoop_frame (n : nat) :
  forall (i : nat) rows result,
    (i + n <= length result)%nat ->
    fillLoop (Z.of_nat i) n rows result =
    Some (rows ++ replicate n fillerRow,
          take i result ++ (Some <$> seq (length rows) n) ++
          drop (i + n) result).
Proof.
  induction n as [|n IH]; intros i rows result Hlen.
  - simpl. rewrite Nat.add_0_r, take_drop, app_nil_r. reflexivity.
  - cbn [fillLoop]. rewrite NewFlightRow_nil. simpl.
    destruct (Z.leb_spec 0 (Z.of_nat i)); [|lia].
    destruct (Z.ltb_spec (Z.of_nat i) (len result)); [|unfold len in *; lia].
    simpl. replace (Z.of_nat i + 1) with (Z.of_nat (S i)) by lia.
    rewrite Nat2Z.id.
    rewrite IH by (rewrite length_insert; lia).
    rewrite length_app. simpl length.
    rewrite drop_insert_lt by lia.
    rewrite (take_S_r _ i (Some (length rows)))
      by (apply list_lookup_insert_eq; lia).
    rewrite take_insert_ge by lia.
    rewrite <- !app_assoc. simpl.
    replace (length rows + 1)%nat with (S (length rows)) by lia.
    replace (i + S n)%nat with (S i + n)%nat by lia.
    reflexivity.
Qed.

Lemma copyInto_nil_page {A : Type} (n : nat) (src : list A) :
  (length src <= n)%nat ->
  copyInto (replicate n None) (Some <$> src) =
  (Some <$> src) ++ replicate (n - length src) None.
Proof.
  intros Hlen. unfold copyInto.
  rewrite length_replicate, length_fmap.
  rewrite take_ge by (rewrite length_fmap; lia).
  by rewrite drop_replicate.
Qed.

Lemma take_length_take {A : Type} (l : list A) (n : nat) :
  take (length (take n l)) l = take n l.
Proof.
  rewrite length_take. destruct (Nat.le_ge_cases n (length l)).
  - by rewrite Nat.min_l by lia.
  - rewrite Nat.min_r by lia. by rewrite !take_ge by lia.
Qed.

Lemma copyActual_page (flights : list nat) (start perPage : Z) :
  0 <= start -> 0 < perPage -> start + perPage <= maxInt64 ->
  let real := take (Z.to_nat perPage) (drop (Z.to_nat start) flights) in
  copyActual flights start (start + perPage)
    (replicate (Z.to_nat perPage) None) =
  Some (Z.of_nat (length real),
        (Some <$> real) ++ replicate (Z.to_nat perPage - length real) None).
Proof.
  intros Hstart Hp Hfit real. unfold copyActual.
  pose proof (len_nonneg flights) as Hn.
  assert (length real <= Z.to_nat perPage)%nat as Hreal.
  { subst real. rewrite length_take. lia. }
  destruct (Z.ltb_spec start (len flights)) as [Hin|Hout].
  - destruct (Z.leb_spec (len flights) start); [lia|].
    set (actualEnd := if len flights <? start + perPage
                      then len flights else start + perPage).
    assert (start <= actualEnd <= len flights /\
            actualEnd - start = Z.of_nat (length real)) as [Hrange Hcount].
    { subst actualEnd real. rewrite length_take, length_drop.
      unfold len in *.
      destruct (Z.ltb_spec (Z.of_nat (length flights)) (start + perPage)); lia. }
    unfold sliceRange.
    destruct (Z.ltb_spec start 0); [lia|].
    destruct (Z.ltb_spec actualEnd start); [lia|].
    destruct (Z.ltb_spec (len flights) actualEnd); [lia|]. simpl.
    rewrite wrap64_id by (unfold minInt64, maxInt64 in *; lia).
    assert (take (Z.to_nat (actualEnd - start)) (drop (Z.to_nat start) flights)
            = real) as ->.
    { rewrite Hcount, Nat2Z.id. subst real. apply take_length_take. }
    rewrite copyInto_nil_page by done. by rewrite Hcount.
  - assert (real = []) as Hnil.
    { subst real. rewrite drop_ge by (unfold len in *; lia). by rewrite take_nil. }
    rewrite Hnil. simpl. by rewrite Nat.sub_0_r.
Qed.

(** The result of [GetCurrentPageFlights] for a page index that is not
    negative, when the index arithmetic stays within [int]. *)
Lemma GetCurrentPageFlights_closed (st : Store) :
  let b := board st in
  let perPage := effectivePerPage b in
  let real := take (Z.to_nat perPage)
                (drop (Z.to_nat (CurrentPage b * perPage)) (Flights b)) in
  let fillers := (Z.to_nat perPage - length real)%nat in
  0 <= CurrentPage b ->
  (CurrentPage b + 1) * perPage <= maxInt64 ->
  GetCurrentPageFlights st =
  Some ({| rowHeap := rowHeap st ++ replicate fillers fillerRow;
           sliceHeap := sliceHeap st; board := b |},
        (Some <$> real) ++ (Some <$> seq (length (rowHeap st)) fillers)).
Proof.
  intros b perPage real fillers Hcur Hfit.
  pose proof (effectivePerPage_pos b) as Hp. fold perPage in Hp.
  assert (0 <= CurrentPage b * perPage) as Hstart by nia.
  assert (length real <= Z.to_nat perPage)%nat as Hreal.
  { subst real. rewrite length_take. lia. }
  unfold GetCurrentPageFlights. fold b perPage.
  rewrite (wrap64_id (CurrentPage b * perPage))
    by (unfold minInt64, maxInt64 in *; nia).
  rewrite (wrap64_id (CurrentPage b * perPage + perPage))
    by (unfold minInt64, maxInt64 in *; nia).
  rewrite copyActual_page by (try done; nia). fold real fillers. simpl.
  replace (Z.to_nat (perPage - Z.of_nat (length real))) with fillers by lia.
  pose proof (fillLoop_frame fillers (length real) (rowHeap st)
                ((Some <$> real) ++ replicate fillers None)) as Hfill.
  rewrite Hfill
    by (rewrite length_app, length_fmap, length_replicate; lia).
  simpl. rewrite take_app_length' by (by rewrite length_fmap).
  rewrite drop_ge
    by (rewrite length_app, length_fmap, length_replicate; lia).
  by rewrite app_nil_r.
Qed.

(** C4. Pagination completeness.  Whatever the number of rows, for every
    page index from 0 on, [GetCurrentPageFlights] returns exactly
    [flightsPerPage] entries (10 when the configured value is not
    positive), none of them nil: the rows [start, start + flightsPerPage)
    of the row list as far as they exist, [start] being
    [CurrentPage * flightsPerPage], followed by freshly allocated rows
    without a flight, as many as the page lacks. *)
Theorem GetCurrentPageFlights_page (st : Store) :
  let b := board st in
  let perPage := effectivePerPage b in
  let start := Z.to_nat (CurrentPage b * perPage) in
  let real := take (Z.to_nat perPage) (drop start (Flights b)) in
  let fillers := (Z.to_nat perPage - length real)%nat in
  0 <= CurrentPage b ->
  (CurrentPage b + 1) * perPage <= maxInt64 ->
  exists st' page,
    GetCurrentPageFlights st = Some (st', page) /\
    len page = perPage /\
    page = (Some <$> real) ++ (Some <$> seq (length (rowHeap st)) fillers) /\
    (forall i p, real !! i = Some p -> Flights b !! (start + i)%nat = Some p) /\
    length real = Nat.min (Z.to_nat perPage) (length (Flights b) - start) /\
    rowHeap st' = rowHeap st ++ replicate fillers fillerRow /\
    Flight_ fillerRow = None /\
    sliceHeap st' = sliceHeap st /\ board st' = b.
Proof.
  intros b perPage start real fillers Hcur Hfit.
  pose proof (effectivePerPage_pos b) as Hp. fold perPage in Hp.
  eexists _, _. split; [by apply GetCurrentPageFlights_closed|].
  fold b perPage start real fillers. simpl.
  assert (length real = Nat.min (Z.to_nat perPage) (length (Flights b) - start))
    as Hreal by (subst real; by rewrite length_take, length_drop).
  split; [|split; [done|split; [|done]]].
  - unfold len. rewrite length_app, !length_fmap, length_seq. lia.
  - intros i p Hi. subst real.
    pose proof (lookup_lt_Some _ _ _ Hi) as Hlt. rewrite length_take in Hlt.
    rewrite lookup_take_lt in Hi by lia. by rewrite lookup_drop in Hi.
Qed.

(** ** Rows *)

Lemma Update_updatedText (at_ : AnimatedText) (w : Z) text clock :
  0 <= w -> wfField w at_ ->
  Update at_ text clock = Some (updatedText at_ text clock) /\
  wfField w (updatedText at_ text clock).
Proof.
  intros Hw [Hmax Hlen]. split.
  - apply Update_wf. split; [lia|]. by rewrite Hmax.
  - split; [done|]. simpl. by rewrite updatedChars_length.
Qed.

Lemma truncate_take (s : gostring) (n : Z) :
  0 <= n -> truncate s n = Some (take (Z.to_nat n) s).
Proof.
  intros Hn. unfold truncate, sliceTo, len.
  destruct (Z.leb_spec (Z.of_nat (length s)) n).
  - by rewrite take_ge by lia.
  - destruct (Z.ltb_spec n 0); [lia|].
    destruct (Z.ltb_spec (Z.of_nat (length s)) n); [lia|]. reflexivity.
Qed.

Lemma gateText_gateDisplay (f : Flight) : gateText f = Some (gateDisplay f).
Proof. unfold gateText. by rewrite truncate_take. Qed.

Lemma FlightRow_Update_updatedRow (fr : FlightRow) ptr f clk :
  wfRow fr ->
  FlightRow_Update fr ptr f clk = Some (updatedRow fr ptr f clk) /\
  wfRow (updatedRow fr ptr f clk).
Proof.
  intros (H1 & H2 & H3 & H4 & H5 & H6). unfold FlightRow_Update.
  rewrite !truncate_take, gateText_gateDisplay by lia.
  destruct (Update_updatedText _ 1 (statusText f) (ckStatus clk) ltac:(lia) H1)
    as [E1 W1].
  destruct (Update_updatedText _ 8 (flightNumText f) (ckFlightNum clk)
              ltac:(lia) H2) as [E2 W2].
  destruct (Update_updatedText _ 8 (timeText f) (ckTime clk) ltac:(lia) H3)
    as [E3 W3].
  destruct (Update_updatedText _ 20 (destinationText f) (ckDestination clk)
              ltac:(lia) H4) as [E4 W4].
  destruct (Update_updatedText _ 6 (gateDisplay f) (ckGate clk) ltac:(lia) H5)
    as [E5 W5].
  destruct (Update_updatedText _ 20 (remarksText f) (ckRemarks clk)
              ltac:(lia) H6) as [E6 W6].
  split; [|exact (conj W1 (conj W2 (conj W3 (conj W4 (conj W5 W6)))))].
  unfold statusText, flightNumText, timeText, destinationText, remarksText
    in *.
  change (Z.to_nat 8) with 8%nat. change (Z.to_nat 20) with 20%nat.
  rewrite E1. simpl. rewrite E2. simpl. rewrite E3. simpl.
  rewrite E4. simpl. rewrite E5. simpl. rewrite E6. reflexivity.
Qed.

Lemma fillerRow_wf : wfRow fillerRow.
Proof. repeat split. Qed.

Lemma NewFlightRow_updatedRow ptr f clk :
  NewFlightRow (Some (ptr, f)) clk = Some (updatedRow fillerRow ptr f clk).
Proof.
  change (NewFlightRow (Some (ptr, f)) clk)
    with (FlightRow_Update fillerRow ptr f clk).
  apply FlightRow_Update_updatedRow, fillerRow_wf.
Qed.

Lemma FlightRow_Tick_wf row clk : wfRow row -> wfRow (FlightRow_Tick row clk).
Proof.
  intros (H1 & H2 & H3 & H4 & H5 & H6).
  repeat split; simpl; rewrite ?length_imap;
    first [apply H1|apply H2|apply H3|apply H4|apply H5|apply H6].
Qed.

(** ** The two loops of [UpdateFlights] *)

Lemma imap_id_row {A : Type} (l : list A) : imap (fun _ x => x) l = l.
Proof.
  apply list_eq. intros i. rewrite list_lookup_imap.
  by destruct (l !! i).
Qed.

Lemma rowAfter_unmapped (a : nat) (m : gmap (list ascii) nat) clk p flights :
  forall i row,
    (forall k, m !! k <> Some p) ->
    rowAfter a m clk p i flights row = row.
Proof.
  induction flights as [|f rest IH]; intros i row Hnone; simpl; [done|].
  destruct (decide _) as [Hp|_]; [by apply Hnone in Hp|]. by apply IH.
Qed.

Lemma rowsLoop_closed (a : nat) (m : gmap (list ascii) nat) clk flights :
  forall i rows newRows,
    Forall wfRow rows ->
    (forall k p, m !! k = Some p -> (p < length rows)%nat) ->
    rowsLoop a m clk i flights rows newRows =
    Some (imap (fun p row => rowAfter a m clk p i flights row) rows ++
            newRowsFor a m clk i flights,
          newRows ++ pointersFor m (length rows) flights).
Proof.
  induction flights as [|f rest IH]; intros i rows newRows Hwf Hrange.
  - simpl. by rewrite imap_id_row, !app_nil_r.
  - cbn [rowsLoop newRowsFor pointersFor].
    destruct (m !! FlightNumber f) as [p|] eqn:Hkey.
    + pose proof (Hrange _ _ Hkey) as Hp.
      destruct (lookup_lt_is_Some_2 rows p Hp) as [row Hrow].
      rewrite Hrow. simpl.
      pose proof (proj1 (Forall_lookup _ _) Hwf p row Hrow) as Hwfrow.
      destruct (FlightRow_Update_updatedRow row (a, i) f (clk i) Hwfrow)
        as [-> Hwfnew]. simpl.
      rewrite IH.
      * rewrite length_insert, <- app_assoc. simpl. do 3 f_equal.
        apply list_eq. intros q. rewrite !list_lookup_imap.
        destruct (decide (p = q)) as [<-|Hne].
        -- rewrite list_lookup_insert_eq by done. rewrite Hrow. simpl.
           rewrite Hkey. by destruct (decide _).
        -- rewrite list_lookup_insert_ne by done.
           destruct (rows !! q) as [r|]; [|done]. simpl.
           rewrite Hkey. destruct (decide _) as [Heq|]; [|done].
           by injection Heq.
      * by apply Forall_insert.
      * intros k q Hq. rewrite length_insert. by eapply Hrange.
    + rewrite NewFlightRow_updatedRow. simpl.
      rewrite IH.
      * rewrite imap_app, length_app, <- !app_assoc. simpl.
        rewrite Nat.add_0_r, Nat.add_1_r.
        rewrite (rowAfter_unmapped a m clk (length rows))
          by (intros k Hk; apply Hrange in Hk; lia).
        do 3 f_equal.
        apply imap_ext. intros q r _. simpl. rewrite Hkey.
        by destruct (decide _).
      * apply Forall_app. split; [done|]. apply Forall_singleton.
        apply (FlightRow_Update_updatedRow fillerRow), fillerRow_wf.
      * intros k q Hq. rewrite length_app. apply Hrange in Hq. lia.
Qed.

Lemma rowKey_cases rows slices p k :
  rowKey rows slices p = Some k <->
  exists row ptr f, rows !! p = Some row /\ Flight_ row = Some ptr /\
                    derefFlight slices ptr = Some f /\ FlightNumber f = k.
Proof.
  unfold rowKey. split.
  - destruct (rows !! p) as [row|]; [|done]. simpl.
    destruct (Flight_ row) as [ptr|] eqn:Hptr; [|done]. simpl.
    destruct (derefFlight slices ptr) as [f|] eqn:Hf; [|done]. simpl.
    intros [= <-]. by exists row, ptr, f.
  - intros (row & ptr & f & -> & Hptr & Hf & <-). simpl.
    rewrite Hptr. simpl. by rewrite Hf.
Qed.

Lemma existingMapLoop_closed rows slices ptrs :
  forall m0 : gmap (list ascii) nat,
    Forall (fun p => (p < length rows)%nat) ptrs ->
    Forall (fun row => forall ptr, Flight_ row = Some ptr ->
              is_Some (derefFlight slices ptr)) rows ->
    exists m,
      existingMapLoop rows slices ptrs m0 = Some m /\
      (forall k p, m !! k = Some p ->
         m0 !! k = Some p \/ (p ∈ ptrs /\ rowKey rows slices p = Some k)) /\
      (forall k, is_Some (m0 !! k) \/
                 (exists p, p ∈ ptrs /\ rowKey rows slices p = Some k) ->
                 is_Some (m !! k)).
Proof.
  induction ptrs as [|p rest IH]; intros m0 Hrange Hvalid.
  - exists m0. split; [done|]. split; [by left|].
    intros k [Hk|(p & Hp & _)]; [done|]. by apply elem_of_nil in Hp.
  - apply Forall_cons in Hrange as [Hp Hrange]. cbn [existingMapLoop].
    destruct (lookup_lt_is_Some_2 rows p Hp) as [row Hrow].
    rewrite Hrow. simpl.
    destruct (Flight_ row) as [ptr|] eqn:Hptr.
    + pose proof (proj1 (Forall_lookup _ _) Hvalid p row Hrow ptr Hptr)
        as [f Hf].
      rewrite Hf. simpl.
      assert (rowKey rows slices p = Some (FlightNumber f)) as Hkey.
      { apply rowKey_cases. by exists row, ptr, f. }
      destruct (IH (<[FlightNumber f := p]> m0) Hrange Hvalid)
        as (m & -> & Hsub & Hsup).
      exists m. split; [done|]. split.
      * intros k q Hq. apply Hsub in Hq as [Hq|[Hq Hk]].
        -- destruct (decide (FlightNumber f = k)) as [<-|Hne].
           ++ rewrite lookup_insert_eq in Hq. injection Hq as <-.
              right. split; [apply elem_of_cons; by left|done].
           ++ rewrite lookup_insert_ne in Hq by done. by left.
        -- right. split; [apply elem_of_cons; by right|done].
      * intros k Hk. apply Hsup.
        destruct (decide (FlightNumber f = k)) as [<-|Hne].
        -- left. rewrite lookup_insert_eq. by eexists.
        -- destruct Hk as [Hk|(q & Hq & Hqk)].
           ++ left. by rewrite lookup_insert_ne.
           ++ apply elem_of_cons in Hq as [->|Hq].
              ** rewrite Hkey in Hqk. by injection Hqk.
              ** right. by exists q.
    + destruct (IH m0 Hrange Hvalid) as (m & -> & Hsub & Hsup).
      exists m. split; [done|]. split.
      * intros k q Hq. apply Hsub in Hq as [Hq|[Hq Hk]]; [by left|].
        right. split; [apply elem_of_cons; by right|done].
      * intros k [Hk|(q & Hq & Hqk)]; apply Hsup; [by left|].
        apply elem_of_cons in Hq as [->|Hq].
        -- apply rowKey_cases in Hqk as (row' & ptr & f & Hrow' & Hptr' & _).
           rewrite Hrow in Hrow'. injection Hrow' as <-. congruence.
        -- right. by exists q.
Qed.

Lemma rowAfter_app (a : nat) (m : gmap (list ascii) nat) clk p l1 :
  forall i l2 row,
    rowAfter a m clk p i (l1 ++ l2) row =
    rowAfter a m clk p (i + length l1) l2 (rowAfter a m clk p i l1 row).
Proof.
  induction l1 as [|f l1 IH]; intros i l2 row; simpl.
  - by rewrite Nat.add_0_r.
  - rewrite IH. f_equal. lia.
Qed.

Lemma rowAfter_none (a : nat) (m : gmap (list ascii) nat) clk p flights :
  forall i row,
    Forall (fun f => m !! FlightNumber f <> Some p) flights ->
    rowAfter a m clk p i flights row = row.
Proof.
  induction flights as [|f rest IH]; intros i row Hnone; simpl; [done|].
  apply Forall_cons in Hnone as [Hf Hrest].
  destruct (decide _); [done|]. by apply IH.
Qed.

Lemma rowAfter_wf (a : nat) (m : gmap (list ascii) nat) clk p flights :
  forall i row, wfRow row -> wfRow (rowAfter a m clk p i flights row).
Proof.
  induction flights as [|f rest IH]; intros i row Hwf; simpl; [done|].
  apply IH. destruct (decide _); [|done].
  by apply FlightRow_Update_updatedRow.
Qed.

(** The flight pointer of a row after the loop is the old one, or points
    into the slice that was passed in. *)
Lemma rowAfter_Flight (a : nat) (m : gmap (list ascii) nat) clk p flights :
  forall i row,
    Flight_ (rowAfter a m clk p i flights row) = Flight_ row \/
    exists j, (j < length flights)%nat /\
              Flight_ (rowAfter a m clk p i flights row) = Some (a, (i + j)%nat).
Proof.
  induction flights as [|f rest IH]; intros i row; simpl; [by left|].
  destruct (IH (S i) (if decide (m !! FlightNumber f = Some p)
                      then updatedRow row (a, i) f (clk i) else row))
    as [Hsame|(j & Hj & Hptr)].
  - rewrite Hsame. destruct (decide _); [|by left].
    right. exists 0%nat. split; [lia|]. simpl. by rewrite Nat.add_0_r.
  - right. exists (S j). split; [lia|]. rewrite Hptr. do 2 f_equal. lia.
Qed.

Lemma newRowsFor_spec (a : nat) (m : gmap (list ascii) nat) clk flights :
  forall i,
    Forall (fun row => wfRow row /\
              exists j, (j < length flights)%nat /\
                        Flight_ row = Some (a, (i + j)%nat))
           (newRowsFor a m clk i flights).
Proof.
  induction flights as [|f rest IH]; intros i; simpl; [constructor|].
  assert (Forall (fun row => wfRow row /\
            exists j, (j < S (length rest))%nat /\
                      Flight_ row = Some (a, (i + j)%nat))
            (newRowsFor a m clk (S i) rest)) as Hrest.
  { eapply Forall_impl; [apply (IH (S i))|].
    intros row [Hwf (j & Hj & Hptr)]. split; [done|].
    exists (S j). split; [lia|]. rewrite Hptr. do 2 f_equal. lia. }
  destruct (m !! FlightNumber f); [done|].
  constructor; [|done]. split.
  - apply (FlightRow_Update_updatedRow fillerRow), fillerRow_wf.
  - exists 0%nat. split; [lia|]. simpl. by rewrite Nat.add_0_r.
Qed.

Lemma pointersFor_length (m : gmap (list ascii) nat) flights :
  forall next, length (pointersFor m next flights) = length flights.
Proof.
  induction flights as [|f rest IH]; intros next; simpl; [done|].
  destruct (m !! FlightNumber f); simpl; by rewrite IH.
Qed.

Lemma pointersFor_range (a : nat) (m : gmap (list ascii) nat) clk flights :
  forall i next,
    (forall k p, m !! k = Some p -> (p < next)%nat) ->
    Forall (fun p => (p < next + length (newRowsFor a m clk i flights))%nat)
           (pointersFor m next flights).
Proof.
  induction flights as [|f rest IH]; intros i next Hrange; simpl;
    [constructor|].
  destruct (m !! FlightNumber f) as [p|] eqn:Hkey.
  - constructor; [apply Hrange in Hkey; lia|]. by apply IH.
  - constructor; [simpl; lia|]. simpl.
    eapply Forall_impl; [apply (IH (S i) (S next))|].
    + intros k p Hp. apply Hrange in Hp. lia.
    + simpl. intros p Hp. lia.
Qed.

(** From here on [sort.Slice] is any function with its contract. *)
Section WithSorter.
Context {sorter : SliceSorter} (Hsort : SortContract sorter).

Lemma sortSlice_length {A : Type} (less : A -> A -> bool) (l : list A) :
  length (sortSlice less l) = length l.
Proof. apply Permutation_length, (sortSlice_perm sorter Hsort). Qed.

Lemma derefFlight_insert (slices : list (list Flight)) a l l' ptr :
  slices !! a = Some l -> length l' = length l ->
  is_Some (derefFlight slices ptr) ->
  is_Some (derefFlight (<[a := l']> slices) ptr).
Proof.
  intros Ha Hlen. unfold derefFlight. destruct ptr as [b i]. simpl.
  destruct (decide (a = b)) as [<-|Hne].
  - rewrite Ha, list_lookup_insert_eq by (by eapply lookup_lt_Some).
    simpl. rewrite !lookup_lt_is_Some. lia.
  - by rewrite list_lookup_insert_ne.
Qed.

Lemma derefFlight_same (slices : list (list Flight)) a l i :
  (a < length slices)%nat ->
  derefFlight (<[a := l]> slices) (a, i) = l !! i.
Proof.
  intros Ha. unfold derefFlight. simpl.
  by rewrite list_lookup_insert_eq.
Qed.

(** What a call of [UpdateFlights] on a consistent store does. *)
Lemma UpdateFlights_closed (st : Store) (a : nat) clk flights :
  wfStore st -> sliceHeap st !! a = Some flights ->
  let sorted :=
    sortSlice lessDeparture (convertFlight (AirportTZ (board st)) <$> flights) in
  let slices := <[a := sorted]> (sliceHeap st) in
  exists m : gmap (list ascii) nat,
    existingMapLoop (rowHeap st) slices (Flights (board st)) ∅ = Some m /\
    (forall k p, m !! k = Some p ->
       p ∈ Flights (board st) /\ (p < length (rowHeap st))%nat /\
       rowKey (rowHeap st) slices p = Some k) /\
    (forall k p, p ∈ Flights (board st) ->
       rowKey (rowHeap st) slices p = Some k -> is_Some (m !! k)) /\
    UpdateFlights st a clk =
    Some {| rowHeap :=
              imap (fun p row => rowAfter a m clk p 0 sorted row) (rowHeap st)
              ++ newRowsFor a m clk 0 sorted;
            sliceHeap := slices;
            board := updatePagination
                       (setFlights (board st)
                          (pointersFor m (length (rowHeap st)) sorted)) |}.
Proof.
  intros (Hrows & Hptrs & Hboard) Ha sorted slices.
  assert (length sorted = length flights) as Hlen.
  { subst sorted. by rewrite sortSlice_length, length_fmap. }
  destruct (existingMapLoop_closed (rowHeap st) slices (Flights (board st)) ∅)
    as (m & Hm & Hsub & Hsup); [done| |].
  { eapply Forall_impl; [apply Hptrs|]. intros row Hrow ptr Hptr.
    eapply derefFlight_insert; eauto. }
  exists m. split; [done|]. split; [|split].
  - intros k p Hk. apply Hsub in Hk as [Hk|[Hp Hk]]; [done|].
    split; [done|]. split; [|done].
    by apply (proj1 (Forall_forall _ _) Hboard).
  - intros k p Hp Hk. apply Hsup. right. by exists p.
  - unfold UpdateFlights. rewrite Ha. simpl. fold sorted slices.
    rewrite Hm. simpl. rewrite rowsLoop_closed; [done..|].
    intros k p Hk. apply Hsub in Hk as [Hk|[Hp Hk]]; [done|].
    by apply (proj1 (Forall_forall _ _) Hboard).
Qed.

Lemma updatePagination_Flights (b : Board) :
  Flights (updatePagination b) = Flights b.
Proof. unfold updatePagination. by destruct (len (Flights b) =? 0). Qed.

Lemma updatePagination_frame (b : Board) :
  AirportCode (updatePagination b) = AirportCode b /\
  AirportTZ (updatePagination b) = AirportTZ b /\
  FlightsPerPage (updatePagination b) = FlightsPerPage b /\
  Error (updatePagination b) = Error b /\
  Styles (updatePagination b) = Styles b.
Proof. unfold updatePagination. by destruct (len (Flights b) =? 0). Qed.

(** [UpdateFlights] returns on every consistent store, for every slice of
    the store, and leaves the store consistent. *)
Lemma UpdateFlights_wfStore (st : Store) (a : nat) clk flights :
  wfStore st -> sliceHeap st !! a = Some flights ->
  exists st', UpdateFlights st a clk = Some st' /\ wfStore st'.
Proof.
  intros Hwf Ha.
  destruct (UpdateFlights_closed st a clk flights Hwf Ha)
    as (m & _ & Hsub & _ & Hrun).
  eexists. split; [exact Hrun|].
  destruct Hwf as (Hrows & Hptrs & Hboard).
  set (sorted := sortSlice lessDeparture
                   (convertFlight (AirportTZ (board st)) <$> flights)) in *.
  assert (length sorted = length flights) as Hlen.
  { subst sorted. by rewrite sortSlice_length, length_fmap. }
  assert (a < length (sliceHeap st))%nat as Hlt by (by eapply lookup_lt_Some).
  unfold wfStore. simpl. split; [|split].
  - apply Forall_app. split.
    + apply Forall_lookup. intros p row. rewrite list_lookup_imap.
      destruct (rowHeap st !! p) as [row0|] eqn:Hrow; [|done].
      simpl. intros [= <-]. apply rowAfter_wf.
      by apply (proj1 (Forall_lookup _ _) Hrows p).
    + eapply Forall_impl; [apply newRowsFor_spec|]. by intros row [Hrow _].
  - apply Forall_app. split.
    + apply Forall_lookup. intros p row. rewrite list_lookup_imap.
      destruct (rowHeap st !! p) as [row0|] eqn:Hrow; [|done].
      simpl. intros [= <-] ptr Hptr.
      destruct (rowAfter_Flight a m clk p sorted 0 row0)
        as [Hsame|(j & Hj & Hnew)].
      * eapply derefFlight_insert; [done..|].
        apply (proj1 (Forall_lookup _ _) Hptrs p row0 Hrow). congruence.
      * rewrite Hnew in Hptr. injection Hptr as <-.
        rewrite derefFlight_same by done. by apply lookup_lt_is_Some.
    + eapply Forall_impl; [apply newRowsFor_spec|].
      intros row [_ (j & Hj & Hnew)] ptr Hptr.
      rewrite Hnew in Hptr. injection Hptr as <-.
      rewrite derefFlight_same by done. by apply lookup_lt_is_Some.
  - rewrite updatePagination_Flights. simpl.
    rewrite length_app, length_imap.
    apply pointersFor_range. intros k p Hk. by apply Hsub in Hk as (_ & Hk & _).
Qed.

(** ** [sort.Slice] on short slices: the insertion sort *)

Lemma insertBack_perm {A : Type} (less : A -> A -> bool) x revPrefix :
  insertBack less x revPrefix ≡ₚ x :: revPrefix.
Proof.
  induction revPrefix as [|y rest IH]; simpl; [done|].
  destruct (less x y); [|done]. rewrite IH. apply Permutation_swap.
Qed.

Lemma insertionSort_perm {A : Type} (less : A -> A -> bool) (l : list A) :
  insertionSort less l ≡ₚ l.
Proof.
  unfold insertionSort. rewrite reverse_Permutation.
  assert (forall acc, fold_left (fun revPrefix x => insertBack less x revPrefix)
                        l acc ≡ₚ l ++ acc) as Hfold.
  { induction l as [|x l IH]; intros acc; simpl; [done|].
    rewrite IH, insertBack_perm. by rewrite Permutation_middle. }
  by rewrite Hfold, app_nil_r.
Qed.

Lemma StronglySorted_lookup {A : Type} (R : A -> A -> Prop) (l : list A) :
  StronglySorted R l ->
  forall i j x y, (i < j)%nat -> l !! i = Some x -> l !! j = Some y -> R x y.
Proof.
  induction 1 as [|z l Hsorted IH Hz]; intros i j x y Hij Hi Hj; [done|].
  destruct j as [|j]; [lia|]. simpl in Hj. destruct i as [|i]; simpl in Hi.
  - injection Hi as <-. rewrite Forall_forall in Hz. apply Hz.
    apply list_elem_of_lookup. eauto.
  - apply (IH i j); [lia|done..].
Qed.

Lemma insertBack_descending {A : Type} (less : A -> A -> bool) x revPrefix :
  StrictWeakOrder less -> descending less revPrefix ->
  descending less (insertBack less x revPrefix).
Proof.
  intros Hswo. unfold descending.
  induction revPrefix as [|y rest IH]; intros Hsorted; simpl.
  - repeat constructor.
  - apply StronglySorted_inv in Hsorted as [Hrest Hy].
    destruct (less x y) eqn:Hxy.
    + constructor; [by apply IH|].
      rewrite insertBack_perm. constructor; [|done].
      destruct (less y x) eqn:Hyx; [|done].
      pose proof (swo_trans less Hswo _ _ _ Hxy Hyx) as Hxx.
      by rewrite (swo_irrefl less Hswo) in Hxx.
    + constructor; [by constructor|]. constructor; [done|].
      eapply Forall_impl; [apply Hy|]. intros z Hz. simpl in Hz.
      by apply (swo_negtrans less Hswo x y z).
Qed.

Lemma insertionSort_sorted {A : Type} (less : A -> A -> bool) (l : list A) :
  StrictWeakOrder less -> sortedBy less (insertionSort less l).
Proof.
  intros Hswo. unfold insertionSort.
  assert (forall acc, descending less acc ->
            descending less
              (fold_left (fun revPrefix x => insertBack less x revPrefix) l acc))
    as Hfold.
  { induction l as [|x l IH]; intros acc Hacc; simpl; [done|].
    by apply IH, insertBack_descending. }
  specialize (Hfold [] ltac:(constructor)).
  set (r := fold_left _ l []) in *. clearbody r.
  intros i j x y Hij Hi Hj.
  pose proof (lookup_lt_Some _ _ _ Hj) as Hlen. rewrite length_reverse in Hlen.
  rewrite reverse_lookup in Hi by lia. rewrite reverse_lookup in Hj by lia.
  apply (StronglySorted_lookup _ r Hfold
           (length r - S j)%nat (length r - S i)%nat); [lia|done..].
Qed.

Lemma insertionSorter_contract : SortContract insertionSorter.
Proof.
  split; [exact @insertionSort_perm|exact @insertionSort_sorted].
Qed.

(** ** The insertion sort keeps ties in place *)

Lemma sublist_pair_lookup {A : Type} (l : list A) (x y : A) :
  [x; y] `sublist_of` l <->
  exists i j, (i < j)%nat /\ l !! i = Some x /\ l !! j = Some y.
Proof.
  split.
  - intros H. apply sublist_cons_l in H as (k1 & k2 & -> & H).
    apply sublist_cons_l in H as (k3 & k4 & -> & _).
    exists (length k1), (length k1 + S (length k3))%nat.
    split; [lia|]. split.
    + by rewrite list_lookup_middle.
    + rewrite lookup_app_r by lia.
      replace (length k1 + S (length k3) - length k1)%nat
        with (S (length k3)) by lia.
      simpl. by rewrite list_lookup_middle.
  - intros (i & j & Hij & Hi & Hj).
    rewrite <- (take_drop_middle l i x Hi).
    apply sublist_inserts_l, sublist_skip.
    apply singleton_sublist_l, list_elem_of_lookup.
    exists (j - S i)%nat. rewrite lookup_drop.
    by replace (S i + (j - S i))%nat with j by lia.
Qed.

(** A pair that stands in [l1 ++ l2] stands in [l1' ++ l2] when [l1'] has
    the elements of [l1] and the pairs of [l1]. *)
Lemma sublist_pair_app {A : Type} (l1 l1' l2 : list A) (x y : A) :
  l1' ≡ₚ l1 ->
  ([x; y] `sublist_of` l1 -> [x; y] `sublist_of` l1') ->
  [x; y] `sublist_of` l1 ++ l2 -> [x; y] `sublist_of` l1' ++ l2.
Proof.
  intros Hperm Hpairs H.
  apply sublist_app_r in H as (k1 & k2 & Hk & H1 & H2).
  destruct k1 as [|x' [|y' k1]]; simpl in Hk.
  - subst k2. by apply sublist_inserts_l.
  - injection Hk as <- <-.
    apply (sublist_app [x] _ [y]); [|done].
    apply singleton_sublist_l. rewrite Hperm.
    by apply singleton_sublist_l.
  - injection Hk as <- <- Hk. symmetry in Hk.
    apply app_eq_nil in Hk as [-> ->].
    apply sublist_inserts_r. by apply Hpairs.
Qed.

Lemma insertBack_stable {A : Type} (less : A -> A -> bool) (z : A)
    (revPrefix : list A) (x y : A) :
  less y x = false ->
  [x; y] `sublist_of` reverse revPrefix ++ [z] ->
  [x; y] `sublist_of` reverse (insertBack less z revPrefix).
Proof.
  intros Hxy. induction revPrefix as [|w rest IH]; simpl; [done|].
  destruct (less z w) eqn:Hzw; [|by rewrite !reverse_cons].
  rewrite !reverse_cons, <- (assoc_L (++)). simpl. intros H.
  apply sublist_app_r in H as (k1 & k2 & Hk & H1 & H2).
  destruct k1 as [|x' [|y' k1]]; simpl in Hk.
  - subst k2. apply sublist_pair_lookup in H2 as (i & j & Hij & Hi & Hj).
    destruct i as [|i]; destruct j as [|[|j]]; simplify_eq/=; try lia.
    congruence.
  - injection Hk as <- <-.
    apply singleton_sublist_l in H2.
    apply elem_of_cons in H2 as [->|H2].
    + apply (sublist_app [x] _ [w]); [|done].
      apply singleton_sublist_l.
      rewrite reverse_Permutation, insertBack_perm. right.
      apply singleton_sublist_l in H1. by rewrite reverse_Permutation in H1.
    + apply list_elem_of_singleton in H2 as ->.
      apply sublist_inserts_r, IH.
      by apply (sublist_app [x] _ [z]).
  - injection Hk as <- <- Hk. symmetry in Hk.
    apply app_eq_nil in Hk as [-> ->].
    apply sublist_inserts_r, IH. by apply sublist_inserts_r.
Qed.

(** Two elements of which the second is not [less] than the first keep
    their order. *)
Lemma insertionSort_stable {A : Type} (less : A -> A -> bool) (l : list A)
    (x y : A) :
  less y x = false ->
  [x; y] `sublist_of` l -> [x; y] `sublist_of` insertionSort less l.
Proof.
  intros Hxy. unfold insertionSort.
  assert (forall acc,
            [x; y] `sublist_of` reverse acc ++ l ->
            [x; y] `sublist_of`
              reverse (fold_left (fun revPrefix x => insertBack less x revPrefix)
                         l acc)) as Hgen.
  { induction l as [|z l IH]; intros acc; simpl.
    - by rewrite (right_id_L [] (++)).
    - intros H. apply IH.
      rewrite (cons_middle z), (assoc_L (++)) in H.
      revert H. apply sublist_pair_app.
      + rewrite !reverse_Permutation, insertBack_perm.
        by rewrite Permutation_app_comm.
      + by apply insertBack_stable. }
  intros H. by apply (Hgen []).
Qed.

Lemma insertionSorter_short : insertionOnShort insertionSorter.
Proof. by intros A less l _. Qed.

(** [sort.Slice] hands a slice of at most twelve elements to the insertion
    sort as it is. *)
Lemma librarySorter_short : insertionOnShort librarySorter.
Proof.
  intros A less l Hlen. simpl. unfold sort.Slice. simpl.
  assert ((len l - 0 <=? sort.maxInsertion) = true) as ->.
  { apply Z.leb_le. unfold len, sort.maxInsertion. lia. }
  unfold sort.insertionSort_func. simpl. rewrite drop_0.
  unfold len. rewrite Z.sub_0_r, Nat2Z.id, firstn_all, drop_all.
  by rewrite (right_id_L [] (++)).
Qed.

(** ** Which row ends up where *)

Lemma pointersFor_mapped (m : gmap (list ascii) nat) flights :
  forall next i f q,
    flights !! i = Some f -> m !! FlightNumber f = Some q ->
    pointersFor m next flights !! i = Some q.
Proof.
  induction flights as [|g rest IH]; intros next i f q Hi Hq; [done|].
  simpl. destruct i as [|i]; simpl in Hi.
  - injection Hi as ->. by rewrite Hq.
  - destruct (m !! FlightNumber g); simpl; by eapply IH.
Qed.

(** A flight whose number is not in the map gets a row of its own: the
    pointer collected for it is a fresh address, and the row allocated
    there was seeded with this flight. *)
Lemma pointersFor_fresh (a : nat) (m : gmap (list ascii) nat) clk flights :
  forall i0 next i f,
    flights !! i = Some f -> m !! FlightNumber f = None ->
    exists c,
      pointersFor m next flights !! i = Some (next + c)%nat /\
      newRowsFor a m clk i0 flights !! c =
        Some (updatedRow fillerRow (a, (i0 + i)%nat) f (clk (i0 + i)%nat)).
Proof.
  induction flights as [|g rest IH]; intros i0 next i f Hi Hnone; [done|].
  simpl. destruct i as [|i]; simpl in Hi.
  - injection Hi as ->. rewrite Hnone. exists 0%nat. simpl.
    by rewrite !Nat.add_0_r.
  - destruct (m !! FlightNumber g).
    + destruct (IH (S i0) next i f Hi Hnone) as (c & Hptr & Hrow).
      exists c. simpl. rewrite Hptr, Hrow.
      by replace (S i0 + i)%nat with (i0 + S i)%nat by lia.
    + destruct (IH (S i0) (S next) i f Hi Hnone) as (c & Hptr & Hrow).
      exists (S c). simpl. rewrite Hptr, Hrow.
      replace (S i0 + i)%nat with (i0 + S i)%nat by lia.
      by replace (S next + c)%nat with (next + S c)%nat by lia.
Qed.

(** A row that exactly one flight of the list is mapped to receives
    exactly one [Update], with that flight. *)
Lemma rowAfter_unique (a : nat) (m : gmap (list ascii) nat) clk q flights
    i0 i f row :
  flights !! i = Some f -> m !! FlightNumber f = Some q ->
  (forall j g, flights !! j = Some g -> m !! FlightNumber g = Some q -> j = i) ->
  rowAfter a m clk q i0 flights row =
  updatedRow row (a, (i0 + i)%nat) f (clk (i0 + i)%nat).
Proof.
  intros Hi Hq Honly.
  rewrite <- (take_drop_middle flights i f Hi).
  rewrite rowAfter_app. simpl.
  pose proof (lookup_lt_Some _ _ _ Hi) as Hlen.
  rewrite length_take, Nat.min_l by lia.
  rewrite (rowAfter_none a m clk q (take i flights)).
  - destruct (decide _); [|done]. apply rowAfter_none.
    apply Forall_lookup. intros j g Hj Hg.
    rewrite lookup_drop in Hj. apply (Honly _ _ Hj) in Hg. lia.
  - apply Forall_lookup. intros j g Hj Hg.
    pose proof (lookup_lt_Some _ _ _ Hj) as Hjlen.
    rewrite length_take in Hjlen.
    rewrite lookup_take_lt in Hj by lia. apply (Honly _ _ Hj) in Hg. lia.
Qed.


(** The store after [UpdateFlights]: the slice holds the converted flights
    in sorted order, and the [i]-th entry of the board is the row that the
    map has for the [i]-th flight, or a row allocated for it. *)
Lemma UpdateFlights_rows (st : Store) (a : nat) clk flights :
  wfStore st -> sliceHeap st !! a = Some flights ->
  let sorted :=
    sortSlice lessDeparture (convertFlight (AirportTZ (board st)) <$> flights) in
  let slices := <[a := sorted]> (sliceHeap st) in
  exists st' (m : gmap (list ascii) nat),
    UpdateFlights st a clk = Some st' /\ wfStore st' /\
    sliceHeap st' = slices /\
    board st' =
      updatePagination (setFlights (board st) (Flights (board st'))) /\
    length (Flights (board st')) = length flights /\
    (forall k p, m !! k = Some p ->
       p ∈ Flights (board st) /\ (p < length (rowHeap st))%nat /\
       rowKey (rowHeap st) slices p = Some k) /\
    (forall k p, p ∈ Flights (board st) ->
       rowKey (rowHeap st) slices p = Some k -> is_Some (m !! k)) /\
    (forall i f, sorted !! i = Some f ->
       match m !! FlightNumber f with
       | Some q =>
           Flights (board st') !! i = Some q /\
           exists r0, rowHeap st !! q = Some r0 /\ wfRow r0 /\
             rowHeap st' !! q = Some (rowAfter a m clk q 0 sorted r0)
       | None =>
           exists p, Flights (board st') !! i = Some p /\
             (length (rowHeap st) <= p)%nat /\
             rowHeap st' !! p = Some (updatedRow fillerRow (a, i) f (clk i))
       end).
Proof.
  intros Hwf Ha sorted slices.
  destruct (UpdateFlights_wfStore st a clk flights Hwf Ha) as (st' & Hrun & Hwf').
  destruct (UpdateFlights_closed st a clk flights Hwf Ha)
    as (m & _ & Hsub & Hsup & Hclosed).
  fold sorted slices in Hsub, Hsup, Hclosed.
  rewrite Hclosed in Hrun. injection Hrun as <-.
  eexists _, m. split; [exact Hclosed|].
  simpl. rewrite updatePagination_Flights. simpl.
  split; [done|]. split; [done|]. split; [done|].
  split; [|split; [done|split; [done|]]].
  { rewrite pointersFor_length. subst sorted.
    by rewrite sortSlice_length, length_fmap. }
  intros i f Hi. destruct (m !! FlightNumber f) as [q|] eqn:Hkey.
  - split; [by eapply pointersFor_mapped|].
    destruct (Hsub _ _ Hkey) as (_ & Hq & _).
    destruct (lookup_lt_is_Some_2 _ _ Hq) as [r0 Hr0].
    exists r0. split; [done|]. split.
    + by apply (proj1 (Forall_lookup _ _) (proj1 Hwf) q).
    + rewrite lookup_app_l by (by rewrite length_imap).
      rewrite list_lookup_imap, Hr0. reflexivity.
  - destruct (pointersFor_fresh a m clk sorted 0 (length (rowHeap st)) i f Hi Hkey)
      as (c & Hptr & Hrow).
    exists (length (rowHeap st) + c)%nat. split; [done|]. split; [lia|].
    rewrite lookup_app_r by (rewrite length_imap; lia).
    rewrite length_imap.
    replace (length (rowHeap st) + c - length (rowHeap st))%nat with c by lia.
    exact Hrow.
Qed.

Lemma lessDeparture_swo : StrictWeakOrder lessDeparture.
Proof.
  unfold lessDeparture, Before. split.
  - intros x. apply Z.ltb_irrefl.
  - intros x y z. rewrite !Z.ltb_lt. lia.
  - intros x y z. rewrite !Z.ltb_ge. lia.
Qed.

Lemma convertFlight_FlightNumber tz f :
  FlightNumber (convertFlight tz f) = FlightNumber f.
Proof.
  unfold convertFlight. destruct tz; [|done].
  by destruct (EstimatedDeparture f).
Qed.

(** C5. Pagination invariant.  [NewBoard] establishes, and every
    [UpdateFlights] and every [NextPage] re-establishes,
    [TotalPages = max(1, ceil(rows / pageSize))] and
    [0 <= CurrentPage < TotalPages].  When the rows of an update leave the
    old page index at or beyond the new number of pages, the index becomes
    the last page [TotalPages - 1]; an index that is still a page is
    kept. *)
Theorem pagination_invariant :
  (forall styles code tz perPage,
      paginated (NewBoard styles code tz perPage)) /\
  (forall st a clk flights,
      wfStore st -> sliceHeap st !! a = Some flights ->
      len flights + effectivePerPage (board st) <= maxInt64 ->
      exists st',
        UpdateFlights st a clk = Some st' /\
        len (Flights (board st')) = len flights /\
        FlightsPerPage (board st') = FlightsPerPage (board st) /\
        paginated (board st') /\
        (TotalPages (board st') <= CurrentPage (board st) ->
         CurrentPage (board st') = TotalPages (board st') - 1) /\
        (0 <= CurrentPage (board st) < TotalPages (board st') ->
         CurrentPage (board st') = CurrentPage (board st))) /\
  (forall b, fitsInt b ->
      exists b', NextPage b = Some b' /\ Flights b' = Flights b /\
                 paginated b').
Proof.
  split; [apply NewBoard_paginated|]. split.
  - intros st a clk flights Hwf Ha Hfit.
    destruct (UpdateFlights_rows st a clk flights Hwf Ha)
      as (st' & m & Hrun & _ & _ & Hboard & Hlen & _).
    exists st'. split; [done|].
    assert (len (Flights (board st')) = len flights) as Hlen'
      by (unfold len; by rewrite Hlen).
    split; [done|].
    split; [rewrite Hboard;
            by rewrite (proj1 (proj2 (proj2 (updatePagination_frame _))))|].
    set (b := setFlights (board st) (Flights (board st'))) in *.
    assert (fitsInt b) as Hfitb.
    { unfold fitsInt. subst b. simpl. by rewrite Hlen'. }
    rewrite Hboard. split; [by apply updatePagination_paginated|].
    rewrite updatePagination_fits by done. simpl.
    set (pages := Z.max 1 _).
    split; intros Hcur.
    + destruct (Z.leb_spec pages (CurrentPage (board st))); [done|lia].
    + destruct (Z.leb_spec pages (CurrentPage (board st))); [lia|].
      destruct (Z.ltb_spec (CurrentPage (board st)) 0); [lia|done].
  - intros b Hfit. unfold NextPage.
    pose proof (updatePagination_paginated b Hfit) as Hpag.
    assert (fitsInt (updatePagination b)) as Hfit'.
    { unfold fitsInt, effectivePerPage in *.
      rewrite updatePagination_Flights.
      by rewrite (proj1 (proj2 (proj2 (updatePagination_frame b)))). }
    pose proof (paginated_total_bounds _ Hpag Hfit') as Htotal.
    destruct (Z.eqb_spec (TotalPages (updatePagination b)) 0); [lia|].
    eexists. split; [reflexivity|]. simpl.
    split; [apply updatePagination_Flights|].
    apply setCurrentPage_paginated; [done|].
    destruct Hpag as [_ Hcur].
    rewrite wrap64_id by (unfold minInt64, maxInt64 in *; lia).
    rewrite Z.rem_mod_nonneg by lia. apply Z.mod_pos_bound. lia.
Qed.

(** When the [i]-th flight of the sorted slice is the only one with its
    flight number, the [i]-th entry of the board is a row that received
    exactly one [Update], with that flight: the row the board had for the
    number, or a new row if it had none. *)
Lemma UpdateFlights_row (st : Store) (a : nat) clk flights i f :
  wfStore st -> sliceHeap st !! a = Some flights ->
  let sorted :=
    sortSlice lessDeparture (convertFlight (AirportTZ (board st)) <$> flights) in
  let slices := <[a := sorted]> (sliceHeap st) in
  sorted !! i = Some f ->
  (forall j g, sorted !! j = Some g -> FlightNumber g = FlightNumber f -> j = i) ->
  exists st' p r0,
    UpdateFlights st a clk = Some st' /\
    Flights (board st') !! i = Some p /\
    wfRow r0 /\
    rowHeap st' !! p = Some (updatedRow r0 (a, i) f (clk i)) /\
    ((p ∈ Flights (board st) /\
      rowKey (rowHeap st) slices p = Some (FlightNumber f) /\
      rowHeap st !! p = Some r0) \/
     ((forall q, q ∈ Flights (board st) ->
         rowKey (rowHeap st) slices q <> Some (FlightNumber f)) /\
      (length (rowHeap st) <= p)%nat /\ r0 = fillerRow)).
Proof.
  intros Hwf Ha sorted slices Hi Honly.
  destruct (UpdateFlights_rows st a clk flights Hwf Ha)
    as (st' & m & Hrun & _ & _ & _ & _ & Hsub & Hsup & Hrows).
  fold sorted slices in Hsub, Hsup, Hrows.
  specialize (Hrows i f Hi).
  destruct (m !! FlightNumber f) as [q|] eqn:Hkey.
  - destruct Hrows as (Hptr & r0 & Hr0 & Hwf0 & Hrow).
    exists st', q, r0. split; [done|]. split; [done|]. split; [done|].
    destruct (Hsub _ _ Hkey) as (Hq & _ & Hqkey).
    split; [|by left].
    rewrite Hrow. f_equal.
    apply (rowAfter_unique a m clk q sorted 0 i f r0 Hi Hkey).
    intros j g Hj Hg. apply (Honly j g Hj).
    destruct (Hsub _ _ Hg) as (_ & _ & Hgkey). congruence.
  - destruct Hrows as (p & Hptr & Hfresh & Hrow).
    exists st', p, fillerRow. split; [done|]. split; [done|].
    split; [apply fillerRow_wf|]. split; [done|]. right.
    split; [|done]. intros q Hq Hqkey.
    destruct (Hsup _ _ Hq Hqkey) as [q' Hq']. congruence.
Qed.

Lemma Permutation_lookup_elem {A : Type} (l l' : list A) i x :
  l ≡ₚ l' -> l !! i = Some x -> x ∈ l'.
Proof.
  intros Hperm Hi. rewrite <- Hperm. apply list_elem_of_lookup. eauto.
Qed.

(** The slice that was passed in holds, after the call, the converted
    flights as [sort.Slice] arranged them. *)
Lemma UpdateFlights_slice (st : Store) (a : nat) clk flights :
  wfStore st -> sliceHeap st !! a = Some flights ->
  let sorted :=
    sortSlice lessDeparture (convertFlight (AirportTZ (board st)) <$> flights) in
  exists st',
    UpdateFlights st a clk = Some st' /\
    sliceHeap st' = <[a := sorted]> (sliceHeap st) /\
    sliceHeap st' !! a = Some sorted /\
    sorted ≡ₚ convertFlight (AirportTZ (board st)) <$> flights.
Proof.
  intros Hwf Ha sorted.
  destruct (UpdateFlights_rows st a clk flights Hwf Ha)
    as (st' & m & Hrun & _ & Hslices & _).
  exists st'. split; [done|]. split; [done|]. split.
  - rewrite Hslices. apply list_lookup_insert_eq. by eapply lookup_lt_Some.
  - apply (sortSlice_perm sorter Hsort).
Qed.


(** ** Remarks of delayed flights *)

Lemma convertFlight_delayed tz f est :
  Status f = StatusDelayed -> EstimatedDeparture f = Some est ->
  Status (convertFlight (Some tz) f) = StatusDelayed /\
  EstimatedDeparture (convertFlight (Some tz) f) = Some (In_ est tz) /\
  Remarks (convertFlight (Some tz) f) =
    str "Delayed EST: " ++ Format1504 (In_ est tz).
Proof. intros Hs He. simpl. rewrite He. simpl. by rewrite Hs. Qed.

Lemma convertFlight_delayed_inv tz f g est :
  g = convertFlight (Some tz) f ->
  Status g = StatusDelayed -> EstimatedDeparture g = Some est ->
  location est = tz /\
  Remarks g = str "Delayed EST: " ++ Format1504 est.
Proof.
  intros -> Hs He. simpl in *.
  destruct (EstimatedDeparture f) as [est0|]; simpl in *; [|done].
  injection He as <-. by rewrite Hs.
Qed.

Lemma remarks_field_text (at_ : AnimatedText) (t : Time) clock :
  MaxLength at_ = 20 ->
  NewText (updatedText at_ (take 20 (str "Delayed EST: " ++ Format1504 t)) clock)
  = str "Delayed EST: " ++ Format1504 t ++ str "  ".
Proof. intros Hw. simpl. rewrite Hw. reflexivity. Qed.

(** C8. Delayed-remarks synthesis.  On a board with a timezone, every
    snapshot that is delayed and carries an estimated departure time comes
    out of [UpdateFlights] with its estimated time converted into the
    board's timezone and its remarks equal to "Delayed EST: HH:MM", HH:MM
    being that converted (local) time; and the row that displays the
    snapshot has this string, filled up to the 20 columns of the remarks
    field, as the text of its remarks field. *)
Theorem delayed_remarks (st : Store) (a : nat) clk flights tz :
  wfStore st -> sliceHeap st !! a = Some flights ->
  AirportTZ (board st) = Some tz ->
  exists st' sorted,
    UpdateFlights st a clk = Some st' /\
    sliceHeap st' !! a = Some sorted /\
    sorted ≡ₚ convertFlight (Some tz) <$> flights /\
    (forall f est,
       f ∈ flights -> Status f = StatusDelayed ->
       EstimatedDeparture f = Some est ->
       convertFlight (Some tz) f ∈ sorted /\
       EstimatedDeparture (convertFlight (Some tz) f) = Some (In_ est tz) /\
       Remarks (convertFlight (Some tz) f) =
         str "Delayed EST: " ++ Format1504 (In_ est tz)) /\
    (forall i g est,
       sorted !! i = Some g -> Status g = StatusDelayed ->
       EstimatedDeparture g = Some est ->
       location est = tz /\
       Remarks g = str "Delayed EST: " ++ Format1504 est /\
       ((forall j h, sorted !! j = Some h ->
           FlightNumber h = FlightNumber g -> j = i) ->
        exists p row,
          Flights (board st') !! i = Some p /\
          rowHeap st' !! p = Some row /\
          Flight_ row = Some (a, i) /\
          NewText (RemarksAnim row) =
            str "Delayed EST: " ++ Format1504 est ++ str "  ")).
Proof.
  intros Hwf Ha Htz.
  destruct (UpdateFlights_slice st a clk flights Hwf Ha)
    as (st' & Hrun & _ & Hslice & Hperm).
  rewrite Htz in Hslice, Hperm.
  eexists st', _. split; [done|]. split; [done|]. split; [done|]. split.
  - intros f est Hf Hs He.
    destruct (convertFlight_delayed tz f est Hs He) as (_ & He' & Hr).
    split; [|done]. rewrite Hperm. by apply list_elem_of_fmap_2.
  - intros i g est Hi Hs He.
    assert (exists f, g = convertFlight (Some tz) f) as [f Hg].
    { apply (Permutation_lookup_elem _ _ _ _ Hperm) in Hi.
      apply list_elem_of_fmap in Hi as (f & -> & _). by exists f. }
    destruct (convertFlight_delayed_inv tz f g est Hg Hs He) as [Hloc Hrem].
    split; [done|]. split; [done|]. intros Honly.
    destruct (UpdateFlights_row st a clk flights i g Hwf Ha)
      as (st'' & p & r0 & Hrun' & Hptr & Hwf0 & Hrow & _);
      [by rewrite Htz..|].
    rewrite Hrun in Hrun'. injection Hrun' as <-.
    eexists p, _. split; [done|]. split; [done|]. split; [done|].
    simpl. unfold remarksText. rewrite Hrem.
    destruct Hwf0 as (_ & _ & _ & _ & _ & [Hmax _]).
    rewrite Hmax. reflexivity.
Qed.

(** ** Order of the rows *)

(** The conversion to the timezone of the airport keeps the instant. *)
Lemma convertFlight_departure tz f :
  unixNano (ScheduledDeparture (convertFlight tz f)) =
  unixNano (ScheduledDeparture f).
Proof.
  destruct tz as [tz|]; [|done]. unfold convertFlight.
  by destruct (EstimatedDeparture f).
Qed.

Lemma sorted_ascending (l : list Flight) :
  sortedBy lessDeparture (sortSlice lessDeparture l).
Proof. apply (sortSlice_sorted sorter Hsort), lessDeparture_swo. Qed.

Lemma NoDup_keys_unique (sorted flights : list Flight) tz i f :
  sorted ≡ₚ convertFlight tz <$> flights ->
  NoDup (FlightNumber <$> flights) ->
  sorted !! i = Some f ->
  forall j g, sorted !! j = Some g -> FlightNumber g = FlightNumber f -> j = i.
Proof.
  intros Hperm Hnodup Hi j g Hj Hkey.
  assert (NoDup (FlightNumber <$> sorted)) as Hnd.
  { rewrite Hperm, <- list_fmap_compose.
    erewrite list_fmap_ext; [exact Hnodup|].
    intros k x _. simpl. apply convertFlight_FlightNumber. }
  apply (NoDup_lookup _ j i (FlightNumber f) Hnd);
    rewrite list_lookup_fmap; [rewrite Hj|rewrite Hi]; simpl; congruence.
Qed.

(** C7 (as amended).  [UpdateFlights] leaves the snapshot slice a
    rearrangement of the converted snapshots in which no flight is
    scheduled before one that precedes it; the board has one row per
    snapshot; and when the flight numbers of the snapshots are pairwise
    distinct, the [i]-th row of the board displays the [i]-th flight of
    that slice, so that the rows are in ascending order of scheduled
    departure.  Of two such snapshots with equal scheduled times the one
    that comes first in the input is displayed by the higher row when the
    snapshot has at most twelve flights, the length up to which
    [sort.Slice] is an insertion sort.  Nothing is said about the order of
    equal scheduled times in a longer snapshot. *)
Theorem rows_ascending (st : Store) (a : nat) clk flights :
  wfStore st -> sliceHeap st !! a = Some flights ->
  exists st' sorted,
    UpdateFlights st a clk = Some st' /\
    sliceHeap st' !! a = Some sorted /\
    sorted ≡ₚ convertFlight (AirportTZ (board st)) <$> flights /\
    (forall i j f g, (i < j)%nat ->
       sorted !! i = Some f -> sorted !! j = Some g ->
       unixNano (ScheduledDeparture f) <= unixNano (ScheduledDeparture g)) /\
    length (Flights (board st')) = length flights /\
    (NoDup (FlightNumber <$> flights) ->
     forall i f, sorted !! i = Some f ->
       exists p row,
         Flights (board st') !! i = Some p /\
         rowHeap st' !! p = Some row /\
         Flight_ row = Some (a, i) /\
         derefFlight (sliceHeap st') (a, i) = Some f) /\
    (insertionOnShort sorter -> (length flights <= 12)%nat ->
     NoDup (FlightNumber <$> flights) ->
     forall i j f g, (i < j)%nat ->
       flights !! i = Some f -> flights !! j = Some g ->
       unixNano (ScheduledDeparture f) = unixNano (ScheduledDeparture g) ->
       exists i' j', (i' < j')%nat /\
         rowFlight st' i' = Some (convertFlight (AirportTZ (board st)) f) /\
         rowFlight st' j' = Some (convertFlight (AirportTZ (board st)) g)).
Proof.
  intros Hwf Ha.
  destruct (UpdateFlights_slice st a clk flights Hwf Ha)
    as (st' & Hrun & Hslices & Hslice & Hperm).
  destruct (UpdateFlights_rows st a clk flights Hwf Ha)
    as (st'' & m & Hrun' & _ & _ & _ & Hlen & _).
  rewrite Hrun in Hrun'. injection Hrun' as <-.
  assert (a < length (sliceHeap st))%nat as Hlt by (by eapply lookup_lt_Some).
  set (tz := AirportTZ (board st)) in *.
  set (sorted := sortSlice lessDeparture (convertFlight tz <$> flights)) in *.
  assert (NoDup (FlightNumber <$> flights) ->
          forall i f, sorted !! i = Some f ->
            exists p row,
              Flights (board st') !! i = Some p /\
              rowHeap st' !! p = Some row /\
              Flight_ row = Some (a, i) /\
              derefFlight (sliceHeap st') (a, i) = Some f) as Hrows.
  { intros Hnodup i f Hi.
    destruct (UpdateFlights_row st a clk flights i f Hwf Ha Hi)
      as (st'' & p & r0 & Hrun' & Hptr & _ & Hrow & _).
    { by eapply NoDup_keys_unique. }
    rewrite Hrun in Hrun'. injection Hrun' as <-.
    eexists p, _. split; [done|]. split; [done|]. split; [done|].
    rewrite Hslices. by rewrite derefFlight_same. }
  exists st', sorted. split; [done|]. split; [done|]. split; [done|].
  split; [|split; [done|]; split; [done|]].
  - intros i j f g Hij Hi Hj.
    pose proof (sorted_ascending _ i j f g Hij Hi Hj) as Hle.
    unfold lessDeparture, Before in Hle. by apply Z.ltb_ge in Hle.
  - intros Hshort Hshortlen Hnodup i j f g Hij Hi Hj Htime.
    assert ([convertFlight tz f; convertFlight tz g] `sublist_of` sorted)
      as Hpair.
    { unfold sorted. rewrite Hshort by (by rewrite length_fmap).
      apply insertionSort_stable.
      - unfold lessDeparture, Before. apply Z.ltb_ge.
        rewrite !convertFlight_departure. lia.
      - apply (fmap_sublist (convertFlight tz) [f; g]), sublist_pair_lookup.
        by exists i, j. }
    apply sublist_pair_lookup in Hpair as (i' & j' & Hij' & Hi' & Hj').
    exists i', j'. split; [done|].
    destruct (Hrows Hnodup i' _ Hi') as (p & rowf & Hp & Hrowf & Hptrf & Hf).
    destruct (Hrows Hnodup j' _ Hj') as (q & rowg & Hq & Hrowg & Hptrg & Hg).
    unfold rowFlight.
    rewrite Hp, Hq. simpl. rewrite Hrowf, Hrowg. simpl.
    rewrite Hptrf, Hptrg. simpl. by rewrite Hf, Hg.
Qed.

(** ** Identity-key reconciliation *)

Lemma shows_coherent w text at_ : shows w text at_ -> coherent w at_.
Proof.
  intros (Hwf & Hold & _ & Hcells). split; [done|]. intros i c Hc.
  rewrite Hold, normalizeText_idemp, <- Hold.
  destruct Hwf as [_ Hlen].
  pose proof (lookup_lt_Some _ _ _ Hc) as Hi. rewrite Hlen in Hi.
  destruct (Hcells i Hi) as (c' & Hc' & Hnew). congruence.
Qed.

Lemma updateCell_NewChar oldChar newChar now cell :
  (forall c, cell = Some c -> NewChar c = oldChar) ->
  NewChar (updateCell oldChar newChar now cell) = newChar.
Proof.
  intros Hcell. unfold updateCell. destruct (decide _) as [<-|]; [|done].
  destruct cell as [c|]; [|done]. by apply Hcell.
Qed.

(** After an [Update] the field displays the text it was given. *)
Lemma updatedText_shows w text at_ clock :
  0 <= w -> coherent w at_ -> shows w text (updatedText at_ text clock).
Proof.
  intros Hw [[Hmax Hlen] Hcells]. unfold updatedText. rewrite Hmax.
  split; [|split; [done|split; [done|]]].
  - split; [done|]. simpl. by rewrite updatedChars_length.
  - intros i Hi. simpl. unfold updatedChars. rewrite list_lookup_imap.
    destruct (lookup_lt_is_Some_2 (Chars at_) i) as [cell Hcell]; [lia|].
    rewrite Hcell. simpl. eexists. split; [reflexivity|].
    apply updateCell_NewChar. intros c ->. by apply Hcells.
Qed.

Lemma Tick_shows w text at_ clock :
  shows w text at_ -> shows w text (Tick at_ clock).
Proof.
  intros ([Hmax Hlen] & Hold & Hnew & Hcells).
  split; [|split; [done|split; [done|]]].
  - split; [done|]. simpl. by rewrite length_imap.
  - intros i Hi. destruct (Hcells i Hi) as (c & Hc & Hchar).
    exists (tickCell (clock i) c). simpl. rewrite list_lookup_imap, Hc.
    split; [done|]. by rewrite tickCell_NewChar.
Qed.

(** A field that is given the text it already displays is left as it
    is: no cell is touched. *)
Lemma updatedText_same w text0 text at_ clock :
  0 <= w -> shows w text0 at_ ->
  normalizeText (Z.to_nat w) text = normalizeText (Z.to_nat w) text0 ->
  updatedText at_ text clock = at_.
Proof.
  intros Hw ([Hmax Hlen] & Hold & Hnew & Hcells) Hsame.
  unfold updatedText. rewrite Hmax, Hsame, Hold, normalizeText_idemp.
  destruct at_ as [old new chars maxLength]. simpl in *.
  subst. f_equal.
  apply list_eq. intros i. unfold updatedChars. rewrite list_lookup_imap.
  destruct (chars !! i) as [cell|] eqn:Hcell; [|done]. simpl.
  pose proof (lookup_lt_Some _ _ _ Hcell) as Hi. rewrite Hlen in Hi.
  destruct (Hcells i Hi) as (c & Hc & _).
  assert (cell = Some c) as -> by congruence.
  unfold updateCell. by destruct (decide _).
Qed.

Lemma same_field_noneNewlyBlinking (at_ : AnimatedText) :
  noneNewlyBlinking at_ at_.
Proof. intros i (c & Hc & _ & Hne). done. Qed.

(** In a field that is given another text, the animation starts exactly
    in the columns whose character differs. *)
Lemma updatedText_newlyBlinking w text0 text at_ clock i :
  0 <= w -> shows w text0 at_ ->
  newlyBlinking at_ (updatedText at_ text clock) i <->
  (i < Z.to_nat w)%nat /\
  charAt (normalizeText (Z.to_nat w) text0) i <>
  charAt (normalizeText (Z.to_nat w) text) i.
Proof.
  intros Hw ([Hmax Hlen] & Hold & Hnew & Hcells).
  unfold newlyBlinking, updatedText. simpl.
  rewrite Hmax, Hold, normalizeText_idemp.
  unfold updatedChars. rewrite list_lookup_imap. split.
  - intros (c & Hc & Hblink & Hne).
    destruct (Chars at_ !! i) as [cell|] eqn:Hcell; [|done].
    pose proof (lookup_lt_Some _ _ _ Hcell) as Hi. rewrite Hlen in Hi.
    split; [done|]. intros Hsame. apply Hne.
    simpl in Hc. injection Hc as <-.
    destruct (Hcells i Hi) as (c0 & Hc0 & _).
    assert (cell = Some c0) as -> by congruence.
    unfold updateCell. rewrite Hsame. by destruct (decide _).
  - intros [Hi Hdiff]. destruct (Hcells i Hi) as (c0 & Hc0 & Hchar).
    rewrite Hc0. simpl. rewrite updateCell_changed by done.
    eexists. split; [reflexivity|]. split; [done|].
    intros [= ->]. simpl in Hchar. rewrite Hold in Hchar. by symmetry in Hchar.
Qed.

Lemma updatedRow_rowShows row ptr f clk :
  rowCoherent row -> rowShows (updatedRow row ptr f clk) f.
Proof.
  intros (H1 & H2 & H3 & H4 & H5 & H6).
  repeat split; try (apply updatedText_shows; [lia|assumption]);
    first [apply H1|apply H2|apply H3|apply H4|apply H5|apply H6|idtac].
  all: apply updatedText_shows; [lia|assumption].
Qed.

Lemma rowShows_rowCoherent row g : rowShows row g -> rowCoherent row.
Proof.
  intros (H1 & H2 & H3 & H4 & H5 & H6).
  repeat split; first [apply (shows_coherent _ _ _ H1)
    | apply (shows_coherent _ _ _ H2) | apply (shows_coherent _ _ _ H3)
    | apply (shows_coherent _ _ _ H4) | apply (shows_coherent _ _ _ H5)
    | apply (shows_coherent _ _ _ H6)].
Qed.

Lemma FlightRow_Tick_rowShows row g clk :
  rowShows row g -> rowShows (FlightRow_Tick row clk) g.
Proof.
  intros (H1 & H2 & H3 & H4 & H5 & H6).
  split; [|split; [|split; [|split; [|split]]]]; by apply Tick_shows.
Qed.

Lemma fillerRow_rowCoherent : rowCoherent fillerRow.
Proof.
  repeat split; intros i c Hc;
    apply (lookup_replicate _ (@None CharAnimation)) in Hc as [Hc _]; done.
Qed.

(** C1. Identity-key reconciliation.  When the board holds a row with the
    flight number of an incoming snapshot, [UpdateFlights] allocates no row
    for the snapshot: the entry of the board at the snapshot's place in the
    sorted list is a row the board already had for that number.  When the
    snapshot is the only one with its number, the row at that address
    afterwards is the old row after one [Update]; then, if the row
    displayed a snapshot [g], each of the status, flight-number, time,
    destination and remarks fields whose text is the same for the new
    snapshot is left exactly as it was, so none of its cells starts
    blinking, and the cells of the gate field start blinking exactly in the
    columns where the old and the new gate text, brought to the six columns
    of the field, differ. *)
Theorem identity_reconciliation (st : Store) (a : nat) clk
    flights i f p0 :
  let sorted :=
    sortSlice lessDeparture (convertFlight (AirportTZ (board st)) <$> flights) in
  let slices := <[a := sorted]> (sliceHeap st) in
  wfStore st -> sliceHeap st !! a = Some flights ->
  sorted !! i = Some f ->
  p0 ∈ Flights (board st) ->
  rowKey (rowHeap st) slices p0 = Some (FlightNumber f) ->
  exists st' p row,
    UpdateFlights st a clk = Some st' /\
    p ∈ Flights (board st) /\
    rowKey (rowHeap st) slices p = Some (FlightNumber f) /\
    rowHeap st !! p = Some row /\
    Flights (board st') !! i = Some p /\
    ((forall j g, sorted !! j = Some g ->
        FlightNumber g = FlightNumber f -> j = i) ->
     let row' := updatedRow row (a, i) f (clk i) in
     rowHeap st' !! p = Some row' /\
     forall g, rowShows row g ->
       (statusText f = statusText g ->
        StatusAnim row' = StatusAnim row /\
        noneNewlyBlinking (StatusAnim row) (StatusAnim row')) /\
       (flightNumText f = flightNumText g ->
        FlightNumAnim row' = FlightNumAnim row /\
        noneNewlyBlinking (FlightNumAnim row) (FlightNumAnim row')) /\
       (timeText f = timeText g ->
        TimeAnim row' = TimeAnim row /\
        noneNewlyBlinking (TimeAnim row) (TimeAnim row')) /\
       (destinationText f = destinationText g ->
        DestinationAnim row' = DestinationAnim row /\
        noneNewlyBlinking (DestinationAnim row) (DestinationAnim row')) /\
       (remarksText f = remarksText g ->
        RemarksAnim row' = RemarksAnim row /\
        noneNewlyBlinking (RemarksAnim row) (RemarksAnim row')) /\
       (forall j,
          newlyBlinking (GateAnim row) (GateAnim row') j <->
          (j < 6)%nat /\
          charAt (normalizeText 6 (gateDisplay g)) j <>
          charAt (normalizeText 6 (gateDisplay f)) j) /\
       rowShows row' f).
Proof.
  intros sorted slices Hwf Ha Hi Hp0 Hkey0.
  destruct (UpdateFlights_rows st a clk flights Hwf Ha)
    as (st' & m & Hrun & _ & _ & _ & _ & Hsub & Hsup & Hrows).
  fold sorted slices in Hsub, Hsup, Hrows.
  specialize (Hrows i f Hi).
  destruct (Hsup _ _ Hp0 Hkey0) as [p Hkey]. rewrite Hkey in Hrows.
  destruct Hrows as (Hptr & r0 & Hr0 & Hwf0 & Hrow).
  destruct (Hsub _ _ Hkey) as (Hp & _ & Hpkey).
  exists st', p, r0. do 5 (split; [done|]).
  intros Honly row'. split.
  { rewrite Hrow. f_equal.
    apply (rowAfter_unique a m clk p sorted 0 i f r0 Hi Hkey).
    intros j g Hj Hg. apply (Honly j g Hj).
    destruct (Hsub _ _ Hg) as (_ & _ & Hgkey). congruence. }
  intros g (S1 & S2 & S3 & S4 & S5 & S6).
  assert (forall w text0 text at_ clock,
            0 <= w -> shows w text0 at_ -> text = text0 ->
            updatedText at_ text clock = at_ /\
            noneNewlyBlinking at_ (updatedText at_ text clock)) as Hsame.
  { intros w text0 text at_ clock Hw Hshows ->.
    rewrite (updatedText_same w text0 text0) by done.
    split; [done|apply same_field_noneNewlyBlinking]. }
  split; [intros Heq; by apply (Hsame 1 (statusText g))|].
  split; [intros Heq; by apply (Hsame 8 (flightNumText g))|].
  split; [intros Heq; by apply (Hsame 8 (timeText g))|].
  split; [intros Heq; by apply (Hsame 20 (destinationText g))|].
  split; [intros Heq; by apply (Hsame 20 (remarksText g))|].
  split.
  - intros j. apply (updatedText_newlyBlinking 6 (gateDisplay g)); [lia|done].
  - apply updatedRow_rowShows.
    apply (rowShows_rowCoherent r0 g).
    exact (conj S1 (conj S2 (conj S3 (conj S4 (conj S5 S6))))).
Qed.

(** ** Rendering and the error banner *)

Lemma Board_sections_rows (st : Store) :
  Board_sections st =
  rows ← Board_rows st;
  Some ([renderAirportHeader (board st)] ++ errorBanner (board st) ++
        [renderHeader (board st)] ++ rows ++ [renderPageInfo (board st)]).
Proof.
  unfold Board_sections, Board_rows.
  destruct (GetCurrentPageFlights st) as [[st' page]|]; reflexivity.
Qed.

Lemma renderRows_setError (st : Store) (e : gostring) page :
  renderRows (setBoard st (setError (board st) e)) page = renderRows st page.
Proof.
  induction page as [|[p|] page IH]; simpl; [done| |done].
  by rewrite IH.
Qed.

(** The error string takes no part in the choice or the rendering of the
    rows of the page. *)
Lemma Board_rows_setError (st : Store) (e : gostring) :
  Board_rows (setBoard st (setError (board st) e)) = Board_rows st.
Proof.
  unfold Board_rows, GetCurrentPageFlights. simpl.
  change (effectivePerPage (setError (board st) e))
    with (effectivePerPage (board st)).
  destruct (copyActual _ _ _ _) as [[copyCount result]|]; [|done]. simpl.
  destruct (fillLoop _ _ _ _) as [[rows result2]|]; [|done]. simpl.
  apply (renderRows_setError
           {| rowHeap := rows; sliceHeap := sliceHeap st; board := board st |}).
Qed.

Lemma Render_wfField (w : Z) (at_ : AnimatedText) :
  0 <= w -> wfField w at_ -> is_Some (Render at_).
Proof.
  intros Hw [Hmax Hlen]. unfold Render. rewrite RenderRunes_wf; [by eexists|].
  split; [lia|]. by rewrite Hmax.
Qed.

Lemma FlightRow_Render_total deref row styles :
  wfRow row ->
  (forall ptr, Flight_ row = Some ptr -> is_Some (deref ptr)) ->
  is_Some (FlightRow_Render deref row styles).
Proof.
  intros (H1 & H2 & H3 & H4 & H5 & H6) Hptr. unfold FlightRow_Render.
  destruct (Flight_ row) as [ptr|]; [|by eexists].
  destruct (Hptr ptr eq_refl) as [f ->]. simpl.
  destruct (Render_wfField 1 _ ltac:(lia) H1) as [? ->].
  destruct (Render_wfField 8 _ ltac:(lia) H2) as [? ->].
  destruct (Render_wfField 8 _ ltac:(lia) H3) as [? ->].
  destruct (Render_wfField 20 _ ltac:(lia) H4) as [? ->].
  destruct (Render_wfField 6 _ ltac:(lia) H5) as [? ->].
  destruct (Render_wfField 20 _ ltac:(lia) H6) as [? ->].
  simpl. by eexists.
Qed.

Lemma renderRows_total (st : Store) page :
  Forall wfRow (rowHeap st) ->
  Forall (fun row => forall ptr, Flight_ row = Some ptr ->
            is_Some (derefFlight (sliceHeap st) ptr)) (rowHeap st) ->
  Forall (fun entry => forall p, entry = Some p ->
            (p < length (rowHeap st))%nat) page ->
  is_Some (renderRows st page).
Proof.
  intros Hrows Hptrs. induction 1 as [|[p|] page Hp Hpage IH]; simpl.
  - by eexists.
  - destruct (lookup_lt_is_Some_2 _ _ (Hp p eq_refl)) as [row Hrow].
    rewrite Hrow. simpl.
    destruct (FlightRow_Render_total (derefFlight (sliceHeap st)) row
                (Styles (board st))) as [rowStr ->].
    + by apply (proj1 (Forall_lookup _ _) Hrows p).
    + by apply (proj1 (Forall_lookup _ _) Hptrs p).
    + simpl. destruct IH as [rest ->]. by eexists.
  - done.
Qed.

(** A consistent board whose page index is not negative can be rendered. *)
Lemma Board_rows_total (st : Store) :
  wfStore st -> 0 <= CurrentPage (board st) ->
  (CurrentPage (board st) + 1) * effectivePerPage (board st) <= maxInt64 ->
  is_Some (Board_rows st).
Proof.
  intros (Hrows & Hptrs & Hboard) Hcur Hfit. unfold Board_rows.
  rewrite GetCurrentPageFlights_closed by done.
  simpl. apply renderRows_total; simpl.
  - apply Forall_app. split; [done|].
    apply Forall_replicate, fillerRow_wf.
  - apply Forall_app. split; [done|].
    apply Forall_replicate. by intros ptr.
  - rewrite length_app, length_replicate.
    apply Forall_app. split.
    + apply Forall_fmap, Forall_forall. intros p Hp q [= <-].
      apply elem_of_take in Hp as (k & Hk & _).
      rewrite lookup_drop in Hk.
      pose proof (proj1 (Forall_lookup _ _) Hboard _ _ Hk). simpl in *. lia.
    + apply Forall_fmap, Forall_forall. intros p Hp q [= <-].
      apply elem_of_seq in Hp. lia.
Qed.

Lemma setError_wfStore (st : Store) (e : gostring) :
  wfStore st -> wfStore (setBoard st (setError (board st) e)).
Proof. by intros (H1 & H2 & H3). Qed.

(** C9. A failed fetch is purely presentational.  The [flightsMsg] of a
    failed fetch changes nothing but the board's error string (and the
    model's own [loading] and [err]): rows, flight slices, row list and
    pagination are what they were, [UpdateFlights] is not run.  The frame
    then has, right after the airport header, the banner "ERROR: "
    followed by the message, and otherwise the sections it had without a
    banner, with the same row lines; the board can still be rendered.  The
    [flightsMsg] of the next successful fetch empties the error string
    before it applies [UpdateFlights]. *)
Theorem fetch_error_presentational (m : model) (st : Store)
    (a : nat) (e : gostring) clk :
  exists st',
    Update_flightsMsg m st {| msg_flights := a; msg_err := Some e |} clk =
      Some ({| loading := false; err := Some e |}, st') /\
    rowHeap st' = rowHeap st /\
    sliceHeap st' = sliceHeap st /\
    board st' = setError (board st) e /\
    Flights (board st') = Flights (board st) /\
    CurrentPage (board st') = CurrentPage (board st) /\
    TotalPages (board st') = TotalPages (board st) /\
    Error (board st') = e /\
    Board_rows st' = Board_rows st /\
    (forall rows, Board_rows st = Some rows -> e <> [] ->
       Board_sections st' =
       Some ([renderAirportHeader (board st)] ++
             [Error_ (Styles (board st)) (str "ERROR: " ++ e)] ++
             [renderHeader (board st)] ++ rows ++
             [renderPageInfo (board st)])) /\
    (wfStore st -> 0 <= CurrentPage (board st) ->
     (CurrentPage (board st) + 1) * effectivePerPage (board st) <= maxInt64 ->
     wfStore st' /\ is_Some (Board_sections st')) /\
    (forall m' b flights clk',
       wfStore st -> sliceHeap st !! b = Some flights ->
       exists st'',
         Update_flightsMsg m' st' {| msg_flights := b; msg_err := None |} clk' =
           Some ({| loading := false; err := err m' |}, st'') /\
         UpdateFlights (setBoard st (setError (board st) [])) b clk' =
           Some st'' /\
         Error (board st'') = []).
Proof.
  exists (setBoard st (setError (board st) e)).
  do 8 (split; [reflexivity|]).
  split; [apply Board_rows_setError|]. split; [|split].
  - intros rows Hrows He.
    rewrite Board_sections_rows, Board_rows_setError, Hrows. simpl.
    unfold errorBanner. simpl. by destruct (decide (e = [])).
  - intros Hwf Hcur Hfit. split; [by apply setError_wfStore|].
    rewrite Board_sections_rows, Board_rows_setError.
    destruct (Board_rows_total st Hwf Hcur Hfit) as [rows ->]. by eexists.
  - intros m' b flights clk' Hwf Hb.
    destruct (UpdateFlights_rows (setBoard st (setError (board st) [])) b clk'
                flights (setError_wfStore st [] Hwf) Hb)
      as (st'' & _ & Hrun & _ & _ & Hboard & _).
    exists st''. unfold Update_flightsMsg. simpl.
    change (setBoard (setBoard st (setError (board st) e))
              (setError (setError (board st) e) []))
      with (setBoard st (setError (board st) [])).
    rewrite Hrun. split; [done|]. split; [done|].
    rewrite Hboard.
    by rewrite (proj1 (proj2 (proj2 (proj2 (updatePagination_frame _))))).
Qed.

End WithSorter.

#[global] Existing Instance insertionSorter.

(** ** The properties on concrete runs *)

(** A field of width 6 that is set to a text longer than the field, then
    ticked, then set to the empty text. *)
Lemma Render_width_witness :
  NewAnimatedText 6 =
    Some {| OldText := []; NewText := []; Chars := replicate 6 None;
            MaxLength := 6 |} /\
  exists at_ runes,
    run {| OldText := []; NewText := []; Chars := replicate 6 None;
           MaxLength := 6 |}
        [EvUpdate (str "GATE CLOSED") (clockAt 0);
         EvTick (clockAt 150000000); EvUpdate [] (clockAt 200000000)] =
      Some at_ /\
    RenderRunes at_ = Some runes /\
    Render at_ = Some (stringOfRunes runes) /\
    len runes = 6 /\
    RuneCountInString (stringOfRunes runes) = 6 /\
    (forall i, Chars at_ !! i = Some None -> runes !! i = Some 32).
Proof.
  split; [reflexivity|].
  apply (Render_width 6). reflexivity.
Defined.

(** The gate field showing "A12" is set to "B7" at time 1 s: columns 0, 1
    and 2 change.  A tick at 1.1 s leaves column 0 blinking, a tick at
    1.4 s completes it, the next tick settles it, and the field shows
    "B7" and no longer animates. *)
Lemma animation_converges_witness :
  exists at1,
    Update gateField (str "B7") (clockAt 1000000000) = Some at1 /\
    cellState (tickAll at1 [clockAt 1100000000]) 0 = Some CharStateBlinking /\
    cellState (tickAll at1 [clockAt 1100000000; clockAt 1400000000]) 0 =
      Some CharStateComplete /\
    cellState (tickAll at1 [clockAt 1100000000; clockAt 1400000000;
                            clockAt 1650000000]) 0 = Some CharStateStable /\
    (exists runes,
       RenderRunes (tickAll at1 [clockAt 1100000000; clockAt 1400000000]) =
         Some runes /\
       runes !! 0%nat = Some (runeOfByte "B"%char)) /\
    IsAnimating (tickAll at1 [clockAt 1100000000; clockAt 1400000000]) = false.
Proof.
  assert (wfText gateField) as Hwf.
  { split; [vm_compute; discriminate|reflexivity]. }
  assert (0 < Z.to_nat (MaxLength gateField))%nat as Hcol
    by (vm_compute; lia).
  assert (charAt (normalizeText (Z.to_nat (MaxLength gateField))
                    (OldText gateField)) 0 <>
          charAt (normalizeText (Z.to_nat (MaxLength gateField)) (str "B7")) 0)
    as Hchanged by (vm_compute; discriminate).
  destruct (animation_converges gateField (str "B7") (clockAt 1000000000) 0
              Hwf Hcol Hchanged)
    as (at1 & Hupdate & _ & Hpending & Hdone & Hrender & _ & Hquiet).
  - exists at1. split; [exact Hupdate|]. split; [|split; [|split; [|split]]].
    + apply Hpending. repeat constructor. vm_compute. discriminate.
    + apply (Hdone [clockAt 1100000000] (clockAt 1400000000)).
      * repeat constructor. vm_compute. discriminate.
      * vm_compute. reflexivity.
    + apply (Hdone [clockAt 1100000000] (clockAt 1400000000)
               ltac:(repeat constructor; vm_compute; discriminate)
               ltac:(vm_compute; reflexivity)).
    + destruct (Hrender [clockAt 1100000000; clockAt 1400000000])
        as (runes & Hrunes & Hchar & _).
      * apply Exists_cons_tl, Exists_cons_hd. vm_compute. reflexivity.
      * exists runes. split; [exact Hrunes|exact Hchar].
    + apply Hquiet; [vm_compute; reflexivity|].
      apply Exists_cons_tl, Exists_cons_hd. intros j. vm_compute. reflexivity.
Defined.

(** The board of five rows with page size 2 on its last page: one row and
    one filler. *)
Lemma GetCurrentPageFlights_page_witness :
  exists st' page,
    GetCurrentPageFlights
      {| rowHeap := replicate 5 fillerRow; sliceHeap := [];
         board := threePages |} = Some (st', page) /\
    len page = 2 /\
    page = [Some 4%nat; Some 5%nat] /\
    rowHeap st' = replicate 5 fillerRow ++ [fillerRow].
Proof.
  destruct (GetCurrentPageFlights_page
              {| rowHeap := replicate 5 fillerRow; sliceHeap := [];
                 board := threePages |})
    as (st' & page & Hrun & Hlen & Hpage & _ & _ & Hheap & _).
  - vm_compute. discriminate.
  - vm_compute. discriminate.
  - exists st', page. split; [exact Hrun|]. split; [exact Hlen|].
    split; [exact Hpage|exact Hheap].
Defined.

(** From the last of three pages [NextPage] goes to page 0, and three
    calls lead back to the last page. *)
Lemma NextPage_rotation_witness :
  paginated threePages /\ fitsInt threePages /\
  exists b1,
    NextPage threePages = Some b1 /\ CurrentPage b1 = 0 /\
    NextPageTimes 3 threePages = Some threePages.
Proof.
  assert (paginated threePages) as Hpag.
  { split; [reflexivity|]. simpl. lia. }
  assert (fitsInt threePages) as Hfit by (vm_compute; discriminate).
  split; [exact Hpag|]. split; [exact Hfit|].
  destruct (NextPage_rotation threePages Hpag Hfit)
    as (b1 & Hnext & _ & Hcur & _ & bn & Htimes & Hbn & _).
  exists b1. split; [exact Hnext|]. split; [exact Hcur|].
  rewrite <- Hbn at 2. exact Htimes.
Defined.

Lemma freshStore_wf tz slices : wfStore (freshStore tz slices).
Proof. repeat split; constructor. Qed.

Lemma shown_wf tz slices flights clk st :
  slices !! 0%nat = Some flights ->
  UpdateFlights (freshStore tz slices) 0 clk = Some st -> wfStore st.
Proof.
  intros Hslice Hrun.
  destruct (UpdateFlights_wfStore insertionSorter_contract
              (freshStore tz slices) 0 clk flights
              (freshStore_wf tz slices) Hslice) as (st' & Hrun' & Hwf).
  rewrite Hrun in Hrun'. by injection Hrun' as <-.
Qed.

(** The scenario stores are what [UpdateFlights] makes of a new board. *)
Lemma gateStore_reached :
  UpdateFlights (freshStore (Some UTC) gateSlices) 0 (fun _ => rowClockAt 0) =
  Some gateStore.
Proof. vm_compute. reflexivity. Qed.

Lemma delayStore_reached :
  UpdateFlights (freshStore (Some plusOne) delaySlices) 0
    (fun _ => rowClockAt 0) = Some delayStore.
Proof. vm_compute. reflexivity. Qed.

Lemma twiceStore_reached :
  UpdateFlights (freshStore (Some UTC) twiceSlices) 0 (fun _ => rowClockAt 0) =
  Some twiceStore.
Proof. vm_compute. reflexivity. Qed.

Lemma gateStore_wf : wfStore gateStore.
Proof. exact (shown_wf _ gateSlices _ _ _ eq_refl gateStore_reached). Qed.

Lemma delayStore_wf : wfStore delayStore.
Proof. exact (shown_wf _ delaySlices _ _ _ eq_refl delayStore_reached). Qed.

Lemma twiceStore_wf : wfStore twiceStore.
Proof. exact (shown_wf _ twiceSlices _ _ _ eq_refl twiceStore_reached). Qed.


(** The same call: the rows come out in the order AF22 (09:30), BA114
    (10:00).  And two flights A, B that both leave at 10:00, in this order
    in the snapshot: a row that displays A stands above one that displays
    B. *)
Lemma rows_ascending_witness :
  NoDup (FlightNumber <$>
           [onTime "BA114" 10 0 "B7"; onTime "AF22" 9 30 "C3"]) /\
  (exists st',
    UpdateFlights gateStore 1 (fun _ => rowClockAt 5000000000) = Some st' /\
    (exists p row, Flights (board st') !! 0%nat = Some p /\
       rowHeap st' !! p = Some row /\ Flight_ row = Some (1, 0)%nat /\
       derefFlight (sliceHeap st') (1, 0)%nat =
         Some (onTime "AF22" 9 30 "C3")) /\
    (exists p row, Flights (board st') !! 1%nat = Some p /\
       rowHeap st' !! p = Some row /\ Flight_ row = Some (1, 1)%nat /\
       derefFlight (sliceHeap st') (1, 1)%nat =
         Some (onTime "BA114" 10 0 "B7"))) /\
  NoDup (FlightNumber <$> [onTime "A" 10 0 "A1"; onTime "B" 10 0 "B2"]) /\
  exists st' i' j',
    UpdateFlights (freshStore (Some UTC) tieSlices) 0 (fun _ => rowClockAt 0) =
      Some st' /\
    (i' < j')%nat /\
    rowFlight st' i' = Some (onTime "A" 10 0 "A1") /\
    rowFlight st' j' = Some (onTime "B" 10 0 "B2").
Proof.
  assert (NoDup (FlightNumber <$>
            [onTime "A" 10 0 "A1"; onTime "B" 10 0 "B2"])) as Hties.
  { apply NoDup_cons. split; [|apply NoDup_singleton].
    intros Hin. apply list_elem_of_singleton in Hin. vm_compute in Hin.
    discriminate. }
  cut (NoDup (FlightNumber <$>
                [onTime "BA114" 10 0 "B7"; onTime "AF22" 9 30 "C3"]) /\
       exists st',
         UpdateFlights gateStore 1 (fun _ => rowClockAt 5000000000) =
           Some st' /\
         (exists p row, Flights (board st') !! 0%nat = Some p /\
            rowHeap st' !! p = Some row /\ Flight_ row = Some (1, 0)%nat /\
            derefFlight (sliceHeap st') (1, 0)%nat =
              Some (onTime "AF22" 9 30 "C3")) /\
         (exists p row, Flights (board st') !! 1%nat = Some p /\
            rowHeap st' !! p = Some row /\ Flight_ row = Some (1, 1)%nat /\
            derefFlight (sliceHeap st') (1, 1)%nat =
              Some (onTime "BA114" 10 0 "B7"))).
  { intros [Hnodup Hgate]. split; [exact Hnodup|]. split; [exact Hgate|].
    split; [exact Hties|].
    destruct (rows_ascending insertionSorter_contract
                (freshStore (Some UTC) tieSlices) 0 (fun _ => rowClockAt 0)
                [onTime "A" 10 0 "A1"; onTime "B" 10 0 "B2"]
                (freshStore_wf _ _) eq_refl)
      as (st' & sorted & Hrun & _ & _ & _ & _ & _ & Hstable).
    destruct (Hstable insertionSorter_short ltac:(simpl; lia) Hties
                0%nat 1%nat _ _ ltac:(lia) eq_refl eq_refl eq_refl)
      as (i' & j' & Hij & Hi & Hj).
    exists st', i', j'. split; [exact Hrun|]. split; [exact Hij|].
    split; [exact Hi|exact Hj]. }
  assert (NoDup (FlightNumber <$>
            [onTime "BA114" 10 0 "B7"; onTime "AF22" 9 30 "C3"])) as Hnodup.
  { apply NoDup_cons. split; [|apply NoDup_singleton].
    intros Hin. apply list_elem_of_singleton in Hin. vm_compute in Hin.
    discriminate. }
  split; [exact Hnodup|].
  destruct (rows_ascending insertionSorter_contract gateStore 1 (fun _ => rowClockAt 5000000000)
              [onTime "BA114" 10 0 "B7"; onTime "AF22" 9 30 "C3"]
              gateStore_wf eq_refl)
    as (st' & sorted & Hrun & Hslice & _ & _ & _ & Hrows & _).
  assert (sorted = [onTime "AF22" 9 30 "C3"; onTime "BA114" 10 0 "B7"])
    as ->.
  { destruct (UpdateFlights_slice insertionSorter_contract gateStore 1
                (fun _ => rowClockAt 5000000000)
                [onTime "BA114" 10 0 "B7"; onTime "AF22" 9 30 "C3"]
                gateStore_wf eq_refl)
      as (st2 & Hrun2 & _ & Hsorted & _).
    rewrite Hrun in Hrun2. injection Hrun2 as <-.
    rewrite Hslice in Hsorted. injection Hsorted as Hs. rewrite Hs.
    vm_compute. reflexivity. }
  exists st'. split; [exact Hrun|]. split.
  - apply (Hrows Hnodup 0%nat). reflexivity.
  - apply (Hrows Hnodup 1%nat). reflexivity.
Defined.

(** BA114, shown as on time, comes back delayed with an estimated
    departure of 13:30 UTC on a board one hour east of UTC: the snapshot
    and the remarks field of its row read "Delayed EST: 14:30". *)
Lemma delayed_remarks_witness :
  AirportTZ (board delayStore) = Some plusOne /\
  exists st' g p row,
    UpdateFlights delayStore 1 (fun _ => rowClockAt 5000000000) = Some st' /\
    sliceHeap st' !! 1%nat = Some [g] /\
    Status g = StatusDelayed /\
    Remarks g = str "Delayed EST: 14:30" /\
    Flights (board st') !! 0%nat = Some p /\
    rowHeap st' !! p = Some row /\
    NewText (RemarksAnim row) = str "Delayed EST: 14:30  ".
Proof.
  split; [reflexivity|].
  destruct (delayed_remarks insertionSorter_contract delayStore 1 (fun _ => rowClockAt 5000000000)
              [delayed "BA114" 10 0 "A12" 13 30] plusOne
              delayStore_wf eq_refl eq_refl)
    as (st' & sorted & Hrun & Hslice & Hperm & _ & Hrows).
  apply Permutation_singleton_r in Hperm. subst sorted.
  destruct (Hrows 0%nat _ (In_ (utcTime 13 30) plusOne) eq_refl eq_refl eq_refl)
    as (_ & Hremarks & Hrow).
  destruct Hrow as (p & row & Hptr & Hrow & _ & Htext).
  { intros [|j] h Hj _; [reflexivity|discriminate]. }
  exists st', (convertFlight (Some plusOne) (delayed "BA114" 10 0 "A12" 13 30)),
    p, row.
  split; [exact Hrun|]. split; [exact Hslice|]. split; [reflexivity|].
  split; [exact Hremarks|]. split; [exact Hptr|]. split; [exact Hrow|].
  exact Htext.
Defined.

(** The board shows BA114 at gate A12 (row 1) and AF22 (row 0); the next
    snapshot has BA114 at gate B7.  The entry for BA114 is again row 1, no
    row is allocated, the five other fields of the row are what they were,
    and the gate field starts blinking in columns 0, 1 and 2 ("A12" against
    "B7 ") and in no other column. *)
Lemma identity_reconciliation_witness :
  (1%nat ∈ Flights (board gateStore)) /\
  rowKey (rowHeap gateStore)
    (<[1%nat := [onTime "AF22" 9 30 "C3"; onTime "BA114" 10 0 "B7"]]>
       (sliceHeap gateStore)) 1 = Some (str "BA114") /\
  exists st' row row',
    UpdateFlights gateStore 1 (fun _ => rowClockAt 5000000000) = Some st' /\
    rowHeap gateStore !! 1%nat = Some row /\
    Flights (board st') !! 1%nat = Some 1%nat /\
    rowHeap st' !! 1%nat = Some row' /\
    StatusAnim row' = StatusAnim row /\
    FlightNumAnim row' = FlightNumAnim row /\
    TimeAnim row' = TimeAnim row /\
    DestinationAnim row' = DestinationAnim row /\
    RemarksAnim row' = RemarksAnim row /\
    (forall j, newlyBlinking (GateAnim row) (GateAnim row') j <-> (j < 3)%nat).
Proof.
  assert (1%nat ∈ Flights (board gateStore)) as Hp0.
  { apply list_elem_of_lookup. exists 1%nat. reflexivity. }
  assert (rowKey (rowHeap gateStore)
            (<[1%nat := [onTime "AF22" 9 30 "C3"; onTime "BA114" 10 0 "B7"]]>
               (sliceHeap gateStore)) 1 = Some (str "BA114")) as Hkey0
    by (vm_compute; reflexivity).
  split; [exact Hp0|]. split; [exact Hkey0|].
  assert (sortSlice lessDeparture
            (convertFlight (AirportTZ (board gateStore)) <$>
               [onTime "BA114" 10 0 "B7"; onTime "AF22" 9 30 "C3"]) =
          [onTime "AF22" 9 30 "C3"; onTime "BA114" 10 0 "B7"]) as Hsorted
    by (vm_compute; reflexivity).
  destruct (identity_reconciliation insertionSorter_contract gateStore 1
              (fun _ => rowClockAt 5000000000)
              [onTime "BA114" 10 0 "B7"; onTime "AF22" 9 30 "C3"]
              1 (onTime "BA114" 10 0 "B7") 1 gateStore_wf eq_refl)
    as (st' & p & row & Hrun & Hp & Hkey & Hrow & Hptr & Hupdated).
  { rewrite Hsorted. reflexivity. }
  { exact Hp0. }
  { rewrite Hsorted. exact Hkey0. }
  rewrite Hsorted in Hkey, Hupdated.
  assert (p = 1%nat) as ->.
  { apply list_elem_of_lookup in Hp as [[|[|k]] Hk];
      [injection Hk as <-; vm_compute in Hkey; discriminate
      |by injection Hk|discriminate]. }
  destruct Hupdated as (Hrow' & Hfields).
  { intros [|[|j]] g Hj Hg; [|reflexivity|discriminate].
    injection Hj as <-. vm_compute in Hg. discriminate. }
  injection Hrow as <-.
  destruct (Hfields (onTime "BA114" 10 0 "A12"))
    as (Hstatus & Hnumber & Htime & Hdest & Hremarks & Hgate & _).
  { apply updatedRow_rowShows, fillerRow_rowCoherent. }
  eexists st', _, _. split; [exact Hrun|]. split; [reflexivity|].
  split; [exact Hptr|]. split; [exact Hrow'|].
  split; [apply Hstatus; reflexivity|]. split; [apply Hnumber; reflexivity|].
  split; [apply Htime; reflexivity|]. split; [apply Hdest; reflexivity|].
  split; [apply Hremarks; reflexivity|].
  intros j. rewrite Hgate. split.
  - intros [Hj Hdiff]. destruct j as [|[|[|[|[|[|j]]]]]]; try lia.
    all: exfalso; apply Hdiff; reflexivity.
  - intros Hj. split; [lia|].
    destruct j as [|[|[|j]]]; [..|lia]; vm_compute; discriminate.
Defined.

Lemma pagesStore_reached :
  (st1 ← UpdateFlights (freshStore (Some UTC) pagesSlices) 0
           (fun _ => rowClockAt 0);
   b1 ← NextPage (board st1);
   b2 ← NextPage b1;
   Some (setBoard st1 b2)) = Some pagesStore.
Proof. vm_compute. reflexivity. Qed.

Lemma pagesStore_wf : wfStore pagesStore.
Proof.
  split; [|split].
  - repeat (apply Forall_cons_2;
            [apply (FlightRow_Update_updatedRow fillerRow), fillerRow_wf|]).
    apply Forall_nil_2.
  - repeat (apply Forall_cons_2;
            [intros ptr [= <-]; vm_compute; eexists; reflexivity|]).
    apply Forall_nil_2.
  - repeat (apply Forall_cons_2; [simpl; lia|]). apply Forall_nil_2.
Qed.

(** The board shows five flights on three pages and is on the last one,
    page 2.  A snapshot with three flights leaves two pages, and the board
    on page 1, the last of them. *)
Lemma pagination_invariant_witness :
  paginated (board pagesStore) /\ CurrentPage (board pagesStore) = 2 /\
  exists st',
    UpdateFlights pagesStore 1 (fun _ => rowClockAt 5000000000) = Some st' /\
    paginated (board st') /\
    TotalPages (board st') = 2 /\ CurrentPage (board st') = 1.
Proof.
  split; [split; [reflexivity|simpl; lia]|]. split; [reflexivity|].
  destruct (pagination_invariant insertionSorter_contract) as (_ & Hupdate & _).
  destruct (Hupdate pagesStore 1%nat (fun _ => rowClockAt 5000000000)
              [onTime "F1" 8 0 "A1"; onTime "F2" 8 10 "A2";
               onTime "F3" 8 20 "A3"]
              pagesStore_wf eq_refl ltac:(vm_compute; discriminate))
    as (st' & Hrun & Hlen & Hper & Hpag & Hclamp & _).
  assert (TotalPages (board st') = 2) as Htotal.
  { destruct Hpag as [-> _]. unfold effectivePerPage. rewrite Hlen, Hper.
    reflexivity. }
  exists st'. split; [exact Hrun|]. split; [exact Hpag|].
  split; [exact Htotal|]. rewrite Hclamp; [rewrite Htotal; reflexivity|].
  rewrite Htotal. simpl. lia.
Defined.

(** A fetch fails with "timeout" while the board shows the gate scenario:
    the rows stay, and the frame gets the banner under the airport
    header. *)
Lemma fetch_error_presentational_witness :
  exists st' rows,
    Update_flightsMsg {| loading := true; err := None |} gateStore
      {| msg_flights := 1; msg_err := Some (str "timeout") |}
      (fun _ => rowClockAt 5000000000) =
      Some ({| loading := false; err := Some (str "timeout") |}, st') /\
    rowHeap st' = rowHeap gateStore /\
    Flights (board st') = Flights (board gateStore) /\
    Board_rows gateStore = Some rows /\
    Board_sections st' =
      Some ([str "DEPARTURES - LHR"; str "ERROR: timeout";
             renderHeader (board gateStore)] ++ rows ++ [[]]).
Proof.
  destruct (fetch_error_presentational insertionSorter_contract
              {| loading := true; err := None |} gateStore 1 (str "timeout")
              (fun _ => rowClockAt 5000000000))
    as (st' & Hrun & Hheap & _ & _ & Hflights & _ & _ & _ & _ & Hbanner & _).
  destruct (Board_rows_total gateStore gateStore_wf) as [rows Hrows].
  - simpl. lia.
  - vm_compute. discriminate.
  - exists st', rows. split; [exact Hrun|]. split; [exact Hheap|].
    split; [exact Hflights|]. split; [exact Hrows|].
    rewrite (Hbanner rows Hrows); [reflexivity|discriminate].
Defined.

(** ** What the board does not guarantee *)

(** C7, as stated, fails.  The board shows K; the next snapshot, already
    in ascending order, lists K at 10:00, A at 10:05 and K again at 10:10.
    Both K entries are given the one row the board has for K, which is
    updated twice, so the rows read 10:10, 10:05, 10:10 from top to bottom:
    not ascending. *)
Lemma repeated_number_rows_not_ascending :
  rowDepartures <$>
    UpdateFlights (H := insertionSorter) twiceStore 1
      (fun _ => rowClockAt 5000000000) =
    Some [Some 36600000000000; Some 36300000000000; Some 36600000000000].
Proof. vm_compute. reflexivity. Qed.

(** Ties beyond twelve flights.  A snapshot of thirteen flights, A to L
    at 10:00 followed by M at 9:00: [sort.Slice] takes G, the flight in
    the middle, as pivot and moves it to the front of the slice, and
    exchanges B with M, so that the board shows G above A and B below all
    the flights that followed it in the snapshot. *)
Example long_slices_reorder_ties :
  rowNumbers <$>
    UpdateFlights (H := librarySorter) (freshStore (Some UTC) thirteenSlices)
      0 (fun _ => rowClockAt 0) =
    Some (Some <$> [str "M"; str "G"; str "C"; str "D"; str "E"; str "F";
                    str "A"; str "H"; str "I"; str "J"; str "K"; str "L";
                    str "B"]).
Proof. vm_compute. reflexivity. Qed.

(** With the insertion sort that [sort.Slice] runs on short slices the two
    flights keep their order. *)
Example short_slices_keep_ties :
  rowNumbers <$>
    UpdateFlights (H := insertionSorter) (freshStore (Some UTC) tieSlices) 0
      (fun _ => rowClockAt 0) =
    Some [Some (str "A"); Some (str "B")].
Proof. vm_compute. reflexivity. Qed.

(** A negative page index, which no method of the board produces, makes
    [GetCurrentPageFlights] panic on the slice expression. *)
Example negative_page_panics :
  GetCurrentPageFlights
    (setBoard gateStore (setCurrentPage (board gateStore) (-1))) = None.
Proof. vm_compute. reflexivity. Qed.

(** While cells blink, the rendered string has more bytes than columns:
    the blink glyphs take three bytes each. *)
Example blinking_field_bytes :
  (at1 ← Update gateField (str "B7") (clockAt 1000000000);
   s ← Render at1; Some (len s, RuneCountInString s)) = Some (12, 6).
Proof. vm_compute. reflexivity. Qed.

(** On a board without a timezone nothing is converted and the remarks of
    a delayed flight stay as the data source gave them. *)
Example no_timezone_no_synthesis :
  (st' ← UpdateFlights (H := insertionSorter) (freshStore None delaySlices) 1
           (fun _ => rowClockAt 0);
   map Remarks <$> sliceHeap st' !! 1%nat) =
  Some [str "Delayed"].
Proof. vm_compute. reflexivity. Qed.

(** The page scenario of the design: three rows A, B, C with page size 2
    give two pages; page 0 holds A and B, page 1 holds C and a filler, and
    [NextPage] on page 1 leads to page 0. *)
Example two_pages_scenario :
  let b := updatePagination
             {| Flights := [0; 1; 2]%nat; CurrentPage := 0; TotalPages := 1;
                AirportCode := str "LHR"; AirportTZ := Some UTC;
                FlightsPerPage := 2; Error := []; Styles := plainStyles |} in
  let st page := {| rowHeap := replicate 3 fillerRow; sliceHeap := [];
                    board := setCurrentPage b page |} in
  TotalPages b = 2 /\
  snd <$> GetCurrentPageFlights (st 0) = Some [Some 0%nat; Some 1%nat] /\
  snd <$> GetCurrentPageFlights (st 1) = Some [Some 2%nat; Some 3%nat] /\
  CurrentPage <$> NextPage (setCurrentPage b 1) = Some 0.
Proof. vm_compute. repeat split; reflexivity. Qed.

(** * Further properties of the code *)

(** ** The animated field over its whole life *)

Lemma run_app (h1 h2 : list Event) :
  forall at_, run at_ (h1 ++ h2) = at1 ← run at_ h1; run at1 h2.
Proof.
  induction h1 as [|e h1 IH]; intros at_; simpl; [done|].
  destruct (step at_ e) as [at'|]; simpl; [apply IH|done].
Qed.

Lemma run_ticks (clocks : list Clock) :
  forall at_, run at_ (ticks clocks) = Some (tickAll at_ clocks).
Proof.
  induction clocks as [|k clocks IH]; intros at_; simpl; [done|].
  apply IH.
Qed.

Lemma NewAnimatedText_coherent (w : Z) (at0 : AnimatedText) :
  NewAnimatedText w = Some at0 -> 0 <= w /\ coherent w at0.
Proof.
  unfold NewAnimatedText. destruct (Z.ltb_spec w 0); [done|].
  intros [= <-]. split; [done|]. split.
  - split; [done|]. simpl. by rewrite length_replicate.
  - intros i c Hc. simpl in Hc. apply lookup_replicate in Hc as [? _]. done.
Qed.

Lemma Tick_coherent (w : Z) (at_ : AnimatedText) (clock : Clock) :
  coherent w at_ -> coherent w (Tick at_ clock).
Proof.
  intros [[Hmax Hlen] Hcells]. split.
  - split; [done|]. simpl. by rewrite length_imap.
  - intros i c. simpl. rewrite list_lookup_imap.
    destruct (Chars at_ !! i) as [[c0|]|] eqn:Hc0; simpl; [|done..].
    intros [= <-]. rewrite tickCell_NewChar. by apply Hcells.
Qed.

Lemma step_coherent (w : Z) (at_ at' : AnimatedText) (e : Event) :
  0 <= w -> coherent w at_ -> step at_ e = Some at' -> coherent w at'.
Proof.
  intros Hw Hco. destruct e as [text clock|clock]; simpl.
  - destruct (Update_updatedText at_ w text clock Hw (proj1 Hco)) as [-> _].
    intros [= <-]. eapply shows_coherent. by apply updatedText_shows.
  - intros [= <-]. by apply Tick_coherent.
Qed.

Lemma run_coherent (w : Z) (history : list Event) :
  forall at_ at', 0 <= w -> coherent w at_ -> run at_ history = Some at' ->
    coherent w at'.
Proof.
  induction history as [|e history IH]; intros at_ at' Hw Hco; simpl.
  - by intros [= <-].
  - destruct (step at_ e) as [at1|] eqn:Hstep; simpl; [|done].
    apply IH; [done|]. by eapply step_coherent.
Qed.

Lemma tickAll_shows (w : Z) text (clocks : list Clock) :
  forall at_, shows w text at_ -> shows w text (tickAll at_ clocks).
Proof.
  induction clocks as [|k clocks IH]; intros at_ Hs; [done|].
  unfold tickAll in *. simpl. apply IH. by apply Tick_shows.
Qed.

(** The field after a history that ends with [Update text] and then only
    ticks displays [text]. *)
Lemma run_shows (w : Z) (at0 at_ : AnimatedText) history text clk clocks :
  NewAnimatedText w = Some at0 ->
  run at0 (history ++ EvUpdate text clk :: ticks clocks) = Some at_ ->
  0 <= w /\ shows w text at_.
Proof.
  intros Hnew Hrun. destruct (NewAnimatedText_coherent w at0 Hnew) as [Hw Hco].
  split; [done|].
  rewrite run_app in Hrun.
  destruct (run at0 history) as [at1|] eqn:Hrun1; simpl in Hrun; [|done].
  pose proof (run_coherent w history at0 at1 Hw Hco Hrun1) as Hco1.
  destruct (Update_updatedText at1 w text clk Hw (proj1 Hco1)) as [Hupd _].
  rewrite Hupd in Hrun. simpl in Hrun. rewrite run_ticks in Hrun.
  injection Hrun as <-. apply tickAll_shows. by apply updatedText_shows.
Qed.

(** X1. An [Update] with the text that the field already displays (up to
    the padding and cutting to the field width) is a no-op, also in the
    middle of an animation: the field returned is the field given, so no
    cell restarts its flip and no clock is read. *)
Theorem Update_same_text_noop (w : Z) (at0 at_ : AnimatedText)
    (history : list Event) (text text' : gostring) (clk clk' : Clock)
    (clocks : list Clock) :
  NewAnimatedText w = Some at0 ->
  run at0 (history ++ EvUpdate text clk :: ticks clocks) = Some at_ ->
  normalizeText (Z.to_nat w) text' = normalizeText (Z.to_nat w) text ->
  Update at_ text' clk' = Some at_.
Proof.
  intros Hnew Hrun Hsame.
  destruct (run_shows w at0 at_ history text clk clocks Hnew Hrun) as [Hw Hs].
  destruct (Update_updatedText at_ w text' clk' Hw (proj1 Hs)) as [-> _].
  f_equal. by eapply updatedText_same.
Qed.

Lemma Update_same_text_noop_witness :
  exists at0 at_,
    NewAnimatedText 6 = Some at0 /\
    run at0 (EvUpdate (str "B7") (clockAt 0) :: ticks [clockAt 100000000]) =
      Some at_ /\
    IsAnimating at_ = true /\
    Update at_ (str "B7  ") (clockAt 150000000) = Some at_.
Proof.
  eexists _, _. split; [reflexivity|]. split; [reflexivity|].
  split; [reflexivity|].
  eapply (Update_same_text_noop 6 _ _ [] (str "B7") (str "B7  ") (clockAt 0)
            (clockAt 150000000) [clockAt 100000000]); reflexivity.
Defined.

Lemma runeOfByte_inj (b b' : ascii) : runeOfByte b = runeOfByte b' -> b = b'.
Proof.
  unfold runeOfByte. intros H. apply N2Z.inj in H.
  rewrite <- (ascii_N_embedding b), <- (ascii_N_embedding b'). by rewrite H.
Qed.

Lemma byteOfZ_runeOfByte (b : ascii) : byteOfZ (runeOfByte b) = b.
Proof.
  unfold byteOfZ, runeOfByte. rewrite N2Z.id. apply ascii_N_embedding.
Qed.

Lemma charAt_lookup (text : gostring) (i : nat) (b : ascii) :
  text !! i = Some b -> charAt text i = runeOfByte b.
Proof. unfold charAt. by intros ->. Qed.

Lemma normalizeText_lookup_nil (w i : nat) :
  (i < w)%nat -> normalizeText w [] !! i = Some space.
Proof.
  intros Hi. unfold normalizeText. simpl.
  rewrite take_replicate, Nat.min_id. by apply lookup_replicate_2.
Qed.

Lemma new_field_Update (w : Z) (at0 : AnimatedText) (text : gostring)
    (clk : Clock) :
  NewAnimatedText w = Some at0 ->
  exists at1,
    Update at0 text clk = Some at1 /\
    RenderRunes at1 = Some (flipGlyph <$> normalizeText (Z.to_nat w) text) /\
    (forall i b, normalizeText (Z.to_nat w) text !! i = Some b ->
       cellState at1 i =
       Some (if decide (b = space) then CharStateStable
             else CharStateBlinking)) /\
    (IsAnimating at1 = false <->
     normalizeText (Z.to_nat w) text = replicate (Z.to_nat w) space).
Proof.
  intros Hnew. destruct (NewAnimatedText_wf w at0 Hnew) as [Hwf Hmax].
  pose proof (Update_wf at0 text clk Hwf) as Hupd. rewrite Hmax in Hupd.
  unfold NewAnimatedText in Hnew. destruct (Z.ltb_spec w 0); [done|].
  injection Hnew as <-. simpl in Hupd.
  set (shown := normalizeText (Z.to_nat w) text) in *.
  assert (length shown = Z.to_nat w) as Hshown by apply normalizeText_length.
  eexists. split; [exact Hupd|].
  assert (forall i b, shown !! i = Some b ->
            updatedChars (normalizeText (Z.to_nat w) []) shown clk
              (replicate (Z.to_nat w) None) !! i =
            Some (Some (updateCell 32 (runeOfByte b) (clk i) None)))
    as Hcell.
  { intros i b Hb. pose proof (lookup_lt_Some _ _ _ Hb) as Hi.
    unfold updatedChars. rewrite list_lookup_imap.
    rewrite lookup_replicate_2 by lia. simpl.
    rewrite (charAt_lookup _ _ _
               (normalizeText_lookup_nil (Z.to_nat w) i ltac:(lia))).
    by rewrite (charAt_lookup _ _ _ Hb). }
  assert (forall b now,
            State (updateCell 32 (runeOfByte b) now None) =
              (if decide (b = space) then CharStateStable
               else CharStateBlinking) /\
            renderCell (Some (updateCell 32 (runeOfByte b) now None)) =
              flipGlyph b) as Hglyph.
  { intros b now. unfold updateCell, flipGlyph.
    destruct (decide (32 = runeOfByte b)) as [H32|H32];
      repeat case_decide; subst; try done.
    exfalso. by apply (runeOfByte_inj space b) in H32. }
  split; [|split].
  - rewrite RenderRunes_wf.
    2:{ split; [done|]. simpl. rewrite updatedChars_length.
        by rewrite length_replicate. }
    simpl. f_equal. apply list_eq. intros i. rewrite !list_lookup_fmap.
    destruct (shown !! i) as [b|] eqn:Hb.
    + rewrite (Hcell i b Hb). simpl. f_equal. apply Hglyph.
    + rewrite lookup_ge_None_2; [done|].
      rewrite updatedChars_length, length_replicate.
      apply lookup_ge_None_1 in Hb. lia.
  - intros i b Hb. unfold cellState. simpl. rewrite (Hcell i b Hb).
    f_equal. apply Hglyph.
  - rewrite IsAnimating_false. simpl. split.
    + intros Hall. apply list_eq. intros i.
      destruct (shown !! i) as [b|] eqn:Hb.
      * pose proof (lookup_lt_Some _ _ _ Hb) as Hi.
        rewrite lookup_replicate_2 by lia. f_equal.
        specialize (Hall i _ (Hcell i b Hb)).
        destruct (Hglyph b (clk i)) as [Hst _]. rewrite Hst in Hall.
        by destruct (decide (b = space)).
      * apply lookup_ge_None_1 in Hb. symmetry. apply lookup_ge_None_2.
        rewrite length_replicate. lia.
    + intros Hblank i c Hc.
      destruct (shown !! i) as [b|] eqn:Hb.
      * rewrite (Hcell i b Hb) in Hc. injection Hc as <-.
        destruct (Hglyph b (clk i)) as [-> _].
        rewrite Hblank in Hb. apply lookup_replicate in Hb as [-> _].
        by rewrite decide_True.
      * apply lookup_ge_None_1 in Hb. apply lookup_lt_Some in Hc.
        rewrite updatedChars_length, length_replicate in Hc. lia.
Qed.

(** X2. The first [Update] of a new field flips in exactly the characters
    that are not blanks: right after the call the field shows a
    solid block in every column whose character is not a blank and a blank
    elsewhere, and only the former cells are animating. *)
Theorem first_Update_flips_in (w : Z) (at0 : AnimatedText) (text : gostring)
    (clk : Clock) :
  NewAnimatedText w = Some at0 ->
  exists at1,
    Update at0 text clk = Some at1 /\
    RenderRunes at1 = Some (flipGlyph <$> normalizeText (Z.to_nat w) text) /\
    (forall i b, normalizeText (Z.to_nat w) text !! i = Some b ->
       cellState at1 i =
       Some (if decide (b = space) then CharStateStable
             else CharStateBlinking)) /\
    (IsAnimating at1 = false <->
     normalizeText (Z.to_nat w) text = replicate (Z.to_nat w) space).
Proof. apply new_field_Update. Qed.

Lemma first_Update_flips_in_witness :
  exists at0 at1,
    NewAnimatedText 6 = Some at0 /\
    Update at0 (str "A 2") (clockAt 0) = Some at1 /\
    RenderRunes at1 = Some [solidBlock; 32; solidBlock; 32; 32; 32].
Proof.
  eexists _. 
  destruct (first_Update_flips_in 6 _ (str "A 2") (clockAt 0) eq_refl)
    as (at1 & Hupd & Hrender & _).
  exists at1. split; [reflexivity|]. split; [exact Hupd|]. exact Hrender.
Defined.

(** *** Bytes and characters *)

Lemma encodeRune_byte (b : ascii) :
  encodeRune (runeOfByte b) =
  if isASCII b then [b]
  else [byteOfZ (Z.lor 192 (Z.shiftr (runeOfByte b) 6));
        byteOfZ (Z.lor 128 (Z.land (runeOfByte b) 63))].
Proof.
  pose proof (runeOfByte_range b) as Hr. unfold encodeRune, isASCII.
  destruct (Z.ltb_spec (runeOfByte b) 0); [lia|].
  destruct (Z.ltb_spec 1114111 (runeOfByte b)); [lia|].
  destruct (Z.leb_spec 55296 (runeOfByte b)); [lia|]. simpl.
  destruct (Z.ltb_spec (runeOfByte b) 128).
  - by rewrite byteOfZ_runeOfByte.
  - destruct (Z.ltb_spec (runeOfByte b) 2048); [done|lia].
Qed.

Lemma stringOfRunes_bytes_length (s : gostring) :
  len (stringOfRunes (runeOfByte <$> s)) =
  len s + len (filter (fun b => isASCII b = false) s).
Proof.
  unfold len, stringOfRunes. induction s as [|b s IH]; [done|].
  rewrite fmap_cons. simpl flat_map.
  rewrite length_app, encodeRune_byte, filter_cons.
  destruct (isASCII b) eqn:Hb; case_decide; try done; simpl length; lia.
Qed.

Lemma stringOfRunes_bytes_ascii (s : gostring) :
  forallb isASCII s = true -> stringOfRunes (runeOfByte <$> s) = s.
Proof.
  unfold stringOfRunes. induction s as [|b s IH]; [done|].
  rewrite fmap_cons. simpl.
  intros [Hb Hs]%andb_prop. rewrite encodeRune_byte, Hb. simpl.
  by rewrite IH.
Qed.

Lemma filter_nil_forallb (s : gostring) :
  filter (fun b => isASCII b = false) s = [] -> forallb isASCII s = true.
Proof.
  induction s as [|b s IH]; [done|]. rewrite filter_cons.
  destruct (isASCII b) eqn:Hb; case_decide; try done.
  simpl. by rewrite Hb.
Qed.

(** X3. Once its animation has ended, a field renders the bytes of the
    text of its last [Update], padded or cut to the width, each byte as
    the character with that code point.  The rendering is the padded text
    itself exactly when all its bytes are ASCII; every other byte comes out
    as a two-byte character, so a multi-byte UTF-8 character of the text is
    not shown as itself. *)
Theorem settled_field_renders_bytes (w : Z) (at0 at_ : AnimatedText)
    (history : list Event) (text : gostring) (clk : Clock)
    (clocks : list Clock) :
  NewAnimatedText w = Some at0 ->
  run at0 (history ++ EvUpdate text clk :: ticks clocks) = Some at_ ->
  IsAnimating at_ = false ->
  let shown := normalizeText (Z.to_nat w) text in
  RenderRunes at_ = Some (runeOfByte <$> shown) /\
  exists s,
    Render at_ = Some s /\
    len s = len shown + len (filter (fun b => isASCII b = false) shown) /\
    (s = shown <-> forallb isASCII shown = true).
Proof.
  intros Hnew Hrun Hidle shown.
  destruct (run_shows w at0 at_ history text clk clocks Hnew Hrun)
    as (Hw & [Hmax Hlen] & Hold & _ & Hcells).
  assert (RenderRunes at_ = Some (runeOfByte <$> shown)) as Hrunes.
  { rewrite RenderRunes_wf by (split; [lia|by rewrite Hmax]).
    f_equal. apply list_eq. intros i. rewrite !list_lookup_fmap.
    destruct (decide (i < Z.to_nat w)%nat) as [Hi|Hi].
    - destruct (Hcells i Hi) as (c & Hc & Hchar). rewrite Hc.
      rewrite IsAnimating_false in Hidle.
      destruct (lookup_lt_is_Some_2 shown i) as [b Hb].
      { unfold shown. by rewrite normalizeText_length. }
      rewrite Hb. simpl. f_equal.
      etransitivity; [exact (renderCell_settled c (Hidle i c Hc))|].
      rewrite Hchar, Hold. by apply charAt_lookup.
    - rewrite !lookup_ge_None_2; [done| |lia].
      unfold shown. rewrite normalizeText_length. lia. }
  split; [exact Hrunes|].
  exists (stringOfRunes (runeOfByte <$> shown)).
  split; [unfold Render; by rewrite Hrunes|].
  split; [apply stringOfRunes_bytes_length|]. split.
  - intros Heq. apply filter_nil_forallb.
    pose proof (stringOfRunes_bytes_length shown) as Hl.
    rewrite Heq in Hl. unfold len in Hl.
    apply length_zero_iff_nil. lia.
  - apply stringOfRunes_bytes_ascii.
Qed.

Lemma settled_field_renders_bytes_witness :
  exists at0 at_,
    NewAnimatedText 6 = Some at0 /\
    run at0 (EvUpdate (str "A12") (clockAt 0) ::
             ticks [clockAt 400000000]) = Some at_ /\
    IsAnimating at_ = false /\
    Render at_ = Some (str "A12   ").
Proof.
  eexists _, _. split; [reflexivity|]. split; [reflexivity|].
  split; [reflexivity|].
  edestruct (settled_field_renders_bytes 6 _ _ [] (str "A12") (clockAt 0)
               [clockAt 400000000] eq_refl eq_refl eq_refl)
    as (_ & s & Hs & _ & Heq).
  rewrite Hs. f_equal. apply Heq. reflexivity.
Defined.

(** *** Ticks of a field at rest *)

Lemma renderLoop_ext (chars : list (option CharAnimation)) :
  forall chars' i result,
    renderCell <$> chars = renderCell <$> chars' ->
    renderLoop i chars result = renderLoop i chars' result.
Proof.
  induction chars as [|cell chars IH]; intros [|cell' chars'] i result;
    simpl; try done.
  intros [= Hcell Hrest]. rewrite Hcell.
  destruct (decide _); [|done]. by apply IH.
Qed.

(** X4. [Tick] does nothing visible to a field without a blinking cell:
    it renders the same before and after, whatever the clock reads, its
    texts are untouched and no cell starts to blink. *)
Theorem Tick_idle_field (at_ : AnimatedText) (clock : Clock) :
  IsAnimating at_ = false ->
  RenderRunes (Tick at_ clock) = RenderRunes at_ /\
  Render (Tick at_ clock) = Render at_ /\
  IsAnimating (Tick at_ clock) = false /\
  OldText (Tick at_ clock) = OldText at_ /\
  NewText (Tick at_ clock) = NewText at_.
Proof.
  intros Hidle. rewrite IsAnimating_false in Hidle.
  assert (RenderRunes (Tick at_ clock) = RenderRunes at_) as Hrunes.
  { unfold RenderRunes. simpl. destruct (MaxLength at_ <? 0); [done|].
    apply renderLoop_ext. apply list_eq. intros i.
    rewrite !list_lookup_fmap, list_lookup_imap.
    destruct (Chars at_ !! i) as [[c|]|] eqn:Hc; simpl; [|done..].
    f_equal. specialize (Hidle i c Hc). unfold tickCell.
    destruct (State c) eqn:Hst; simpl; rewrite ?Hst; done. }
  split; [exact Hrunes|]. split; [unfold Render; by rewrite Hrunes|].
  split; [|done]. rewrite IsAnimating_false. intros i c. simpl.
  rewrite list_lookup_imap.
  destruct (Chars at_ !! i) as [[c0|]|] eqn:Hc0; simpl; [|done..].
  intros [= <-]. specialize (Hidle i c0 Hc0). unfold tickCell.
  destruct (State c0) eqn:Hst; simpl; rewrite ?Hst; done.
Qed.

Lemma Tick_idle_field_witness :
  IsAnimating gateField = false /\
  Render (Tick gateField (clockAt 900000000)) = Some (str "A12   ").
Proof.
  split; [reflexivity|].
  destruct (Tick_idle_field gateField (clockAt 900000000) eq_refl)
    as (_ & -> & _).
  reflexivity.
Defined.

(** *** The blink *)

(** X5. While a cell flips, the glyph it shows alternates every 100 ms:
    a [Tick] that reads the clock [e] nanoseconds after the start of the
    flip, [e] at most 300 ms, leaves the cell blinking and showing the
    solid block when the number of whole 100 ms in [e] is even, the light
    block when it is odd. *)
Theorem blink_glyph_alternates (at_ : AnimatedText) (clock : Clock) (i : nat)
    (c : CharAnimation) :
  wfText at_ ->
  Chars at_ !! i = Some (Some c) ->
  State c = CharStateBlinking ->
  let elapsed := clock i - StartTime c in
  0 <= elapsed <= 300 * millisecond ->
  exists runes,
    RenderRunes (Tick at_ clock) = Some runes /\
    runes !! i =
      Some (if Z.even (elapsed / (100 * millisecond)) then solidBlock
            else lightBlock) /\
    cellState (Tick at_ clock) i = Some CharStateBlinking.
Proof.
  intros Hwf Hc Hst elapsed He.
  destruct (Tick_preserves_wf at_ clock Hwf) as [Hwf' _].
  rewrite (RenderRunes_wf _ Hwf'). eexists. split; [reflexivity|].
  unfold cellState. simpl. rewrite list_lookup_fmap, list_lookup_imap, Hc.
  simpl. unfold tickCell. rewrite Hst. fold elapsed.
  assert (sat64 elapsed = elapsed) as ->.
  { unfold sat64, minInt64, maxInt64, millisecond in *. lia. }
  destruct (Z.ltb_spec (300 * millisecond) elapsed); [lia|].
  split; [|done]. simpl. f_equal.
  assert (Z.rem (Z.quot (Z.quot elapsed millisecond) 100) 2 =
          (elapsed / (100 * millisecond)) mod 2) as ->.
  { unfold millisecond in *.
    rewrite (Z.quot_div_nonneg elapsed 1000000) by lia.
    rewrite (Z.quot_div_nonneg (elapsed / 1000000) 100)
      by (try apply Z.div_pos; lia).
    rewrite Z.rem_mod_nonneg
      by (try (apply Z.div_pos; [apply Z.div_pos|]); lia).
    f_equal. rewrite Z.div_div by lia. f_equal. }
  rewrite Zmod_even. by destruct (Z.even _).
Qed.

Lemma blink_glyph_alternates_witness :
  exists at1 c runes,
    Update gateField (str "B7") (clockAt 1000000000) = Some at1 /\
    Chars at1 !! 0%nat = Some (Some c) /\
    StartTime c = 1000000000 /\
    RenderRunes (Tick at1 (clockAt 1150000000)) = Some runes /\
    runes !! 0%nat = Some lightBlock.
Proof.
  eexists _, _. 
  edestruct (blink_glyph_alternates 
               (default gateField
                  (Update gateField (str "B7") (clockAt 1000000000)))
               (clockAt 1150000000) 0) as (runes & Hrunes & Hglyph & _).
  - vm_compute. split; [discriminate|reflexivity].
  - vm_compute. reflexivity.
  - reflexivity.
  - vm_compute. split; discriminate.
  - exists runes. split; [vm_compute; reflexivity|].
    split; [vm_compute; reflexivity|]. split; [reflexivity|].
    split; [exact Hrunes|exact Hglyph].
Defined.

(** ** The lines of the table *)

Lemma Render_count (w : Z) (at_ : AnimatedText) (s : gostring) :
  0 <= w -> wfField w at_ -> Render at_ = Some s -> RuneCountInString s = w.
Proof.
  intros Hw [Hmax Hlen]. unfold Render.
  rewrite RenderRunes_wf by (split; [lia|by rewrite Hmax]).
  intros [= <-]. rewrite RuneCountInString_stringOfRunes.
  unfold len. rewrite length_fmap, Hlen. lia.
Qed.

Lemma RuneCountInString_space (s : gostring) :
  RuneCountInString (space :: s) = 1 + RuneCountInString s.
Proof. by rewrite RuneCountInString_cons. Qed.

(** X6. The columns of the table line up: when the styles add no
    characters of their own, the header line and the line of every row,
    with a flight or without, flipping or at rest, are 68 characters
    wide. *)
Theorem table_lines_width (styles : SplitFlapStyles) :
  (forall s, RuneCountInString (Text styles s) = RuneCountInString s) ->
  (forall color s,
     RuneCountInString (StatusLight styles color s) = RuneCountInString s) ->
  (forall s, RuneCountInString (Header styles s) = RuneCountInString s) ->
  (forall b, Styles b = styles -> RuneCountInString (renderHeader b) = 68) /\
  (forall deref row line,
     wfRow row -> FlightRow_Render deref row styles = Some line ->
     RuneCountInString line = 68).
Proof.
  intros HText HLight HHeader. split.
  - intros b Hb. unfold renderHeader, joinSpaces. rewrite Hb.
    simpl flat_map.
    repeat first [rewrite RuneCountInString_app
                 |rewrite RuneCountInString_space | rewrite HHeader].
    reflexivity.
  - intros deref row line (H1 & H2 & H3 & H4 & H5 & H6).
    unfold FlightRow_Render. destruct (Flight_ row) as [ptr|].
    + destruct (deref ptr) as [flight|]; simpl; [|done].
      destruct (Render (StatusAnim row)) as [s1|] eqn:E1; simpl; [|done].
      destruct (Render (FlightNumAnim row)) as [s2|] eqn:E2; simpl; [|done].
      destruct (Render (TimeAnim row)) as [s3|] eqn:E3; simpl; [|done].
      destruct (Render (DestinationAnim row)) as [s4|] eqn:E4; simpl; [|done].
      destruct (Render (GateAnim row)) as [s5|] eqn:E5; simpl; [|done].
      destruct (Render (RemarksAnim row)) as [s6|] eqn:E6; simpl; [|done].
      intros [= <-].
      repeat first [rewrite RuneCountInString_app
                   |rewrite RuneCountInString_space
                   |rewrite HLight | rewrite HText].
      rewrite (Render_count 1 _ _ ltac:(lia) H1 E1),
        (Render_count 8 _ _ ltac:(lia) H2 E2),
        (Render_count 8 _ _ ltac:(lia) H3 E3),
        (Render_count 20 _ _ ltac:(lia) H4 E4),
        (Render_count 6 _ _ ltac:(lia) H5 E5),
        (Render_count 20 _ _ ltac:(lia) H6 E6).
      reflexivity.
    + intros [= <-]. by rewrite HText.
Qed.

Lemma table_lines_width_witness :
  RuneCountInString (renderHeader (board gateStore)) = 68 /\
  exists row line,
    rowHeap gateStore !! 0%nat = Some row /\
    FlightRow_Render (derefFlight (sliceHeap gateStore)) row plainStyles =
      Some line /\
    RuneCountInString line = 68.
Proof.
  destruct (table_lines_width plainStyles) as [Hheader Hrow]; try done.
  split; [by apply Hheader|].
  eexists _, _. split; [reflexivity|]. split; [vm_compute; reflexivity|].
  eapply (Hrow (derefFlight (sliceHeap gateStore))).
  - pose proof gateStore_wf as (Hrows & _).
    exact (Forall_lookup_1 _ _ 0%nat _ Hrows eq_refl).
  - vm_compute. reflexivity.
Defined.

(** ** The status light *)

(** X7. The indicator character together with the colour of the status
    light tells the five statuses apart, although ">" stands for both kinds
    of taxiing and orange for both kinds of delay; every other value of the
    status type shows a white blank. *)
Theorem status_light_distinguishes (f g : Flight) :
  (StatusOnTime <= Status f <= StatusCancelled ->
   StatusOnTime <= Status g <= StatusCancelled ->
   getStatusChar (Status f) = getStatusChar (Status g) ->
   GetStatusColor f = GetStatusColor g ->
   Status f = Status g) /\
  (Status f < StatusOnTime \/ StatusCancelled < Status f ->
   getStatusChar (Status f) = str " " /\ GetStatusColor f = str "white").
Proof.
  unfold StatusOnTime, StatusCancelled, GetStatusColor. split.
  - intros Hf Hg.
    assert (Status f = 0 \/ Status f = 1 \/ Status f = 2 \/ Status f = 3 \/
            Status f = 4) as Hf' by lia.
    assert (Status g = 0 \/ Status g = 1 \/ Status g = 2 \/ Status g = 3 \/
            Status g = 4) as Hg' by lia.
    destruct Hf' as [-> | [-> | [-> | [-> | ->]]]];
      destruct Hg' as [-> | [-> | [-> | [-> | ->]]]];
      vm_compute; congruence.
  - intros Hf. destruct (Status f) as [|[p|p|]|p]; try lia; try done.
    + destruct p as [[p|p|]|[p|p|]|]; try lia; done.
    + destruct p as [[p|p|]|[p|p|]|]; try lia; done.
Qed.

Lemma status_light_distinguishes_witness :
  getStatusChar (Status (delayed "BA114" 10 0 "A12" 13 30)) = str "!" /\
  (getStatusChar (Status (delayed "BA114" 10 0 "A12" 13 30)) =
     getStatusChar (Status (onTime "AF22" 9 30 "C3")) ->
   GetStatusColor (delayed "BA114" 10 0 "A12" 13 30) =
     GetStatusColor (onTime "AF22" 9 30 "C3") ->
   StatusDelayed = StatusOnTime).
Proof.
  split; [reflexivity|].
  apply (proj1 (status_light_distinguishes (delayed "BA114" 10 0 "A12" 13 30)
                  (onTime "AF22" 9 30 "C3"))); vm_compute; split; discriminate.
Defined.

(** ** [Board.Tick] *)

(** [Tick] never panics on listed rows that exist; it keeps the number of
    rows, the flight pointers and the field widths. *)
Lemma tickLoop_total clk ptrs :
  forall i rows,
    Forall (fun p => (p < length rows)%nat) ptrs ->
    exists rows',
      tickLoop clk i ptrs rows = Some rows' /\
      length rows' = length rows /\
      (forall p row', rows' !! p = Some row' ->
         exists row, rows !! p = Some row /\ Flight_ row' = Flight_ row /\
                     (wfRow row -> wfRow row')).
Proof.
  induction ptrs as [|p ptrs IH]; intros i rows Hptrs; simpl.
  - exists rows. repeat split; try done. intros p row' ->. eauto.
  - apply Forall_cons in Hptrs as [Hp Hptrs].
    destruct (lookup_lt_is_Some_2 rows p Hp) as [row Hrow]. rewrite Hrow.
    simpl.
    destruct (IH (S i) (<[p := FlightRow_Tick row (clk i)]> rows))
      as (rows' & Hrun & Hlen & Hrows).
    { by rewrite length_insert. }
    exists rows'. split; [done|]. rewrite Hlen, length_insert.
    split; [done|]. intros q row' Hq.
    destruct (Hrows q row' Hq) as (row1 & Hrow1 & Hptr & Hwf).
    destruct (decide (q = p)) as [->|Hne].
    + rewrite list_lookup_insert_eq in Hrow1 by done.
      injection Hrow1 as <-. exists row. split; [done|]. split; [done|].
      intros Hw. apply Hwf. by apply FlightRow_Tick_wf.
    + rewrite list_lookup_insert_ne in Hrow1 by done. eauto.
Qed.

Lemma tickLoop_once clk ptrs :
  forall i rows,
    NoDup ptrs ->
    Forall (fun p => (p < length rows)%nat) ptrs ->
    exists rows',
      tickLoop clk i ptrs rows = Some rows' /\
      (forall j p, ptrs !! j = Some p ->
         rows' !! p =
         (fun row => FlightRow_Tick row (clk (i + j)%nat)) <$> rows !! p) /\
      (forall p, p ∉ ptrs -> rows' !! p = rows !! p).
Proof.
  induction ptrs as [|p ptrs IH]; intros i rows Hnodup Hptrs; simpl.
  - exists rows. split; [done|]. split; [|done]. intros j p Hj. done.
  - apply NoDup_cons in Hnodup as [Hp Hnodup].
    apply Forall_cons in Hptrs as [Hlt Hptrs].
    destruct (lookup_lt_is_Some_2 rows p Hlt) as [row Hrow]. rewrite Hrow.
    simpl.
    destruct (IH (S i) (<[p := FlightRow_Tick row (clk i)]> rows) Hnodup)
      as (rows' & Hrun & Hin & Hout).
    { by rewrite length_insert. }
    exists rows'. split; [done|]. split.
    + intros [|j] q Hq; simpl in Hq.
      * injection Hq as <-. rewrite (Hout p Hp).
        rewrite list_lookup_insert_eq by done. rewrite Hrow. simpl.
        by rewrite Nat.add_0_r.
      * rewrite (Hin j q Hq).
        assert (q <> p) as Hne.
        { intros ->. apply Hp. by eapply list_elem_of_lookup_2. }
        rewrite list_lookup_insert_ne by done.
        by replace (S i + j)%nat with (i + S j)%nat by lia.
    + intros q Hq. apply not_elem_of_cons in Hq as [Hne Hq].
      rewrite (Hout q Hq). by rewrite list_lookup_insert_ne.
Qed.

Lemma Board_Tick_wfStore (st : Store) (clk : nat -> RowClock) :
  wfStore st ->
  exists st',
    Board_Tick st clk = Some st' /\ wfStore st' /\
    board st' = board st /\ sliceHeap st' = sliceHeap st /\
    length (rowHeap st') = length (rowHeap st).
Proof.
  intros (Hrows & Hptrs & Hlisted). unfold Board_Tick.
  destruct (tickLoop_total clk (Flights (board st)) 0 (rowHeap st) Hlisted)
    as (rows' & -> & Hlen & Hrows').
  simpl. eexists. split; [reflexivity|]. simpl.
  split; [|done]. split; [|split]; simpl.
  - apply Forall_lookup. intros p row' Hp.
    destruct (Hrows' p row' Hp) as (row & Hrow & _ & Hwf).
    apply Hwf. exact (Forall_lookup_1 _ _ _ _ Hrows Hrow).
  - apply Forall_lookup. intros p row' Hp ptr Hptr.
    destruct (Hrows' p row' Hp) as (row & Hrow & Hsame & _).
    rewrite Hsame in Hptr.
    exact (Forall_lookup_1 _ _ _ _ Hptrs Hrow ptr Hptr).
  - by rewrite Hlen.
Qed.

(** X8. [Board.Tick] never panics on a consistent store and changes
    neither the board nor the flight slices.  When no row is listed twice,
    every row of the board, on whatever page, receives exactly one
    [FlightRow.Tick], and the rows that the board does not list (rows of
    flights that are gone, filler rows of earlier renderings) are left
    alone. *)
Theorem Board_Tick_each_row_once (st : Store) (clk : nat -> RowClock) :
  wfStore st ->
  exists st',
    Board_Tick st clk = Some st' /\ wfStore st' /\
    board st' = board st /\ sliceHeap st' = sliceHeap st /\
    length (rowHeap st') = length (rowHeap st) /\
    (NoDup (Flights (board st)) ->
     (forall i p, Flights (board st) !! i = Some p ->
        exists row, rowHeap st !! p = Some row /\
                    rowHeap st' !! p = Some (FlightRow_Tick row (clk i))) /\
     (forall p, p ∉ Flights (board st) ->
        rowHeap st' !! p = rowHeap st !! p)).
Proof.
  intros Hwf.
  destruct (Board_Tick_wfStore st clk Hwf)
    as (st' & Hrun & Hwf' & Hboard & Hslices & Hlen).
  exists st'. repeat (split; [done|]). intros Hnodup.
  destruct Hwf as (_ & _ & Hlisted).
  destruct (tickLoop_once clk (Flights (board st)) 0 (rowHeap st) Hnodup
              Hlisted) as (rows' & Hloop & Hin & Hout).
  unfold Board_Tick in Hrun. rewrite Hloop in Hrun. simpl in Hrun.
  injection Hrun as <-. simpl. split; [|exact Hout].
  intros i p Hp. rewrite (Hin i p Hp). simpl.
  pose proof (Forall_lookup_1 _ _ _ _ Hlisted Hp) as Hlt.
  destruct (lookup_lt_is_Some_2 _ _ Hlt) as [row Hrow].
  exists row. by rewrite Hrow.
Qed.

Lemma Board_Tick_each_row_once_witness :
  exists st' row,
    Board_Tick gateStore (fun _ => rowClockAt 400000000) = Some st' /\
    rowHeap gateStore !! 1%nat = Some row /\
    rowHeap st' !! 1%nat = Some (FlightRow_Tick row (rowClockAt 400000000)) /\
    IsAnimating (GateAnim row) = true /\
    (forall row', rowHeap st' !! 1%nat = Some row' ->
       IsAnimating (GateAnim row') = false).
Proof.
  destruct (Board_Tick_each_row_once gateStore
              (fun _ => rowClockAt 400000000) gateStore_wf)
    as (st' & Hrun & _ & _ & _ & _ & Hrows).
  destruct Hrows as [Hin _].
  { apply NoDup_cons. split; [|apply NoDup_singleton].
    intros H%list_elem_of_singleton. discriminate. }
  destruct (Hin 1%nat 1%nat eq_refl) as (row & Hrow & Hrow').
  exists st', row. split; [exact Hrun|]. split; [exact Hrow|].
  split; [exact Hrow'|].
  vm_compute in Hrow. injection Hrow as <-.
  split; [reflexivity|]. intros row'. rewrite Hrow'. intros [= <-].
  reflexivity.
Defined.

(** ** Times on the board *)

(** X9. The time text of a row is a clock time for every instant and every
    zone offset, instants before 1970 included: two digits of an hour
    below 24, a colon and two digits of a minute below 60, the hour and
    minute of the local second of the day. *)
Theorem Format1504_clock_time (t : Time) :
  exists h1 h2 m1 m2,
    Format1504 t = [digit h1; digit h2; ":"%char; digit m1; digit m2] /\
    0 <= h1 <= 2 /\ 0 <= h2 <= 9 /\ 10 * h1 + h2 < 24 /\
    0 <= m1 <= 5 /\ 0 <= m2 <= 9 /\
    (10 * h1 + h2) * 3600 + (10 * m1 + m2) * 60 <= secondOfDay t <
      (10 * h1 + h2) * 3600 + (10 * m1 + m2) * 60 + 60 /\
    0 <= secondOfDay t < 86400.
Proof.
  set (s := secondOfDay t).
  assert (0 <= s < 86400) as Hs by (apply Z.mod_pos_bound; lia).
  exists (s / 3600 / 10), (s / 3600 mod 10), (s mod 3600 / 60 / 10),
    (s mod 3600 / 60 mod 10).
  assert (0 <= s / 3600 < 24) as Hh
    by (split; [apply Z.div_pos; lia|apply Z.div_lt_upper_bound; lia]).
  pose proof (Z.mod_pos_bound s 3600 ltac:(lia)) as Hr.
  assert (0 <= s mod 3600 / 60 < 60) as Hm
    by (split; [apply Z.div_pos; lia|apply Z.div_lt_upper_bound; lia]).
  pose proof (Z.div_mod (s / 3600) 10 ltac:(lia)) as Hh10.
  pose proof (Z.mod_pos_bound (s / 3600) 10 ltac:(lia)) as Hh2.
  pose proof (Z.div_mod (s mod 3600 / 60) 10 ltac:(lia)) as Hm10.
  pose proof (Z.mod_pos_bound (s mod 3600 / 60) 10 ltac:(lia)) as Hm2.
  pose proof (Z.div_mod s 3600 ltac:(lia)) as Hs3600.
  pose proof (Z.div_mod (s mod 3600) 60 ltac:(lia)) as Hs60.
  pose proof (Z.mod_pos_bound (s mod 3600) 60 ltac:(lia)) as Hsec.
  split; [reflexivity|]. repeat split; lia.
Qed.

(** X10. Converting a snapshot to the airport's timezone changes how its
    times are displayed and nothing else that matters later: a second
    conversion overrides the first (so [UpdateFlights] gives the same
    result on a slice that was converted before), and the order of two
    flights by scheduled departure does not depend on the timezone. *)
Theorem convertFlight_last_timezone_wins (tz1 : option Location)
    (tz2 : Location) (f g : Flight) :
  convertFlight (Some tz2) (convertFlight tz1 f) = convertFlight (Some tz2) f /\
  lessDeparture (convertFlight tz1 f) (convertFlight tz1 g) =
    lessDeparture f g.
Proof.
  split.
  - destruct tz1 as [tz1|]; [|done]. unfold convertFlight.
    destruct (EstimatedDeparture f) as [est|] eqn:Hest; simpl; [|done].
    by destruct (Status f =? StatusDelayed).
  - destruct tz1 as [tz1|]; [|done]. unfold convertFlight, lessDeparture.
    by destruct (EstimatedDeparture f), (EstimatedDeparture g).
Qed.

(** ** The page information *)

(** X11. On a board with more than one page the page information reads
    "Page k/n (first-last of total)" with [first] and [last] the positions,
    counted from 1, of the first and the last flight of the current page:
    [first <= last <= total], and [last - first + 1] is the number of rows
    of the page that carry a flight.  With a single page it is empty. *)
Theorem renderPageInfo_range (b : Board) :
  paginated b -> fitsInt b ->
  let perPage := effectivePerPage b in
  let total := len (Flights b) in
  let first := CurrentPage b * perPage + 1 in
  let last := Z.min ((CurrentPage b + 1) * perPage) total in
  (TotalPages b = 1 -> renderPageInfo b = []) /\
  (1 < TotalPages b ->
   renderPageInfo b =
     PageInfo (Styles b)
       (str "Page " ++ itoa (CurrentPage b + 1) ++ str "/" ++
        itoa (TotalPages b) ++ str " (" ++ itoa first ++ str "-" ++
        itoa last ++ str " of " ++ itoa total ++ str ")") /\
   1 <= first <= last /\ last <= total /\
   last - first + 1 =
     len (take (Z.to_nat perPage)
            (drop (Z.to_nat (CurrentPage b * perPage)) (Flights b)))).
Proof.
  intros Hpag Hfit perPage total first last.
  pose proof (effectivePerPage_pos b) as Hp. fold perPage in Hp.
  pose proof (paginated_total_bounds b Hpag Hfit) as Hbounds.
  destruct Hpag as [Htotal Hcur]. unfold fitsInt in Hfit.
  fold perPage total in Htotal, Hfit.
  unfold renderPageInfo. split.
  - intros ->. reflexivity.
  - intros Hmany. destruct (Z.leb_spec (TotalPages b) 1); [lia|].
    assert (TotalPages b = ceilDiv total perPage) as Hpages by lia.
    pose proof (ceilDiv_spec total perPage Hp) as Hceil.
    rewrite <- Hpages in Hceil.
    assert (CurrentPage b * perPage < total) as Hstart by nia.
    assert ((CurrentPage b + 1) * perPage = CurrentPage b * perPage + perPage)
      as Hend by ring.
    assert (0 <= CurrentPage b * perPage) as Hnonneg by nia.
    fold perPage total.
    rewrite (wrap64_id (CurrentPage b * perPage))
      by (unfold minInt64, maxInt64 in *; lia).
    rewrite (wrap64_id (CurrentPage b * perPage + 1))
      by (unfold minInt64, maxInt64 in *; lia).
    rewrite (wrap64_id (CurrentPage b + 1))
      by (unfold minInt64, maxInt64 in *; lia).
    rewrite (wrap64_id ((CurrentPage b + 1) * perPage))
      by (unfold minInt64, maxInt64 in *; lia).
    split; [|split; [|split]].
    + unfold last, first.
      destruct (Z.ltb_spec total ((CurrentPage b + 1) * perPage)).
      * by rewrite Z.min_r by lia.
      * by rewrite Z.min_l by lia.
    + unfold first, last. lia.
    + unfold last. lia.
    + unfold len, first, last, total, len in *.
      rewrite length_take, length_drop. lia.
Qed.

Lemma renderPageInfo_range_witness :
  paginated threePages /\ fitsInt threePages /\
  renderPageInfo threePages = str "Page 3/3 (5-5 of 5)".
Proof.
  assert (paginated threePages) as Hpag by (split; [reflexivity|simpl; lia]).
  assert (fitsInt threePages) as Hfit by (vm_compute; discriminate).
  split; [exact Hpag|]. split; [exact Hfit|].
  destruct (renderPageInfo_range threePages Hpag Hfit) as [_ Hmany].
  destruct Hmany as (-> & _); [reflexivity|]. reflexivity.
Defined.

(** ** The height of the frame *)

Lemma renderRows_length (st : Store) (l : list nat) :
  forall rows, renderRows st (Some <$> l) = Some rows ->
    length rows = length l.
Proof.
  induction l as [|p l IH]; intros rows.
  - by intros [= <-].
  - rewrite fmap_cons. simpl.
    destruct (rowHeap st !! p) as [row|]; simpl; [|done].
    destruct (FlightRow_Render _ _ _) as [rowStr|]; simpl; [|done].
    destruct (renderRows st (Some <$> l)) as [rest|] eqn:Hrest; simpl;
      [|done].
    intros [= <-]. simpl. f_equal. by apply IH.
Qed.

(** X12. The frame has the same height whatever the board shows: the
    sections that [Render] joins are the airport header, the error banner
    if there is an error, the table header, exactly one line per slot of
    the page (filler lines included) and the page information (possibly
    empty). *)
Theorem Board_sections_height (st : Store) :
  wfStore st -> 0 <= CurrentPage (board st) ->
  (CurrentPage (board st) + 1) * effectivePerPage (board st) <= maxInt64 ->
  exists rows,
    Board_rows st = Some rows /\
    len rows = effectivePerPage (board st) /\
    Board_sections st =
      Some ([renderAirportHeader (board st)] ++ errorBanner (board st) ++
            [renderHeader (board st)] ++ rows ++
            [renderPageInfo (board st)]) /\
    forall sections, Board_sections st = Some sections ->
      len sections =
      effectivePerPage (board st) + 3 +
      (if decide (Error (board st) = []) then 0 else 1).
Proof.
  intros Hwf Hcur Hfit.
  destruct (Board_rows_total st Hwf Hcur Hfit) as [rows Hrows].
  pose proof (effectivePerPage_pos (board st)) as Hp.
  assert (len rows = effectivePerPage (board st)) as Hlen.
  { unfold Board_rows in Hrows.
    rewrite GetCurrentPageFlights_closed in Hrows by done.
    simpl in Hrows. rewrite <- fmap_app in Hrows.
    apply renderRows_length in Hrows. unfold len. rewrite Hrows.
    rewrite length_app, length_seq.
    set (real := take _ _).
    assert (length real <= Z.to_nat (effectivePerPage (board st)))%nat
      by (unfold real; rewrite length_take; lia).
    lia. }
  exists rows. split; [done|]. split; [done|].
  rewrite Board_sections_rows, Hrows. simpl. split; [done|].
  intros sections [= <-]. unfold errorBanner, len in *.
  destruct (decide (Error (board st) = [])); simpl length;
    rewrite ?length_app; simpl length; lia.
Qed.

Lemma Board_sections_height_witness :
  exists sections,
    Board_sections gateStore = Some sections /\ len sections = 5.
Proof.
  destruct (Board_sections_height gateStore gateStore_wf)
    as (rows & _ & _ & Hsections & Hheight).
  - simpl. lia.
  - vm_compute. discriminate.
  - eexists. split; [exact Hsections|]. by rewrite (Hheight _ Hsections).
Defined.

(** ** Flights that come and go *)

Lemma new_field_updatedText (w : Z) (at0 : AnimatedText) text clk :
  NewAnimatedText w = Some at0 ->
  RenderRunes (updatedText at0 text clk) =
  Some (flipGlyph <$> normalizeText (Z.to_nat w) text).
Proof.
  intros Hnew.
  destruct (new_field_Update w at0 text clk Hnew) as (at1 & Hupd & Hrender & _).
  destruct (NewAnimatedText_wf w at0 Hnew) as [[Hw Hlen] Hmax].
  destruct (Update_updatedText at0 w text clk) as [Hupd' _]; [lia| |].
  { split; [done|]. by rewrite Hlen, Hmax. }
  congruence.
Qed.

Lemma new_row_flips_in ptr f clk : rowFlipsIn (updatedRow fillerRow ptr f clk) f.
Proof.
  repeat split; simpl.
  - exact (new_field_updatedText 1 _ _ _ eq_refl).
  - exact (new_field_updatedText 8 _ _ _ eq_refl).
  - exact (new_field_updatedText 8 _ _ _ eq_refl).
  - exact (new_field_updatedText 20 _ _ _ eq_refl).
  - exact (new_field_updatedText 6 _ _ _ eq_refl).
  - exact (new_field_updatedText 20 _ _ _ eq_refl).
Qed.

Lemma renderRows_fillers (st : Store) (l : list nat) :
  (forall p, p ∈ l -> exists row, rowHeap st !! p = Some row /\
                                  Flight_ row = None) ->
  renderRows st (Some <$> l) =
  Some (replicate (length l) (Text (Styles (board st)) emptyRow)).
Proof.
  induction l as [|p l IH]; intros Hl; [done|].
  rewrite fmap_cons. simpl.
  destruct (Hl p) as (row & -> & Hrow); [set_solver|]. simpl.
  unfold FlightRow_Render. rewrite Hrow. simpl.
  rewrite IH; [done|]. intros q Hq. apply Hl. set_solver.
Qed.

Section FlightsComeAndGo.
Context {sorter : SliceSorter} (Hsort : SortContract sorter).

(** X13. An empty snapshot clears the board: no row is listed any more,
    the board is on page 0 of 1, no row and no slice is touched, and the
    page is rendered as blank lines only. *)
Theorem UpdateFlights_empty_snapshot (st : Store) (a : nat)
    (clk : nat -> RowClock) :
  wfStore st -> sliceHeap st !! a = Some [] ->
  exists st',
    UpdateFlights (H := sorter) st a clk = Some st' /\
    rowHeap st' = rowHeap st /\ sliceHeap st' = sliceHeap st /\
    Flights (board st') = [] /\
    CurrentPage (board st') = 0 /\ TotalPages (board st') = 1 /\
    (effectivePerPage (board st) <= maxInt64 ->
     Board_rows st' =
     Some (replicate (Z.to_nat (effectivePerPage (board st)))
             (Text (Styles (board st)) emptyRow))).
Proof.
  intros Hwf Ha.
  destruct (UpdateFlights_closed Hsort st a clk [] Hwf Ha)
    as (m & _ & _ & _ & Hrun).
  assert (sortSlice lessDeparture
            (convertFlight (AirportTZ (board st)) <$> []) = []) as Hnil.
  { apply length_zero_iff_nil. by rewrite (sortSlice_length Hsort). }
  rewrite Hnil in Hrun. simpl in Hrun.
  rewrite app_nil_r, imap_id_row, list_insert_id in Hrun by done.
  eexists. split; [exact Hrun|]. simpl. repeat (split; [done|]).
  intros Hfit. unfold Board_rows.
  rewrite GetCurrentPageFlights_closed; simpl; [|lia|].
  2:{ change (effectivePerPage (updatePagination (setFlights (board st) [])))
        with (effectivePerPage (board st)). lia. }
  change (effectivePerPage (updatePagination (setFlights (board st) [])))
    with (effectivePerPage (board st)).
  rewrite take_nil. simpl. rewrite Nat.sub_0_r.
  rewrite renderRows_fillers; simpl.
  - by rewrite length_seq.
  - intros p Hp. apply elem_of_seq in Hp. exists fillerRow. split; [|done].
    rewrite lookup_app_r by lia. apply lookup_replicate_2. lia.
Qed.

(** X14. A flight whose number no row of the board carries gets a row of
    its own: a row allocated by this call (its address lies beyond the rows
    that existed), made by [NewFlightRow] from that entry of the sorted
    slice, with all its characters flipping in.  Two entries of the
    snapshot with such a number, even the same number, get two different
    rows. *)
Theorem new_flight_fresh_row (st : Store) (a : nat) (clk : nat -> RowClock)
    (flights : list Flight) (i : nat) (f : Flight) :
  let sorted :=
    sortSlice lessDeparture (convertFlight (AirportTZ (board st)) <$> flights) in
  let slices := <[a := sorted]> (sliceHeap st) in
  wfStore st -> sliceHeap st !! a = Some flights ->
  sorted !! i = Some f ->
  (forall q, q ∈ Flights (board st) ->
     rowKey (rowHeap st) slices q <> Some (FlightNumber f)) ->
  exists st' p row,
    UpdateFlights (H := sorter) st a clk = Some st' /\
    Flights (board st') !! i = Some p /\
    (length (rowHeap st) <= p)%nat /\
    rowHeap st' !! p = Some row /\
    NewFlightRow (Some ((a, i), f)) (clk i) = Some row /\
    Flight_ row = Some (a, i) /\
    rowFlipsIn row f /\
    (forall j g p', sorted !! j = Some g ->
       FlightNumber g = FlightNumber f ->
       Flights (board st') !! j = Some p' -> j <> i -> p' <> p).
Proof.
  intros sorted slices Hwf Ha Hi Hnew.
  destruct (UpdateFlights_rows Hsort st a clk flights Hwf Ha)
    as (st' & m & Hrun & _ & _ & _ & _ & Hm & _ & Hrows).
  fold sorted slices in Hm, Hrows.
  assert (m !! FlightNumber f = None) as Hnone.
  { destruct (m !! FlightNumber f) as [q|] eqn:Hq; [|done].
    destruct (Hm _ _ Hq) as (Hin & _ & Hkey). by destruct (Hnew q Hin). }
  pose proof (Hrows i f Hi) as Hrow. rewrite Hnone in Hrow.
  destruct Hrow as (p & Hp & Hfresh & Hrow).
  exists st', p, (updatedRow fillerRow (a, i) f (clk i)).
  split; [done|]. split; [done|]. split; [done|]. split; [done|].
  split; [apply NewFlightRow_updatedRow|]. split; [done|].
  split; [apply new_row_flips_in|].
  intros j g p' Hj Hsame Hp' Hne ->.
  pose proof (Hrows j g Hj) as Hrow'. rewrite Hsame, Hnone in Hrow'.
  destruct Hrow' as (p'' & Hp'' & _ & Hrow'').
  rewrite Hp' in Hp''. injection Hp'' as <-.
  rewrite Hrow in Hrow''. injection Hrow'' as Heq. by apply Hne.
Qed.

(** X15. A flight that is missing from the snapshot leaves the board: a
    row whose flight number no entry of the snapshot has is not listed
    afterwards, and the row itself is left as it was. *)
Theorem departed_flight_leaves_board (st : Store) (a : nat)
    (clk : nat -> RowClock) (flights : list Flight) (p : nat) (k : gostring) :
  let sorted :=
    sortSlice lessDeparture (convertFlight (AirportTZ (board st)) <$> flights) in
  let slices := <[a := sorted]> (sliceHeap st) in
  wfStore st -> sliceHeap st !! a = Some flights ->
  p ∈ Flights (board st) ->
  rowKey (rowHeap st) slices p = Some k ->
  k ∉ (FlightNumber <$> flights) ->
  exists st',
    UpdateFlights (H := sorter) st a clk = Some st' /\
    (p ∉ Flights (board st')) /\
    rowHeap st' !! p = rowHeap st !! p.
Proof.
  intros sorted slices Hwf Ha Hp Hkey Hgone.
  destruct (UpdateFlights_closed Hsort st a clk flights Hwf Ha)
    as (m & _ & Hm & _ & Hrun).
  fold sorted slices in Hm, Hrun.
  assert (forall f, f ∈ sorted -> m !! FlightNumber f <> Some p) as Hnot.
  { intros f Hf Hmp. destruct (Hm _ _ Hmp) as (_ & _ & Hkey').
    rewrite Hkey in Hkey'. injection Hkey' as ->. apply Hgone.
    unfold sorted in Hf. rewrite (sortSlice_perm _ Hsort) in Hf.
    apply list_elem_of_fmap in Hf as (g & -> & Hg).
    rewrite convertFlight_FlightNumber. apply list_elem_of_fmap. eauto. }
  destruct Hwf as (_ & _ & Hlisted).
  pose proof (proj1 (Forall_forall _ _) Hlisted p Hp) as Hlt. simpl in Hlt.
  eexists. split; [exact Hrun|]. simpl. split.
  - rewrite updatePagination_Flights. simpl.
    intros Hin. apply list_elem_of_lookup in Hin as [j Hj].
    assert (forall next l, Forall (fun f => m !! FlightNumber f <> Some p) l ->
              (p < next)%nat -> p ∉ pointersFor m next l) as Haux.
    { intros next l. revert next.
      induction l as [|f l IH]; intros next Hl Hnext; simpl; [set_solver|].
      apply Forall_cons in Hl as [Hf Hl].
      destruct (m !! FlightNumber f) as [q|] eqn:Hq.
      - apply not_elem_of_cons. split; [congruence|]. by apply IH.
      - apply not_elem_of_cons. split; [lia|]. apply IH; [done|lia]. }
    eapply (Haux (length (rowHeap st)) sorted); [|done|].
    + apply Forall_forall. exact Hnot.
    + by eapply list_elem_of_lookup_2.
  - rewrite lookup_app_l by (rewrite length_imap; lia).
    rewrite list_lookup_imap.
    destruct (rowHeap st !! p) as [row|]; [|done]. simpl. f_equal.
    apply rowAfter_none. apply Forall_forall. exact Hnot.
Qed.

End FlightsComeAndGo.

(** ** From the data source to the board *)

Lemma convertToFlight_cases (dep : AeroAPIDeparture) (scheduled : Time) :
  let f := convertToFlight dep scheduled in
  (Status f = StatusCancelled /\ Remarks f = RemarksCancelled /\
   EstimatedDeparture f = None) \/
  (Status f = StatusTaxiingDelayed /\ Remarks f = RemarksTaxiingDelayed /\
   EstimatedDeparture f = None) \/
  (Status f = StatusTaxiingLeftGate /\ Remarks f = RemarksTaxiingLeftGate /\
   EstimatedDeparture f = None) \/
  (Status f = StatusDelayed /\ Remarks f = RemarksDelayed /\
   EstimatedDeparture f = estimatedOf dep) \/
  (Status f = StatusOnTime /\ Remarks f = RemarksOnTime /\
   EstimatedDeparture f = None).
Proof.
  unfold convertToFlight.
  destruct (_ || _); [tauto|]. destruct (_ || _); [tauto|].
  destruct (_ || _); [tauto|]. destruct (_ || _ || _); tauto.
Qed.

Lemma present_Some (t : option Time) (u : Time) :
  present t = true -> t = Some u -> IsZero u = false.
Proof. intros Hp ->. simpl in Hp. by destruct (IsZero u). Qed.

Lemma estimatedOf_nonzero (dep : AeroAPIDeparture) (est : Time) :
  estimatedOf dep = Some est -> IsZero est = false.
Proof.
  unfold estimatedOf.
  destruct (present (EstimatedOut dep)) eqn:H1; [by apply present_Some|].
  destruct (present (Estimated <$> Departure dep)) eqn:H2;
    [by apply present_Some|done].
Qed.

Lemma convertToFlight_facts (dep : AeroAPIDeparture)
    (scheduled : Time) :
  let f := convertToFlight dep scheduled in
  StatusOnTime <= Status f <= StatusCancelled /\
  Remarks f = FlightStatus_String (Status f) /\
  ScheduledDeparture f = scheduled /\
  forall est, EstimatedDeparture f = Some est ->
    Status f = StatusDelayed /\ IsZero est = false /\
    estimatedOf dep = Some est.
Proof.
  intros f.
  destruct (convertToFlight_cases dep scheduled)
    as [(Hs & Hr & He) | [(Hs & Hr & He) | [(Hs & Hr & He) |
        [(Hs & Hr & He) | (Hs & Hr & He)]]]];
    fold f in Hs, Hr, He; rewrite Hs, Hr, He;
    (split; [done|]); (split; [done|]);
    (split; [unfold f, convertToFlight;
             repeat (destruct (_ || _); [done|]); done|]);
    intros est Hest; try done.
  split; [done|]. split; [by apply (estimatedOf_nonzero dep)|done].
Qed.

(** X16. Whatever the data source sends, the flight that [convertToFlight]
    makes has one of the five statuses, its remark is the name of that
    status, and it has an estimated departure only when it is Delayed, an
    estimate that is not the zero time. *)
Theorem convertToFlight_status_remarks (dep : AeroAPIDeparture)
    (scheduled : Time) :
  let f := convertToFlight dep scheduled in
  StatusOnTime <= Status f <= StatusCancelled /\
  Remarks f = FlightStatus_String (Status f) /\
  ScheduledDeparture f = scheduled /\
  forall est, EstimatedDeparture f = Some est ->
    Status f = StatusDelayed /\ IsZero est = false /\
    estimatedOf dep = Some est.
Proof. apply convertToFlight_facts. Qed.

(** X17. The remark that the board shows for a flight of the data source is
    the name of its status, or "Delayed EST: HH:MM" with the estimate in the
    airport's timezone when the flight is Delayed and has an estimate;
    either way it fits the 20 columns of the remarks field, so it is never
    cut. *)
Theorem api_remarks_on_board (dep : AeroAPIDeparture) (scheduled : Time)
    (tz : Location) :
  let f := convertToFlight dep scheduled in
  let g := convertFlight (Some tz) f in
  Status g = Status f /\
  match EstimatedDeparture f with
  | Some est =>
      Status g = StatusDelayed /\
      Remarks g = str "Delayed EST: " ++ Format1504 (In_ est tz)
  | None => Remarks g = FlightStatus_String (Status g)
  end /\
  remarksText g = Remarks g /\
  len (Remarks g) <= 20.
Proof.
  intros f g.
  destruct (convertToFlight_facts dep scheduled)
    as (Hrange & Hname & _ & Hest). fold f in Hrange, Hname, Hest.
  assert (Status g = Status f) as Hstatus.
  { unfold g, convertFlight. by destruct (EstimatedDeparture f). }
  assert (match EstimatedDeparture f with
          | Some est =>
              Status g = StatusDelayed /\
              Remarks g = str "Delayed EST: " ++ Format1504 (In_ est tz)
          | None => Remarks g = FlightStatus_String (Status g)
          end) as Hremark.
  { destruct (EstimatedDeparture f) as [est|] eqn:He.
    - destruct (Hest est eq_refl) as (Hdelayed & _).
      split; [congruence|]. unfold g, convertFlight. rewrite He. simpl.
      by rewrite Hdelayed.
    - rewrite Hstatus, <- Hname. unfold g, convertFlight. by rewrite He. }
  assert (len (Remarks g) <= 20) as Hlen.
  { destruct (EstimatedDeparture f) as [est|].
    - destruct Hremark as [_ ->].
      unfold Format1504, twoDigits, len. simpl length. lia.
    - rewrite Hremark, Hstatus. unfold StatusOnTime, StatusCancelled in Hrange.
      assert (Status f = 0 \/ Status f = 1 \/ Status f = 2 \/ Status f = 3 \/
              Status f = 4) as Hcases by lia.
      destruct Hcases as [-> | [-> | [-> | [-> | ->]]]];
        vm_compute; discriminate. }
  split; [done|]. split; [done|]. split; [|done].
  unfold remarksText. apply take_ge. unfold len in Hlen. lia.
Qed.

Lemma departuresLoop_accept (cutoffTime : option Time)
    (dep : AeroAPIDeparture) (rest : list AeroAPIDeparture)
    (flights : list Flight) :
  len flights < maxFlights ->
  departuresLoop cutoffTime (dep :: rest) flights =
  departuresLoop cutoffTime rest
    (flights ++ option_list (acceptDeparture cutoffTime dep)).
Proof.
  intros Hlen. simpl. destruct (Z.leb_spec maxFlights (len flights)); [lia|].
  unfold acceptDeparture.
  destruct (scheduledOf dep) as [scheduled|]; simpl;
    [|by rewrite app_nil_r].
  destruct (IsZero scheduled); simpl; [by rewrite app_nil_r|].
  destruct cutoffTime as [ct|]; [|done].
  destruct (After scheduled ct); simpl; [by rewrite app_nil_r|done].
Qed.

Lemma departuresLoop_closed (cutoffTime : option Time)
    (deps : list AeroAPIDeparture) :
  forall flights,
    len flights <= maxFlights ->
    departuresLoop cutoffTime deps flights =
    flights ++ take (Z.to_nat (maxFlights - len flights))
                 (omap (acceptDeparture cutoffTime) deps).
Proof.
  induction deps as [|dep rest IH]; intros flights Hlen.
  - simpl. by rewrite take_nil, app_nil_r.
  - destruct (decide (len flights = maxFlights)) as [Hfull|Hroom].
    + simpl. destruct (Z.leb_spec maxFlights (len flights)); [|lia].
      rewrite Hfull, Z.sub_diag. simpl. by rewrite app_nil_r.
    + rewrite departuresLoop_accept by lia.
      destruct (acceptDeparture cutoffTime dep) as [f|] eqn:Hf; simpl.
      * rewrite IH by (unfold len in *; rewrite length_app; simpl; lia).
        rewrite Hf, <- app_assoc. simpl. unfold len. rewrite length_app.
        simpl length.
        replace (Z.to_nat (maxFlights - Z.of_nat (length flights)))
          with (S (Z.to_nat (maxFlights -
                             Z.of_nat (length flights + 1)%nat)))
          by (unfold len in *; lia).
        done.
      * rewrite app_nil_r, Hf. by apply IH.
Qed.

Lemma acceptDeparture_Some (cutoffTime : option Time)
    (dep : AeroAPIDeparture) (f : Flight) :
  acceptDeparture cutoffTime dep = Some f ->
  exists scheduled,
    scheduledOf dep = Some scheduled /\
    f = convertToFlight dep scheduled /\
    IsZero scheduled = false /\
    (forall ct, cutoffTime = Some ct -> unixNano scheduled <= unixNano ct).
Proof.
  unfold acceptDeparture.
  destruct (scheduledOf dep) as [scheduled|]; simpl; [|done].
  destruct (IsZero scheduled) eqn:Hzero; [done|].
  destruct cutoffTime as [ct|].
  - unfold After. destruct (Z.ltb_spec (unixNano ct) (unixNano scheduled));
      [done|].
    intros [= <-]. exists scheduled. repeat split; try done.
    by intros ? [= <-].
  - intros [= <-]. exists scheduled. repeat split; done.
Qed.

(** X18. [GetDepartures] returns the first 50 acceptable departures of the
    response, converted, in the order of the response: a departure is
    acceptable when one of its three time fields, tried in the order
    departure.scheduled, scheduled_out, estimated_out, is set and not the
    zero time, and that time is not after the cut-off, [hours] hours past
    the clock reading.  With [hours <= 0] there is no cut-off.  So the
    result has at most 50 flights, each with a scheduled departure that is
    not the zero time. *)
Theorem filterDepartures_first_fifty (now : Time) (hours : Z)
    (deps : list AeroAPIDeparture) :
  let cutoffTime :=
    if 0 <? hours then Some (Add now (wrap64 (hours * Hour))) else None in
  let flights := filterDepartures now hours deps in
  flights = take 50 (omap (acceptDeparture cutoffTime) deps) /\
  len flights <= 50 /\
  (forall i f, flights !! i = Some f ->
     exists dep scheduled,
       dep ∈ deps /\ scheduledOf dep = Some scheduled /\
       f = convertToFlight dep scheduled /\
       ScheduledDeparture f = scheduled /\
       IsZero scheduled = false /\
       (0 < hours ->
        unixNano scheduled <= unixNano now + wrap64 (hours * Hour))) /\
  (len (omap (acceptDeparture cutoffTime) deps) <= 50 ->
   flights = omap (acceptDeparture cutoffTime) deps).
Proof.
  intros cutoffTime flights.
  assert (flights = take 50 (omap (acceptDeparture cutoffTime) deps)) as Heq.
  { unfold flights, filterDepartures. fold cutoffTime.
    by rewrite departuresLoop_closed. }
  split; [done|]. split; [|split].
  - rewrite Heq. unfold len. rewrite length_take. lia.
  - intros i f Hf. rewrite Heq in Hf.
    apply lookup_take_Some in Hf as [Hf _].
    apply list_elem_of_lookup_2, list_elem_of_omap in Hf as (dep & Hdep & Hacc).
    destruct (acceptDeparture_Some _ _ _ Hacc)
      as (scheduled & Hsched & -> & Hzero & Hcut).
    exists dep, scheduled. repeat (split; [done|]).
    split; [apply convertToFlight_facts|]. split; [done|].
    intros Hhours. unfold cutoffTime in Hcut.
    destruct (Z.ltb_spec 0 hours); [|lia].
    exact (Hcut _ eq_refl).
  - intros Hshort. rewrite Heq. apply take_ge. unfold len in Hshort. lia.
Qed.

(** ** The timezone table *)

Lemma timezoneMap_keys (code tzName : gostring) :
  timezoneMap !! code = Some tzName ->
  len code = 3 /\ forallb isUpper code = true.
Proof.
  intros Hcode. apply elem_of_list_to_map_2 in Hcode.
  apply list_elem_of_fmap in Hcode as (entry & Hentry & Hin).
  injection Hentry as -> _.
  assert (forallb (fun e : string * string =>
                     (len (str e.1) =? 3) && forallb isUpper (str e.1))
                  timezoneEntries = true) as Hall
    by (vm_compute; reflexivity).
  rewrite forallb_forall in Hall.
  apply list_elem_of_In, Hall in Hin.
  apply andb_prop in Hin as [Hlen Hupper]. split; [lia|done].
Qed.

(** X19. [GetAirportTimezone] answers UTC for every code that is not a key
    of its table, whatever the time zone database holds; the keys are all
    three upper-case letters, so the lookup never succeeds for a code in
    another spelling ("jfk", " JFK").  For a key it answers the zone that
    the database has under the table's name, and UTC when the database
    does not have it. *)
Theorem GetAirportTimezone_table (LoadLocation : gostring -> option Location)
    (code : gostring) :
  (timezoneMap !! code = None ->
   GetAirportTimezone LoadLocation code = UTC) /\
  (len code <> 3 \/ forallb isUpper code = false ->
   GetAirportTimezone LoadLocation code = UTC) /\
  (forall tzName, timezoneMap !! code = Some tzName ->
     len code = 3 /\ forallb isUpper code = true /\
     GetAirportTimezone LoadLocation code =
       default UTC (LoadLocation tzName)).
Proof.
  split; [|split].
  - intros Hcode. unfold GetAirportTimezone. rewrite Hcode. reflexivity.
  - intros Hbad. unfold GetAirportTimezone.
    destruct (timezoneMap !! code) as [tzName|] eqn:Hcode; [|reflexivity].
    destruct (timezoneMap_keys code tzName Hcode) as [Hlen Hupper].
    destruct Hbad as [Hbad|Hbad]; [lia|congruence].
  - intros tzName Hcode.
    destruct (timezoneMap_keys code tzName Hcode) as [Hlen Hupper].
    split; [exact Hlen|]. split; [exact Hupper|].
    unfold GetAirportTimezone. rewrite Hcode.
    destruct (LoadLocation tzName); reflexivity.
Qed.

Lemma GetAirportTimezone_table_witness :
  timezoneMap !! str "LHR" = Some (str "Europe/London") /\
  GetAirportTimezone (fun _ => Some plusOne) (str "LHR") = plusOne /\
  GetAirportTimezone (fun _ => Some plusOne) (str "lhr") = UTC.
Proof.
  destruct (GetAirportTimezone_table (fun _ => Some plusOne) (str "LHR"))
    as (_ & _ & Hlisted).
  destruct (GetAirportTimezone_table (fun _ => Some plusOne) (str "lhr"))
    as (_ & Hbad & _).
  assert (timezoneMap !! str "LHR" = Some (str "Europe/London")) as Hkey
    by (vm_compute; reflexivity).
  split; [exact Hkey|]. split.
  - destruct (Hlisted _ Hkey) as (_ & _ & ->). reflexivity.
  - apply Hbad. right. reflexivity.
Defined.

(** ** The configuration *)

(** X20. Whatever the environment holds, the configuration has at least
    one page to fetch, 15 flights per page, an outlook of 6 hours and an
    animation tick of 250 ms: MAX_PAGES can only replace the 3 pages by
    another positive number that [strconv.Atoi] reads from it, and no
    variable reaches the other three.  The API key and the airport code are
    the values of their variables. *)
Theorem LoadConfig_settings (Getenv : gostring -> gostring)
    (ParseDuration : gostring -> option Z) :
  let cfg := LoadConfig Getenv ParseDuration in
  1 <= MaxPages cfg <= maxInt64 /\
  (MaxPages cfg = 3 \/
   Atoi (Getenv (str "MAX_PAGES")) = Some (MaxPages cfg)) /\
  cfg_FlightsPerPage cfg = 15 /\ LookaheadHours cfg = 6 /\
  TotalFlights cfg = 50 /\ CharAnimationSpeed cfg = 250 * millisecond /\
  APIKey cfg = Getenv (str "FLIGHTAWARE_API_KEY") /\
  cfg_AirportCode cfg = Getenv (str "AIRPORT_CODE").
Proof.
  intros cfg.
  assert (forall key, getEnv Getenv key [] = Getenv key) as HgetEnv.
  { intros key. unfold getEnv. by destruct (decide _) as [->|]. }
  assert (forall s n, Atoi s = Some n -> n <= maxInt64) as Hrange.
  { intros s n. unfold Atoi.
    destruct (match s with [] => _ | _ => _ end) as [negative digits].
    destruct (_ || _); [done|].
    destruct (Z.leb_spec minInt64
                (if negative then - digitsValue digits
                 else digitsValue digits)); simpl; [|done].
    destruct (Z.leb_spec
                (if negative then - digitsValue digits
                 else digitsValue digits) maxInt64); [|done].
    by intros [= <-]. }
  assert (1 <= MaxPages cfg <= maxInt64 /\
          (MaxPages cfg = 3 \/
           Atoi (Getenv (str "MAX_PAGES")) = Some (MaxPages cfg))) as Hpages.
  { unfold cfg, LoadConfig. cbn [MaxPages].
    destruct (decide (Getenv (str "MAX_PAGES") = []));
      [split; [unfold maxInt64; lia|by left]|].
    destruct (Atoi (Getenv (str "MAX_PAGES"))) as [pages|] eqn:Hpages;
      [|split; [unfold maxInt64; lia|by left]].
    destruct (Z.ltb_spec 0 pages); [|split; [unfold maxInt64; lia|by left]].
    split; [|by right]. split; [lia|]. by apply (Hrange _ _ Hpages). }
  destruct Hpages as [Hpages1 Hpages2].
  split; [exact Hpages1|]. split; [exact Hpages2|].
  unfold cfg, LoadConfig. simpl. rewrite !HgetEnv. repeat split.
Qed.

(** ** Upper-case letters *)

Lemma runeOfByte_byteOfZ (z : Z) : 0 <= z < 256 -> runeOfByte (byteOfZ z) = z.
Proof.
  intros Hz. unfold runeOfByte, byteOfZ.
  rewrite N_ascii_embedding by lia. lia.
Qed.

Lemma isUpper_spec (b : ascii) :
  isUpper b = true <-> 65 <= runeOfByte b <= 90.
Proof. unfold isUpper. by rewrite andb_true_iff, !Z.leb_le. Qed.

Lemma isLower_spec (b : ascii) :
  isLower b = true <-> 97 <= runeOfByte b <= 122.
Proof. unfold isLower. by rewrite andb_true_iff, !Z.leb_le. Qed.

Lemma isASCII_spec (b : ascii) : isASCII b = true <-> runeOfByte b < 128.
Proof. unfold isASCII. by rewrite Z.ltb_lt. Qed.

Lemma asciiSpace_spec (b : ascii) :
  asciiSpace b = true <-> 9 <= runeOfByte b <= 13 \/ runeOfByte b = 32.
Proof.
  unfold asciiSpace. by rewrite orb_true_iff, andb_true_iff, !Z.leb_le, Z.eqb_eq.
Qed.

Lemma isUpper_isASCII (b : ascii) : isUpper b = true -> isASCII b = true.
Proof. rewrite isUpper_spec, isASCII_spec. lia. Qed.

Lemma isUpper_not_space (b : ascii) : isUpper b = true -> asciiSpace b = false.
Proof.
  rewrite isUpper_spec. intros Hb. apply not_true_iff_false.
  rewrite asciiSpace_spec. lia.
Qed.

Lemma isUpper_upperByte (b : ascii) : isUpper b = true -> upperByte b = b.
Proof.
  rewrite isUpper_spec. intros Hb. unfold upperByte.
  destruct (isLower b) eqn:Hlow; [|done].
  apply isLower_spec in Hlow. lia.
Qed.

Lemma upperByte_letter (b : ascii) :
  isUpper b || isLower b = true -> isUpper (upperByte b) = true.
Proof.
  intros Hb. unfold upperByte. destruct (isLower b) eqn:Hlow.
  - apply isLower_spec in Hlow. apply isUpper_spec.
    rewrite runeOfByte_byteOfZ by lia. lia.
  - by rewrite orb_false_r in Hb.
Qed.

Lemma forallb_upper_ascii (s : gostring) :
  forallb isUpper s = true -> forallb isASCII s = true.
Proof.
  rewrite !forallb_forall. intros Hs b Hb. by apply isUpper_isASCII, Hs.
Qed.

Lemma forallb_reverse {A : Type} (P : A -> bool) (l : list A) :
  forallb P (reverse l) = forallb P l.
Proof.
  induction l as [|x l IH]; [done|].
  rewrite reverse_cons, forallb_app, IH. simpl. rewrite andb_true_r.
  apply andb_comm.
Qed.

Lemma trimLeft_upper (s : gostring) :
  forallb isUpper s = true -> trimLeft s = s.
Proof.
  destruct s as [|b s]; [done|]. simpl. intros [Hb _]%andb_prop.
  by rewrite isUpper_not_space.
Qed.

Section Letters.
Context (ToUpperUnicode TrimSpaceUnicode : gostring -> gostring).

Lemma ToUpper_upper (s : gostring) :
  forallb isUpper s = true -> ToUpper ToUpperUnicode s = s.
Proof.
  intros Hs. unfold ToUpper. rewrite forallb_upper_ascii by done.
  rewrite forallb_forall in Hs.
  induction s as [|b s IH]; [done|]. rewrite fmap_cons.
  rewrite isUpper_upperByte by (apply Hs; by left).
  f_equal. apply IH. intros c Hc. apply Hs. by right.
Qed.

Lemma TrimSpace_upper (s : gostring) :
  forallb isUpper s = true -> TrimSpace TrimSpaceUnicode s = s.
Proof.
  intros Hs. unfold TrimSpace. rewrite forallb_upper_ascii by done.
  rewrite (trimLeft_upper s Hs).
  rewrite trimLeft_upper by (by rewrite forallb_reverse).
  apply reverse_involutive.
Qed.

Lemma ToUpper_letter (b : ascii) :
  isUpper b || isLower b = true ->
  ToUpper ToUpperUnicode [b] = [upperByte b].
Proof.
  intros Hb. unfold ToUpper. simpl.
  assert (isASCII b = true) as ->; [|done].
  apply isASCII_spec. apply orb_prop in Hb as [Hb|Hb].
  - apply isUpper_spec in Hb. lia.
  - apply isLower_spec in Hb. lia.
Qed.

End Letters.

(** ** The keys *)

Lemma forallb_take {A : Type} (P : A -> bool) (n : nat) (l : list A) :
  forallb P l = true -> forallb P (take n l) = true.
Proof.
  rewrite !forallb_forall. intros Hl x Hx. apply Hl.
  apply list_elem_of_In. apply list_elem_of_In in Hx.
  by apply (subseteq_take n l).
Qed.

Section ProgramProperties.
Context (LoadLocation : gostring -> option Location).
Context (ToUpperUnicode TrimSpaceUnicode : gostring -> gostring).
Context (styles : SplitFlapStyles).
Context (JoinVertical : list gostring -> gostring).
Context {sorter : SliceSorter}.

Local Abbreviation Update :=
  (main.Update LoadLocation ToUpperUnicode TrimSpaceUnicode (sorter := sorter)).
Local Abbreviation enterKey :=
  (main.enterKey LoadLocation ToUpperUnicode TrimSpaceUnicode).
Local Abbreviation letterKey := (main.letterKey ToUpperUnicode).
Local Abbreviation View := (main.View JoinVertical).

Lemma enterKey_valid (m : main.model) (st : Store) :
  forallb isUpper (main.airportInput m) = true ->
  len (main.airportInput m) = 3 ->
  enterKey m st =
  ({| main.apiClient := main.apiClient m; main.cfg := main.cfg m;
      main.airportCode := main.airportInput m; main.loading := true;
      main.err := main.err m; main.inputMode := false;
      main.airportInput := [] |},
   setBoard st
     {| Flights := Flights (board st); CurrentPage := 0;
        TotalPages := TotalPages (board st);
        AirportCode := main.airportInput m;
        AirportTZ :=
          Some (GetAirportTimezone LoadLocation (main.airportInput m));
        FlightsPerPage := cfg_FlightsPerPage (main.cfg m);
        Error := []; Styles := Styles (board st) |},
   main.fetchFlights (main.apiClient m) (main.airportInput m)
     (LookaheadHours (main.cfg m)) (MaxPages (main.cfg m))).
Proof.
  intros Hupper Hlen. unfold main.enterKey.
  rewrite TrimSpace_upper, ToUpper_upper by done.
  unfold main.lettersOnly. rewrite Hupper, Hlen. reflexivity.
Qed.

Lemma enterKey_invalid (m : main.model) (st : Store) :
  forallb isUpper (main.airportInput m) = true ->
  len (main.airportInput m) <> 3 ->
  enterKey m st = (main.setInput m false [], st, main.nilCmd).
Proof.
  intros Hupper Hlen. unfold main.enterKey.
  rewrite TrimSpace_upper, ToUpper_upper by done.
  destruct (Z.eqb_spec (len (main.airportInput m)) 3); [done|].
  reflexivity.
Qed.

Lemma letterKey_input (m : main.model) (key : gostring) :
  len (main.airportInput m) <= 3 ->
  forallb isUpper (main.airportInput m) = true ->
  len (main.airportInput (letterKey m key)) <= 3 /\
  forallb isUpper (main.airportInput (letterKey m key)) = true /\
  main.airportCode (letterKey m key) = main.airportCode m /\
  main.loading (letterKey m key) = main.loading m /\
  main.inputMode (letterKey m key) = main.inputMode m /\
  main.cfg (letterKey m key) = main.cfg m /\
  main.apiClient (letterKey m key) = main.apiClient m /\
  forall b, key = [b] -> isUpper b || isLower b = true ->
    len (main.airportInput m) < 3 ->
    main.airportInput (letterKey m key) =
    main.airportInput m ++ [upperByte b].
Proof.
  intros Hlen Hupper. unfold main.letterKey.
  destruct (Z.ltb_spec (len (main.airportInput m)) 3) as [Hroom|Hfull].
  - destruct key as [|b [|b' key]]; try (repeat split; try done; fail).
    destruct (isUpper b || isLower b) eqn:Hletter.
    + rewrite ToUpper_letter by done. simpl.
      repeat split; try done.
      * unfold len in *. rewrite length_app. simpl. lia.
      * rewrite forallb_app, Hupper. simpl.
        by rewrite upperByte_letter.
      * by intros ? [= <-] _ _.
    + repeat split; try done. intros ? [= <-]. congruence.
  - repeat split; try done. intros; lia.
Qed.

(** X21. In the input mode no key ends the program, not even "q" or
    "ctrl+c", and no key but "enter" touches the board or starts a fetch.
    The input never holds more than three bytes, all of them upper-case
    letters: a letter key adds its upper-case letter while there is room,
    "backspace" removes the last one, any other key is ignored. *)
Theorem input_mode_keys (m : main.model) (st : Store) (key : gostring)
    (clk : nat -> RowClock) :
  main.inputMode m = true ->
  len (main.airportInput m) <= 3 ->
  forallb isUpper (main.airportInput m) = true ->
  exists m' st' cmd,
    Update m st (main.KeyMsg key) clk = Some (m', st', cmd) /\
    cmd <> main.Quit /\
    len (main.airportInput m') <= 3 /\
    forallb isUpper (main.airportInput m') = true /\
    rowHeap st' = rowHeap st /\ sliceHeap st' = sliceHeap st /\
    Flights (board st') = Flights (board st) /\
    (key <> str "enter" ->
     st' = st /\ cmd = main.nilCmd /\
     main.airportCode m' = main.airportCode m /\
     main.loading m' = main.loading m) /\
    (key = str "backspace" ->
     main.airportInput m' =
       take (length (main.airportInput m) - 1) (main.airportInput m) /\
     main.inputMode m' = true) /\
    (forall b, key = [b] -> isUpper b || isLower b = true ->
       len (main.airportInput m) < 3 ->
       main.airportInput m' = main.airportInput m ++ [upperByte b] /\
       main.inputMode m' = true).
Proof.
  intros Hmode Hlen Hupper. unfold main.Update. rewrite Hmode.
  destruct (bool_decide (key = str "enter")) eqn:Henter.
  { apply bool_decide_eq_true in Henter. subst key.
    destruct (decide (len (main.airportInput m) = 3)) as [H3|H3].
    - rewrite enterKey_valid by done.
      eexists _, _, _. split; [reflexivity|]. simpl.
      repeat split; done.
    - rewrite enterKey_invalid by done.
      eexists _, _, _. split; [reflexivity|]. simpl.
      repeat split; done. }
  apply bool_decide_eq_false in Henter.
  destruct (bool_decide (key = str "esc")) eqn:Hesc.
  { apply bool_decide_eq_true in Hesc. subst key.
    eexists _, _, _. split; [reflexivity|]. simpl.
    repeat split; done. }
  destruct (bool_decide (key = str "backspace")) eqn:Hback.
  { apply bool_decide_eq_true in Hback. subst key.
    pose proof (len_nonneg (main.airportInput m)) as Hnonneg.
    destruct (Z.ltb_spec 0 (len (main.airportInput m))) as [Hsome|Hnone].
    - unfold sliceTo.
      rewrite wrap64_id by (unfold minInt64, maxInt64; lia).
      destruct (Z.ltb_spec (len (main.airportInput m) - 1) 0); [lia|].
      destruct (Z.ltb_spec (len (main.airportInput m))
                  (len (main.airportInput m) - 1)); [lia|].
      simpl. eexists _, _, _. split; [reflexivity|]. simpl.
      replace (Z.to_nat (len (main.airportInput m) - 1))
        with (length (main.airportInput m) - 1)%nat by (unfold len; lia).
      repeat split; try done.
      + unfold len in *. rewrite length_take. lia.
      + by apply forallb_take.
    - eexists _, _, _. split; [reflexivity|]. simpl.
      repeat split; try done.
      unfold len in *. destruct (main.airportInput m); [done|simpl in *; lia]. }
  apply bool_decide_eq_false in Hesc, Hback.
  destruct (letterKey_input m key Hlen Hupper)
    as (H1 & H2 & H3 & H4 & H5 & _ & _ & H6).
  eexists _, _, _. split; [reflexivity|].
  do 6 (split; [done|]). split; [by intros _|]. split; [done|].
  intros b Hb Hletter Hroom. split; [by apply H6|by rewrite H5].
Qed.

(** X22. "enter" always leaves the input mode with an empty input.  It
    changes the airport exactly when three letters have been entered: then
    the model and the board take the three letters as airport code, the
    board gets the timezone of that code, goes to page 0 and loses its
    error, the fetch for the new airport is the command returned, and the
    rows that the board lists stay, so they are shown under the new
    airport until the fetch answers.  With fewer letters nothing else
    changes and nothing is fetched. *)
Theorem enter_key_switches_airport (m : main.model) (st : Store)
    (clk : nat -> RowClock) :
  main.inputMode m = true ->
  len (main.airportInput m) <= 3 ->
  forallb isUpper (main.airportInput m) = true ->
  exists m' st' cmd,
    Update m st (main.KeyMsg (str "enter")) clk = Some (m', st', cmd) /\
    main.inputMode m' = false /\ main.airportInput m' = [] /\
    rowHeap st' = rowHeap st /\ sliceHeap st' = sliceHeap st /\
    Flights (board st') = Flights (board st) /\
    TotalPages (board st') = TotalPages (board st) /\
    (len (main.airportInput m) = 3 ->
     main.airportCode m' = main.airportInput m /\
     main.loading m' = true /\
     AirportCode (board st') = main.airportInput m /\
     AirportTZ (board st') =
       Some (GetAirportTimezone LoadLocation (main.airportInput m)) /\
     CurrentPage (board st') = 0 /\ Error (board st') = [] /\
     FlightsPerPage (board st') = cfg_FlightsPerPage (main.cfg m) /\
     cmd = main.fetchFlights (main.apiClient m) (main.airportInput m)
             (LookaheadHours (main.cfg m)) (MaxPages (main.cfg m))) /\
    (len (main.airportInput m) < 3 ->
     m' = main.setInput m false [] /\ st' = st /\ cmd = main.nilCmd).
Proof.
  intros Hmode Hlen Hupper. unfold main.Update. rewrite Hmode.
  rewrite bool_decide_eq_true_2 by done.
  destruct (decide (len (main.airportInput m) = 3)) as [H3|H3].
  - rewrite enterKey_valid by done.
    eexists _, _, _. split; [reflexivity|]. simpl.
    do 6 (split; [done|]). split; [by intros _|]. lia.
  - rewrite enterKey_invalid by done.
    eexists _, _, _. split; [reflexivity|]. simpl.
    do 6 (split; [done|]). split; [lia|done].
Qed.

(** ** The running program *)

Lemma paginated_page_fits (b : Board) :
  paginated b -> fitsInt b ->
  0 <= CurrentPage b /\
  (CurrentPage b + 1) * effectivePerPage b <= maxInt64.
Proof.
  intros [Htotal Hcur] Hfit. unfold fitsInt in Hfit.
  pose proof (effectivePerPage_pos b) as Hp.
  pose proof (len_nonneg (Flights b)) as Hn.
  pose proof (ceilDiv_spec (len (Flights b)) (effectivePerPage b) Hp) as Hceil.
  split; [lia|].
  destruct (Z.max_spec 1 (ceilDiv (len (Flights b)) (effectivePerPage b)))
    as [[_ Hmax]|[_ Hmax]]; rewrite Hmax in Htotal; nia.
Qed.

Lemma View_total (m : main.model) (st : Store) :
  wfStore st -> paginated (board st) -> fitsInt (board st) ->
  is_Some (View m st).
Proof.
  intros Hwf Hpag Hfit.
  destruct (paginated_page_fits _ Hpag Hfit) as [Hcur Hpage].
  destruct (Board_rows_total st Hwf Hcur Hpage) as [rows Hrows].
  assert (is_Some (Board_Render JoinVertical st)) as [rendered Hrendered].
  { unfold Board_Render. rewrite Board_sections_rows, Hrows. by eexists. }
  unfold main.View. rewrite Hrendered. simpl.
  destruct (main.inputMode m); [by eexists|].
  destruct (_ && _); by eexists.
Qed.

Lemma appInv_setInput (m : main.model) (st : Store) (mode : bool)
    (input : gostring) :
  appInv LoadLocation m st -> len input <= 3 ->
  forallb isUpper input = true ->
  appInv LoadLocation (main.setInput m mode input) st.
Proof.
  intros (H1 & H2 & H3 & H4 & H5 & H6 & H7 & H8 & _ & _) Hlen Hupper.
  unfold appInv. simpl. tauto.
Qed.

Lemma appInv_setError (m : main.model) (st : Store) (loading : bool)
    (err : option gostring) (e : gostring) :
  appInv LoadLocation m st ->
  appInv LoadLocation (main.setLoading m loading err)
    (setBoard st (setError (board st) e)).
Proof.
  intros (H1 & H2 & H3 & H4 & H5 & H6 & H7 & H8 & H9 & H10).
  split; [by apply setError_wfStore|]. simpl.
  change (paginated (setError (board st) e)) with (paginated (board st)).
  change (fitsInt (setError (board st) e)) with (fitsInt (board st)).
  tauto.
Qed.

Lemma step_done (r : option (main.model * Store * main.Cmd))
    (m m' : main.model) (st' : Store) (cmd : main.Cmd) :
  r = Some (m', st', cmd) ->
  appInv LoadLocation m' st' ->
  main.cfg m' = main.cfg m -> main.apiClient m' = main.apiClient m ->
  exists m' st' cmd,
    r = Some (m', st', cmd) /\
    appInv LoadLocation m' st' /\
    main.cfg m' = main.cfg m /\ main.apiClient m' = main.apiClient m /\
    is_Some (View m' st').
Proof.
  intros Hrun Hinv Hcfg Hclient. exists m', st', cmd.
  repeat (split; [done|]).
  destruct Hinv as (H1 & H2 & H3 & _). by apply View_total.
Qed.

Section WithContract.
Context (Hsort : SortContract sorter).

Lemma UpdateFlights_appInv (m : main.model) (st : Store) (a : nat)
    (clk : nat -> RowClock) (flights : list Flight) :
  appInv LoadLocation m st ->
  sliceHeap st !! a = Some flights ->
  len flights + effectivePerPage (board st) <= maxInt64 ->
  exists st',
    UpdateFlights (H := sorter) st a clk = Some st' /\
    appInv LoadLocation m st' /\ Error (board st') = Error (board st).
Proof.
  intros (H1 & H2 & H3 & H4 & H5 & H6 & H7 & H8 & H9 & H10) Ha Hfit.
  destruct (UpdateFlights_rows Hsort st a clk flights H1 Ha)
    as (st' & _ & Hrun & Hwf & _ & Hboard & Hlen & _).
  exists st'. split; [done|].
  set (b := setFlights (board st) (Flights (board st'))) in *.
  assert (fitsInt b) as Hfitb.
  { unfold fitsInt, b, len. simpl. rewrite Hlen. exact Hfit. }
  destruct (updatePagination_frame b) as (F1 & F2 & F3 & F4 & F5).
  unfold appInv. rewrite Hboard. split; [|by rewrite F4].
  split; [done|]. split; [by apply updatePagination_paginated|].
  split.
  { unfold fitsInt in *. rewrite updatePagination_Flights.
    unfold effectivePerPage in *. by rewrite F3. }
  rewrite F1, F2, F3. simpl. tauto.
Qed.

(** X23. The program keeps itself consistent.  From a state with a
    consistent store, a paginated board, a valid airport code that model
    and board agree on, the timezone of that code on the board and a valid
    input, [Update] returns for every message that can occur, without a
    panic, with a state of that kind again and with the configuration and
    the client it had; and [View] can render the state. *)
Theorem program_invariant (m : main.model) (st : Store) (msg : main.Msg)
    (clk : nat -> RowClock) :
  appInv LoadLocation m st -> msgOK st msg ->
  exists m' st' cmd,
    Update m st msg clk = Some (m', st', cmd) /\
    appInv LoadLocation m' st' /\
    main.cfg m' = main.cfg m /\ main.apiClient m' = main.apiClient m /\
    is_Some (View m' st').
Proof.
  intros Hinv Hmsg.
  pose proof Hinv as (H1 & H2 & H3 & H4 & H5 & H6 & H7 & H8 & H9 & H10).
  destruct msg as [key|e|a e| | | |]; simpl in Hmsg.
  - (* a key *)
    unfold main.Update. destruct (main.inputMode m) eqn:Hmode.
    + destruct (bool_decide (key = str "enter")).
      { destruct (decide (len (main.airportInput m) = 3)) as [Hthree|Hthree].
        - eapply step_done; [by rewrite enterKey_valid| |done..].
          destruct H1 as (W1 & W2 & W3).
          split; [by repeat split|]. split.
          { destruct H2 as [Htotal Hcur]. split; [|simpl; lia].
            simpl. unfold effectivePerPage in *. simpl. by rewrite <- H8. }
          split.
          { unfold fitsInt, effectivePerPage in *. simpl. by rewrite <- H8. }
          by repeat split.
        - eapply step_done; [by rewrite enterKey_invalid| |done..].
          by apply appInv_setInput. }
      destruct (bool_decide (key = str "esc")).
      { eapply step_done; [done| |done..]. by apply appInv_setInput. }
      destruct (bool_decide (key = str "backspace")).
      { pose proof (len_nonneg (main.airportInput m)) as Hnonneg.
        destruct (Z.ltb_spec 0 (len (main.airportInput m))).
        - unfold sliceTo.
          rewrite wrap64_id by (unfold minInt64, maxInt64; lia).
          destruct (Z.ltb_spec (len (main.airportInput m) - 1) 0); [lia|].
          destruct (Z.ltb_spec (len (main.airportInput m))
                      (len (main.airportInput m) - 1)); [lia|].
          simpl. eapply step_done; [done| |done..].
          apply appInv_setInput; [done| |by apply forallb_take].
          unfold len in *. rewrite length_take. lia.
        - by eapply step_done. }
      destruct (letterKey_input m key H9 H10)
        as (L1 & L2 & L3 & L4 & L5 & L6 & L7 & _).
      eapply step_done; [done| |done..].
      unfold appInv. rewrite L3, L6. tauto.
    + destruct (_ || _); [by eapply step_done|].
      destruct (bool_decide _); [|by eapply step_done].
      eapply step_done; [done| |done..]. by apply appInv_setInput.
  - (* errMsg *)
    destruct e as [e|]; [|done]. simpl.
    eapply step_done; [done| |done..]. by apply appInv_setError.
  - (* flightsMsg *)
    destruct e as [e|]; simpl.
    + eapply step_done; [done| |done..]. by apply appInv_setError.
    + destruct Hmsg as (flights & Ha & Hfit).
      destruct (UpdateFlights_appInv (main.setLoading m false (main.err m))
                  (setBoard st (setError (board st) [])) a clk flights)
        as (st' & Hrun & Hinv' & _); [by apply appInv_setError|done..|].
      rewrite Hrun. simpl. by eapply step_done.
  - by eapply step_done.
  - (* page rotation *)
    simpl. rewrite (NextPage_paginated _ H2 H3). simpl.
    eapply step_done; [done| |done..].
    destruct H1 as (W1 & W2 & W3).
    pose proof (paginated_total_bounds _ H2 H3) as Hbounds.
    split; [by repeat split|]. split.
    { apply setCurrentPage_paginated; [done|].
      apply Z.mod_pos_bound. lia. }
    by repeat split.
  - (* animation *)
    simpl. destruct (Board_Tick_wfStore st clk H1)
      as (st' & Hrun & Hwf & Hboard & _).
    rewrite Hrun. simpl. eapply step_done; [done| |done..].
    unfold appInv. rewrite Hboard. tauto.
  - by eapply step_done.
Qed.

End WithContract.

Lemma initialModel_appInv (code : gostring) (cfg : Config) :
  len code = 3 -> forallb isUpper code = true ->
  cfg_FlightsPerPage cfg = 15 ->
  appInv LoadLocation (main.initialModel LoadLocation styles code cfg).1
    (main.initialModel LoadLocation styles code cfg).2.
Proof.
  intros Hlen Hupper Hper. unfold main.initialModel, appInv. simpl.
  split.
  { split; [apply Forall_nil_2|]. split; apply Forall_nil_2. }
  split; [apply NewBoard_paginated|].
  split; [unfold fitsInt, effectivePerPage; simpl; rewrite Hper; by vm_compute|].
  repeat split; done.
Qed.

(** X24. The program starts only with an airport code of three upper-case
    letters and an API key: [main] gives [tea.NewProgram] a model exactly
    when the airport code of the flag, or of AIRPORT_CODE without a flag,
    is three letters 'A'..'Z' after trimming and upper-casing, and
    FLIGHTAWARE_API_KEY is set; otherwise it writes an error and exits.
    The state it starts with has that code and key, an empty board in the
    timezone of the code, satisfies the invariant of the running program,
    and is displayed as "Loading flights...". *)
Theorem start_checks (Getenv : gostring -> gostring)
    (ParseDuration : gostring -> option Z) (flagAirport : gostring) :
  let cfg := LoadConfig Getenv ParseDuration in
  let given :=
    if decide (flagAirport = []) then Getenv (str "AIRPORT_CODE")
    else flagAirport in
  let code := ToUpper ToUpperUnicode (TrimSpace TrimSpaceUnicode given) in
  let started :=
    main.start LoadLocation ToUpperUnicode TrimSpaceUnicode styles
      Getenv ParseDuration flagAirport in
  (given <> [] /\ len code = 3 /\ forallb isUpper code = true /\
   Getenv (str "FLIGHTAWARE_API_KEY") <> [] ->
   started = inr (main.initialModel LoadLocation styles code cfg)) /\
  (forall m st, started = inr (m, st) ->
     given <> [] /\ len code = 3 /\ forallb isUpper code = true /\
     Getenv (str "FLIGHTAWARE_API_KEY") <> [] /\
     (m, st) = main.initialModel LoadLocation styles code cfg /\
     main.airportCode m = code /\
     client_APIKey (main.apiClient m) = Getenv (str "FLIGHTAWARE_API_KEY") /\
     main.cfg m = cfg /\
     Flights (board st) = [] /\
     appInv LoadLocation m st /\
     View m st = Some (str "Loading flights..." ++ [newline])).
Proof.
  intros cfg given code started.
  assert (forall key, getEnv Getenv key [] = Getenv key) as HgetEnv.
  { intros key. unfold getEnv.
    destruct (decide (Getenv key = [])) as [Heq|]; [by rewrite Heq|done]. }
  assert (APIKey cfg = Getenv (str "FLIGHTAWARE_API_KEY")) as Hkey
    by apply HgetEnv.
  assert (cfg_AirportCode cfg = Getenv (str "AIRPORT_CODE")) as Hcode
    by apply HgetEnv.
  assert (cfg_FlightsPerPage cfg = 15) as Hper by reflexivity.
  assert (started =
          if decide (given = []) then
            inl (str "Error: Airport code required. Use -airport flag or set AIRPORT_CODE environment variable." ++
                 [newline])
          else if negb (len code =? 3) then
            inl (str "Error: Airport code must be 3 letters (e.g., JFK, LAX). Got: " ++
                 code ++ [newline])
          else if negb (main.lettersOnly code) then
            inl (str "Error: Airport code must contain only letters (e.g., JFK, LAX). Got: " ++
                 code ++ [newline])
          else if decide (APIKey cfg = []) then
            inl (str "Error: FLIGHTAWARE_API_KEY environment variable is required." ++
                 [newline])
          else inr (main.initialModel LoadLocation styles code cfg))
    as Hstart.
  { unfold started, main.start. fold cfg. rewrite Hcode. fold given.
    destruct (decide (given = [])); [done|]. by fold code. }
  rewrite Hstart. split.
  - intros (Hgiven & Hlen & Hupper & Hapi).
    destruct (decide (given = [])); [done|].
    destruct (Z.eqb_spec (len code) 3); [|done]. cbn [negb].
    unfold main.lettersOnly. rewrite Hupper. cbn [negb].
    destruct (decide (APIKey cfg = [])) as [Hk|]; [|done].
    by rewrite Hkey in Hk.
  - intros m st.
    destruct (decide (given = [])); [done|].
    destruct (Z.eqb_spec (len code) 3) as [Hlen|]; cbn [negb]; [|done].
    destruct (main.lettersOnly code) eqn:Hupper; cbn [negb]; [|done].
    destruct (decide (APIKey cfg = [])) as [|Hapi]; [done|].
    intros [= <- <-]. rewrite Hkey in Hapi.
    do 4 (split; [done|]). split; [done|]. split; [done|].
    split; [exact Hkey|]. split; [done|]. split; [done|]. split.
    + exact (initialModel_appInv code cfg Hlen Hupper Hper).
    + reflexivity.
Qed.

End ProgramProperties.

(** ** Snapshots of the data source on the board *)

Section ApiSnapshots.
Context {sorter : SliceSorter} (Hsort : SortContract sorter).

(** X25. A snapshot that [GetDepartures] returned never overflows the page
    arithmetic of the board: [UpdateFlights] leaves a paginated board with
    at most 50 rows and at most [ceil(50 / page size)] pages, which is 4
    pages for the page size 15 of the configuration. *)
Theorem api_snapshot_pages (st : Store) (a : nat) (clk : nat -> RowClock)
    (now : Time) (hours : Z) (deps : list AeroAPIDeparture) :
  wfStore st ->
  sliceHeap st !! a = Some (filterDepartures now hours deps) ->
  effectivePerPage (board st) <= maxInt64 - 50 ->
  exists st',
    UpdateFlights (H := sorter) st a clk = Some st' /\
    paginated (board st') /\
    len (Flights (board st')) = len (filterDepartures now hours deps) /\
    len (Flights (board st')) <= 50 /\
    TotalPages (board st') <=
      Z.max 1 (ceilDiv 50 (effectivePerPage (board st))) /\
    (FlightsPerPage (board st) = 15 -> TotalPages (board st') <= 4).
Proof.
  intros Hwf Ha Hper.
  set (flights := filterDepartures now hours deps) in *.
  assert (len flights <= 50) as Hcap.
  { unfold flights, filterDepartures. rewrite departuresLoop_closed by done.
    unfold len. simpl. rewrite length_take. unfold maxFlights. lia. }
  destruct (UpdateFlights_rows Hsort st a clk flights Hwf Ha)
    as (st' & _ & Hrun & _ & _ & Hboard & Hlen & _).
  exists st'. split; [done|].
  set (b := setFlights (board st) (Flights (board st'))) in *.
  assert (len (Flights b) = len flights) as Hlenb
    by (unfold b, len; simpl; by rewrite Hlen).
  assert (effectivePerPage b = effectivePerPage (board st)) as Hperb
    by reflexivity.
  assert (fitsInt b) as Hfit by (unfold fitsInt; lia).
  pose proof (updatePagination_paginated b Hfit) as Hpag.
  rewrite <- Hboard in Hpag.
  assert (len (Flights (board st')) = len flights) as Hlen'
    by (unfold len; by rewrite Hlen).
  assert (effectivePerPage (board st') = effectivePerPage (board st)) as Hper'.
  { rewrite Hboard. unfold effectivePerPage.
    by rewrite (proj1 (proj2 (proj2 (updatePagination_frame b)))). }
  split; [done|]. split; [done|]. split; [lia|].
  pose proof (effectivePerPage_pos (board st)) as Hpos.
  assert (TotalPages (board st') <=
          Z.max 1 (ceilDiv 50 (effectivePerPage (board st)))) as Hpages.
  { destruct Hpag as [-> _]. rewrite Hper', Hlen'. unfold ceilDiv.
    apply Z.max_le_compat_l, Z.div_le_mono; lia. }
  split; [done|]. intros H15.
  unfold effectivePerPage in Hpages. rewrite H15 in Hpages.
  exact Hpages.
Qed.

End ApiSnapshots.

(** ** The further properties on concrete runs *)

Lemma allocSlice_wf (st : Store) (flights : list Flight) :
  wfStore st -> wfStore (allocSlice st flights).
Proof.
  intros (Hrows & Hptrs & Hlisted). split; [done|]. split; [|done].
  simpl. eapply Forall_impl; [exact Hptrs|].
  intros row Hrow ptr Hptr. destruct (Hrow ptr Hptr) as [f Hf].
  exists f. unfold derefFlight in *.
  destruct (sliceHeap st !! ptr.1) as [l|] eqn:Hl; [|done].
  by rewrite (lookup_app_l_Some _ _ _ _ Hl).
Qed.

(** The board shows the gate scenario and the fetch returns no flight:
    the board is left without rows, on its only page, and renders two blank
    lines. *)
Lemma UpdateFlights_empty_snapshot_witness :
  exists st',
    UpdateFlights (allocSlice gateStore []) 2
      (fun _ => rowClockAt 5000000000) = Some st' /\
    rowHeap st' = rowHeap gateStore /\
    Flights (board st') = [] /\ TotalPages (board st') = 1 /\
    Board_rows st' =
      Some [replicate 68 space; replicate 68 space].
Proof.
  destruct (UpdateFlights_empty_snapshot insertionSorter_contract
              (allocSlice gateStore []) 2 (fun _ => rowClockAt 5000000000)
              (allocSlice_wf _ _ gateStore_wf) eq_refl)
    as (st' & Hrun & Hrows & _ & Hflights & _ & Htotal & Hrender).
  exists st'. split; [exact Hrun|]. split; [exact Hrows|].
  split; [exact Hflights|]. split; [exact Htotal|].
  rewrite Hrender; [reflexivity|vm_compute; discriminate].
Defined.

(** LH900 appears in the snapshot while the board shows AF22 and BA114:
    it gets the row at the new address 2, which shows solid blocks for
    "LH900" in its flight number field, and AF22 keeps row 0. *)
Lemma new_flight_fresh_row_witness :
  exists st' row,
    UpdateFlights
      (allocSlice gateStore
         [onTime "LH900" 9 45 "D4"; onTime "AF22" 9 30 "C3"]) 2
      (fun _ => rowClockAt 5000000000) = Some st' /\
    Flights (board st') !! 1%nat = Some 2%nat /\
    rowHeap st' !! 2%nat = Some row /\
    Flight_ row = Some (2, 1)%nat /\
    RenderRunes (FlightNumAnim row) =
      Some [solidBlock; solidBlock; solidBlock; solidBlock; solidBlock;
            32; 32; 32].
Proof.
  destruct (new_flight_fresh_row insertionSorter_contract
              (allocSlice gateStore
                 [onTime "LH900" 9 45 "D4"; onTime "AF22" 9 30 "C3"]) 2
              (fun _ => rowClockAt 5000000000)
              [onTime "LH900" 9 45 "D4"; onTime "AF22" 9 30 "C3"] 1
              (onTime "LH900" 9 45 "D4")
              (allocSlice_wf _ _ gateStore_wf) eq_refl)
    as (st' & p & row & Hrun & Hp & Hfresh & Hrow & _ & Hptr & Hflips & _).
  - vm_compute. reflexivity.
  - intros q Hq. apply list_elem_of_In in Hq.
    destruct Hq as [<-|[<-|[]]]; vm_compute; discriminate.
  - assert (p = 2%nat) as ->.
    { pose proof Hrun as Hrun'. vm_compute in Hrun'.
      injection Hrun' as <-. vm_compute in Hp. by injection Hp as <-. }
    exists st', row. split; [exact Hrun|]. split; [exact Hp|].
    split; [exact Hrow|]. split; [exact Hptr|].
    destruct Hflips as (_ & -> & _). reflexivity.
Defined.

(** BA114 is missing from the snapshot: its row, row 1, is not listed
    any more. *)
Lemma departed_flight_leaves_board_witness :
  (1%nat ∈ Flights (board gateStore)) /\
  exists st',
    UpdateFlights (allocSlice gateStore [onTime "AF22" 9 30 "C3"]) 2
      (fun _ => rowClockAt 5000000000) = Some st' /\
    (1%nat ∉ Flights (board st')) /\
    rowHeap st' !! 1%nat = rowHeap gateStore !! 1%nat.
Proof.
  assert (1%nat ∈ Flights (board gateStore)) as Hin.
  { apply list_elem_of_In. simpl. tauto. }
  split; [exact Hin|].
  apply (departed_flight_leaves_board insertionSorter_contract
           (allocSlice gateStore [onTime "AF22" 9 30 "C3"]) 2
           (fun _ => rowClockAt 5000000000) [onTime "AF22" 9 30 "C3"] 1
           (str "BA114") (allocSlice_wf _ _ gateStore_wf) eq_refl Hin).
  - vm_compute. reflexivity.
  - intros Hk. apply list_elem_of_In in Hk. simpl in Hk.
    destruct Hk as [Hk|[]]. discriminate.
Defined.

(** The snapshot made of [exampleDeparture] on a new board with page size
    15: one page. *)
Lemma api_snapshot_pages_witness :
  exists st',
    UpdateFlights
      {| rowHeap := [];
         sliceHeap := [filterDepartures (utcTime 9 0) 6 [exampleDeparture]];
         board := NewBoard plainStyles (str "LHR") (Some plusOne) 15 |} 0
      (fun _ => rowClockAt 0) = Some st' /\
    len (Flights (board st')) = 1 /\ TotalPages (board st') <= 4.
Proof.
  destruct (api_snapshot_pages insertionSorter_contract
              {| rowHeap := [];
                 sliceHeap :=
                   [filterDepartures (utcTime 9 0) 6 [exampleDeparture]];
                 board := NewBoard plainStyles (str "LHR") (Some plusOne) 15 |}
              0 (fun _ => rowClockAt 0) (utcTime 9 0) 6 [exampleDeparture])
    as (st' & Hrun & _ & Hlen & _ & _ & Hpages).
  - split; [apply Forall_nil_2|]. split; apply Forall_nil_2.
  - reflexivity.
  - vm_compute. discriminate.
  - exists st'. split; [exact Hrun|]. split; [by rewrite Hlen|].
    by apply Hpages.
Defined.

(** "k" is typed after "JF": the input is "JFK", and nothing else
    happens. *)
Lemma input_mode_keys_witness :
  exists m' cmd,
    main.Update exampleZones id id typingModel gateStore
      (main.KeyMsg (str "k")) (fun _ => rowClockAt 0) =
      Some (m', gateStore, cmd) /\
    main.airportInput m' = str "JFK" /\ cmd = main.nilCmd.
Proof.
  destruct (input_mode_keys exampleZones id id typingModel gateStore (str "k")
              (fun _ => rowClockAt 0) eq_refl)
    as (m' & st' & cmd & Hrun & _ & _ & _ & _ & _ & _ & Hother & _ & Hletter).
  - vm_compute. discriminate.
  - reflexivity.
  - destruct Hother as (-> & -> & _); [discriminate|].
    exists m', main.nilCmd. split; [exact Hrun|]. split; [|reflexivity].
    destruct (Hletter "k"%char eq_refl eq_refl) as [-> _].
    + vm_compute. reflexivity.
    + reflexivity.
Defined.

(** "enter" after "JFK": model and board change to JFK, the rows of LHR
    stay on the board, and the flights of JFK are fetched. *)
Lemma enter_key_switches_airport_witness :
  exists m' st' cmd,
    main.Update exampleZones id id
      (main.setInput typingModel true (str "JFK")) gateStore
      (main.KeyMsg (str "enter")) (fun _ => rowClockAt 0) =
      Some (m', st', cmd) /\
    main.airportCode m' = str "JFK" /\ main.inputMode m' = false /\
    AirportCode (board st') = str "JFK" /\
    Flights (board st') = Flights (board gateStore) /\
    cmd = main.fetchFlights (NewFlightAwareClient (str "k3y")) (str "JFK") 6 3.
Proof.
  destruct (enter_key_switches_airport exampleZones id id
              (main.setInput typingModel true (str "JFK")) gateStore
              (fun _ => rowClockAt 0) eq_refl)
    as (m' & st' & cmd & Hrun & Hmode & _ & _ & _ & Hflights & _ & Hvalid & _).
  - vm_compute. discriminate.
  - reflexivity.
  - destruct (Hvalid eq_refl) as (Hcode & _ & Hboard & _ & _ & _ & _ & Hcmd).
    exists m', st', cmd. split; [exact Hrun|]. split; [exact Hcode|].
    split; [exact Hmode|]. split; [exact Hboard|]. split; [exact Hflights|].
    rewrite Hcmd. reflexivity.
Defined.

(** Without a flag and with AIRPORT_CODE=lhr the program starts for LHR,
    in the timezone of LHR, and shows the loading text. *)
Lemma start_checks_witness :
  main.start exampleZones id id plainStyles exampleEnv (fun _ => None) [] =
    inr (startState.1, startState.2) /\
  main.airportCode startState.1 = str "LHR" /\
  AirportTZ (board startState.2) = Some plusOne /\
  appInv exampleZones startState.1 startState.2 /\
  main.View mjoin startState.1 startState.2 =
    Some (str "Loading flights..." ++ [newline]).
Proof.
  assert (main.start exampleZones id id plainStyles exampleEnv
            (fun _ => None) [] = inr (startState.1, startState.2)) as Hstart
    by (vm_compute; reflexivity).
  destruct (proj2 (start_checks exampleZones id id plainStyles mjoin
                     exampleEnv (fun _ => None) []) _ _ Hstart)
    as (_ & _ & _ & _ & _ & _ & _ & _ & _ & Hinv & Hview).
  split; [exact Hstart|]. split; [vm_compute; reflexivity|].
  split; [vm_compute; reflexivity|]. split; [exact Hinv|exact Hview].
Defined.

(** The program has started for LHR; the first fetch answers with two
    flights: [Update] puts them on the board, and the state is consistent
    before and after. *)
Lemma program_invariant_witness :
  exists m' st' cmd,
    appInv exampleZones startState.1 startState.2 /\
    main.Update exampleZones id id startState.1
      (allocSlice startState.2
         [onTime "BA114" 10 0 "A12"; onTime "AF22" 9 30 "C3"])
      (main.flightsMsg 0 None) (fun _ => rowClockAt 0) =
      Some (m', st', cmd) /\
    main.loading m' = false /\
    appInv exampleZones m' st' /\
    is_Some (main.View mjoin m' st').
Proof.
  pose proof (initialModel_appInv exampleZones plainStyles (str "LHR")
                exampleConfig eq_refl eq_refl eq_refl) as Hinv.
  destruct (program_invariant exampleZones id id mjoin
              insertionSorter_contract startState.1
              (allocSlice startState.2
                 [onTime "BA114" 10 0 "A12"; onTime "AF22" 9 30 "C3"])
              (main.flightsMsg 0 None) (fun _ => rowClockAt 0))
    as (m' & st' & cmd & Hrun & Hinv' & _ & _ & Hview).
  - destruct Hinv as (H1 & H2).
    split; [exact (allocSlice_wf _ _ H1)|exact H2].
  - eexists. split; [reflexivity|]. vm_compute. discriminate.
  - exists m', st', cmd. split; [exact Hinv|]. split; [exact Hrun|].
    split; [|split; [exact Hinv'|exact Hview]].
    simpl in Hrun.
    destruct (UpdateFlights _ _ _) as [st1|]; [|discriminate].
    simpl in Hrun. by injection Hrun as <- _ _.
Defined.

(** ** The definitions at work *)

Example exampleDeparture_flight :
  filterDepartures (utcTime 9 0) 6 [exampleDeparture] =
  [ {| Status := StatusDelayed; AirlineCode := str "BA";
       AirlineName := str "BAW"; FlightNumber := str "BA 117";
       DestinationCode := str "JFK"; DestinationCity := str "New York";
       Gate := str "A10"; Remarks := str "Delayed";
       ScheduledDeparture := utcTime 10 0;
       EstimatedDeparture := Some (utcTime 10 40) |} ].
Proof. reflexivity. Qed.

Example late_departure_filtered :
  filterDepartures (utcTime 3 0) 6 [exampleDeparture] = [] /\
  filterDepartures (utcTime 3 0) 0 [exampleDeparture] =
    filterDepartures (utcTime 9 0) 6 [exampleDeparture].
Proof. split; reflexivity. Qed.

Example Atoi_examples :
  Atoi (str "5") = Some 5 /\ Atoi (str "+12") = Some 12 /\
  Atoi (str "-3") = Some (-3) /\ Atoi (str "3 ") = None /\
  Atoi (str "") = None /\ Atoi (str "-") = None /\
  Atoi (str "9223372036854775807") = Some maxInt64 /\
  Atoi (str "9223372036854775808") = None.
Proof. repeat split; reflexivity. Qed.

Example MAX_PAGES_examples :
  MaxPages (LoadConfig (fun key => if bool_decide (key = str "MAX_PAGES")
                                   then str "5" else []) (fun _ => None)) = 5 /\
  MaxPages (LoadConfig (fun key => if bool_decide (key = str "MAX_PAGES")
                                   then str "0" else []) (fun _ => None)) = 3 /\
  MaxPages (LoadConfig (fun key => if bool_decide (key = str "MAX_PAGES")
                                   then str "many" else []) (fun _ => None)) = 3.
Proof. repeat split; reflexivity. Qed.

Example TrimSpace_ToUpper_example :
  ToUpper id (TrimSpace id (str "  jfk ")) = str "JFK".
Proof. reflexivity. Qed.

Example quit_only_in_normal_mode :
  (snd <$> main.Update exampleZones id id
             (main.setInput typingModel false []) gateStore
             (main.KeyMsg (str "q")) (fun _ => rowClockAt 0)) =
    Some main.Quit /\
  (main.airportInput ∘ fst ∘ fst <$>
     main.Update exampleZones id id
       (main.setInput typingModel true []) gateStore
       (main.KeyMsg (str "q")) (fun _ => rowClockAt 0)) = Some (str "Q").
Proof. split; reflexivity. Qed.
